(** * The scheduling core of the grid auto-clicker

    A shallow embedding of the control core of
    [src/v2/autoclicker_grid_V2.py] (and of the first script,
    [src/v1/autoclicker_grid.py], where the two differ): the stop and pause
    flags, the interruptible sleep, the per-position cooldown table, the
    click counters with the cycle rule, the automatic pause/stop rules, the
    statistics printed after a sweep and the sweep loop [run_cycles]; and,
    of the application around it, the start of a run, the dashboard fields,
    the calibration of the grid and the countdown.

    Conventions of the embedding.
    - Python [int] is [Z], and [int(x)] on a field declared [int] is [x].
    - Python [float] readings of [time.monotonic()] and float durations are
      idealised as rationals [Q] (seconds), so equalities between times are
      stated with [==].  Where the dashboard divides integers, and where an
      entry of the grid tab is read back through [float], the result depends
      on the rounding: there the binary64 arithmetic is embedded as it is,
      with [round_binary64].
    - The worker thread sees the controller (hotkeys, buttons) only through
      the two events, and it reads them between sleeps.  The model delivers
      controller actions while the worker is inside [time.sleep]: the world
      carries a script with, for every coming sleep slice, the controller
      actions that happen during it.  Statements other than [time.sleep] take
      no time.
    - [random.random()] draws come from a supply in the world.
    - Loops that need not terminate ([while] on the events or on the clock)
      take a fuel argument; running out of fuel is the result [OutOfFuel].
    - [log] output and the state file are not modelled: nothing in the core
      reads them back; [pyautogui.click] is taken to succeed. *)

From Stdlib Require Import String DecimalString.
From Stdlib Require Import ZArith QArith Qminmax Qround Qpower Lqa Lia List Bool.
From stdpp Require Import base option gmap.
Import ListNotations.

Local Open Scope Z_scope.

(** ** Configuration dataclasses *)

(** [GridConfig]. *)
Record GridConfig := mkGridConfig {
  origin_x : Z;
  origin_y : Z;
  step_x : Z;
  step_y : Z;
  rows : Z;
  cols : Z;
  offset_dx : Z;
  offset_dy : Z;
  random_offset_px : Z
}.

(** [TimingConfig]. *)
Record TimingConfig := mkTimingConfig {
  cooldown_seconds : Q;
  always_second_click : bool;
  click_delay : Q;
  between_positions_delay : Q;
  click_delay_jitter : Q;
  between_positions_jitter : Q
}.

(** [CounterConfig], the fields the runtime reads (the economy fields only
    feed log lines and the dashboard). *)
Record CounterConfig := mkCounterConfig {
  start_cycles_done : Z;
  target_cycles : option Z;
  pause_at_cycles : option Z;
  stop_after_minutes : option Q;
  pause_after_minutes : option Q;
  clicks_per_cycle : Z;
  stats_window : Z
}.

(** [AppState], the part [run_cycles] reads. *)
Record AppState := mkAppState {
  grid : GridConfig;
  timing : TimingConfig;
  counters : CounterConfig
}.

(** ** The world of the worker thread *)

(** What a controller thread can do to the two events: the hotkeys of
    [on_key_press] and the buttons [App.pause], [App.resume], [App.stop]. *)
Inductive Control :=
| KeyEsc | KeyF8 | KeyF9 | BtnPause | BtnResume | BtnStop.

(** What the worker did, newest first.  A sleep slice records the flags as
    they stood when the slice began, a click records the stop flag at the
    moment of the click. *)
Inductive Event :=
| Slept (dur : Q) (was_paused was_stopped : bool)
| Clicked (x y : Z) (was_stopped : bool).

Record World := mkWorld {
  now : Q;                               (* time.monotonic() *)
  stop_event : bool;
  pause_event : bool;
  script : list (list Control);          (* controller actions, per coming sleep *)
  rng : list Q;                          (* coming random.random() draws *)
  trace : list Event;
  (* module globals *)
  session_clicks : Z;
  session_cycles_added : Z;
  session_pause_time : Q;
  session_active_time : Q;
  per_position_clicks : gmap (Z * Z) Z;
  run_start_time : option Q;
  current_position : option (Z * Z);
  cycle_times : list Q
}.

Definition set_flags (s p : bool) (w : World) : World :=
  mkWorld (now w) s p (script w) (rng w) (trace w)
    (session_clicks w) (session_cycles_added w) (session_pause_time w)
    (session_active_time w) (per_position_clicks w) (run_start_time w)
    (current_position w) (cycle_times w).

Definition set_stop (w : World) : World := set_flags true (pause_event w) w.
Definition set_pause (w : World) : World := set_flags (stop_event w) true w.

Definition set_clock (t : Q) (sc : list (list Control)) (w : World) : World :=
  mkWorld t (stop_event w) (pause_event w) sc (rng w) (trace w)
    (session_clicks w) (session_cycles_added w) (session_pause_time w)
    (session_active_time w) (per_position_clicks w) (run_start_time w)
    (current_position w) (cycle_times w).

Definition set_rng (r : list Q) (w : World) : World :=
  mkWorld (now w) (stop_event w) (pause_event w) (script w) r (trace w)
    (session_clicks w) (session_cycles_added w) (session_pause_time w)
    (session_active_time w) (per_position_clicks w) (run_start_time w)
    (current_position w) (cycle_times w).

Definition record (e : Event) (w : World) : World :=
  mkWorld (now w) (stop_event w) (pause_event w) (script w) (rng w)
    (e :: trace w)
    (session_clicks w) (session_cycles_added w) (session_pause_time w)
    (session_active_time w) (per_position_clicks w) (run_start_time w)
    (current_position w) (cycle_times w).

Definition set_counters (sc sca : Z) (w : World) : World :=
  mkWorld (now w) (stop_event w) (pause_event w) (script w) (rng w) (trace w)
    sc sca (session_pause_time w)
    (session_active_time w) (per_position_clicks w) (run_start_time w)
    (current_position w) (cycle_times w).

Definition set_times (spt sat : Q) (w : World) : World :=
  mkWorld (now w) (stop_event w) (pause_event w) (script w) (rng w) (trace w)
    (session_clicks w) (session_cycles_added w) spt sat
    (per_position_clicks w) (run_start_time w)
    (current_position w) (cycle_times w).

Definition set_per_position_clicks (m : gmap (Z * Z) Z) (w : World) : World :=
  mkWorld (now w) (stop_event w) (pause_event w) (script w) (rng w) (trace w)
    (session_clicks w) (session_cycles_added w) (session_pause_time w)
    (session_active_time w) m (run_start_time w)
    (current_position w) (cycle_times w).

Definition set_run_start_time (t : option Q) (w : World) : World :=
  mkWorld (now w) (stop_event w) (pause_event w) (script w) (rng w) (trace w)
    (session_clicks w) (session_cycles_added w) (session_pause_time w)
    (session_active_time w) (per_position_clicks w) t
    (current_position w) (cycle_times w).

Definition set_current_position (p : option (Z * Z)) (w : World) : World :=
  mkWorld (now w) (stop_event w) (pause_event w) (script w) (rng w) (trace w)
    (session_clicks w) (session_cycles_added w) (session_pause_time w)
    (session_active_time w) (per_position_clicks w) (run_start_time w)
    p (cycle_times w).

Definition set_cycle_times (l : list Q) (w : World) : World :=
  mkWorld (now w) (stop_event w) (pause_event w) (script w) (rng w) (trace w)
    (session_clicks w) (session_cycles_added w) (session_pause_time w)
    (session_active_time w) (per_position_clicks w) (run_start_time w)
    (current_position w) l.

(** [on_key_press] and the control buttons, on the two events.  F9 only
    serves calibration. *)
Definition on_control (k : Control) (w : World) : World :=
  match k with
  | KeyEsc | BtnStop => set_stop w
  | KeyF8 => set_flags (stop_event w) (negb (pause_event w)) w
  | BtnPause => set_pause w
  | BtnResume => set_flags (stop_event w) false w
  | KeyF9 => w
  end.

Definition deliver (ks : list Control) (w : World) : World :=
  fold_left (fun w k => on_control k w) ks w.

(** ** Results and the worker's monad *)

Inductive Exn :=
| KeyError | ValueError | ZeroDivisionError | TypeError | OverflowError
| statistics_StatisticsError.

Inductive Result (A : Type) :=
| Done (a : A) (w : World)
| Raised (e : Exn) (w : World)
| OutOfFuel.
Arguments Done {A} a w.
Arguments Raised {A} e w.
Arguments OutOfFuel {A}.

Definition M (A : Type) : Type := World -> Result A.

Definition ret {A} (a : A) : M A := fun w => Done a w.

Definition bind {A B} (m : M A) (k : A -> M B) : M B :=
  fun w =>
    match m w with
    | Done a w' => k a w'
    | Raised e w' => Raised e w'
    | OutOfFuel => OutOfFuel
    end.

Definition raise {A} (e : Exn) : M A := fun w => Raised e w.
Definition get {A} (f : World -> A) : M A := fun w => Done (f w) w.
Definition modify (f : World -> World) : M unit := fun w => Done tt (f w).

Notation "'do' x <- m ;; k" := (bind m (fun x => k))
  (at level 10, x name, m at level 99, k at level 200).

(** [time.sleep(s)]: a negative argument raises [ValueError]; otherwise the
    clock advances by [s] and the controller actions scripted for this slice
    take effect. *)
Definition time_sleep (s : Q) : M unit :=
  fun w =>
    if Qlt_le_dec s 0 then Raised ValueError w
    else
      let w1 := record (Slept s (pause_event w) (stop_event w)) w in
      let w2 := set_clock (now w + s)%Q (tl (script w)) w1 in
      Done tt (deliver (hd [] (script w)) w2).

(** [pyautogui.click(x, y)]. *)
Definition pyautogui_click (x y : Z) : M unit :=
  fun w => Done tt (record (Clicked x y (stop_event w)) w).

(** [random.random()], a draw in [0, 1); an exhausted supply yields 1/2. *)
Definition random_random : M Q :=
  fun w =>
    match rng w with
    | [] => Done (1 # 2)%Q w
    | u :: r => Done u (set_rng r w)
    end.

(** [random.uniform(a, b)] is [a + (b - a) * random()]. *)
Definition random_uniform (a b : Q) : M Q :=
  do u <- random_random ;; ret (a + (b - a) * u)%Q.

(** [random.randint(a, b)], a draw scaled to the [b - a + 1] integers. *)
Definition random_randint (a b : Z) : M Z :=
  do u <- random_random ;; ret (a + Qfloor (inject_Z (b - a + 1) * u)).

(** ** The core runtime *)

(** [jittered(base, jitter)]. *)
Definition jittered (base jitter : Q) : M Q :=
  if Qle_bool jitter 0 then ret (Qmax 0 base)
  else do u <- random_uniform (- jitter) jitter ;; ret (Qmax 0 (base + u))%Q.

(** [random_offset(px)]. *)
Definition random_offset (px : Z) : M (Z * Z) :=
  if px <=? 0 then ret (0, 0)
  else do dx <- random_randint (- px) px ;;
       do dy <- random_randint (- px) px ;;
       ret (dx, dy).

(** The [while] of [wait_if_paused]. *)
Fixpoint wait_if_paused_loop (fuel : nat) (step : Q) : M unit :=
  fun w =>
    match fuel with
    | O => OutOfFuel
    | S fuel' =>
        if pause_event w && negb (stop_event w)
        then (do _ <- time_sleep step ;; wait_if_paused_loop fuel' step) w
        else Done tt w
    end.

(** [wait_if_paused(step)]: blocks while paused, returns the time spent. *)
Definition wait_if_paused (fuel : nat) (step : Q) : M Q :=
  do pause_start <- get now ;;
  do _ <- wait_if_paused_loop fuel step ;;
  do t <- get now ;;
  ret (t - pause_start)%Q.

Definition default_wait_step : Q := 1 # 10.
Definition default_sleep_step : Q := 5 # 100.

(** [session_pause_time += pause_duration], under [runtime_lock]. *)
Definition add_session_pause_time (pause_duration : Q) : M unit :=
  modify (fun w => set_times (session_pause_time w + pause_duration)%Q
                             (session_active_time w) w).

(** The [while time.monotonic() < end] of [sleep_interruptible], with its
    two loop variables. *)
Fixpoint sleep_interruptible_loop (fuel : nat) (step end_ total_pause : Q)
  : M Q :=
  fun w =>
    match fuel with
    | O => OutOfFuel
    | S fuel' =>
        if Qlt_le_dec (now w) end_ then
          if stop_event w then Done total_pause w
          else if pause_event w then
            (do pause_duration <- wait_if_paused fuel' (Qmax step (1 # 10)) ;;
             do _ <- add_session_pause_time pause_duration ;;
             sleep_interruptible_loop fuel' step
               (end_ + pause_duration)%Q (total_pause + pause_duration)%Q) w
          else
            (do _ <- time_sleep step ;;
             sleep_interruptible_loop fuel' step end_ total_pause) w
        else Done total_pause w
    end.

(** [sleep_interruptible(seconds, step)]: sleeps in slices, returns the
    pause time met during the sleep. *)
Definition sleep_interruptible (fuel : nat) (seconds step : Q) : M Q :=
  do t <- get now ;;
  sleep_interruptible_loop fuel step (t + seconds)%Q 0%Q.

(** [click_position]: the tail shared by both branches, the delay between
    positions. *)
Definition between_positions (fuel : nat) (timing : TimingConfig) : M unit :=
  do between <- jittered (between_positions_delay timing)
                         (between_positions_jitter timing) ;;
  do _ <- sleep_interruptible fuel between default_sleep_step ;;
  ret tt.

(** [click_position(center_x, center_y, grid, timing)]. *)
Definition click_position (fuel : nat) (center_x center_y : Z)
    (grid : GridConfig) (timing : TimingConfig) : M unit :=
  do stopped <- get stop_event ;;
  if stopped : bool then ret tt else
  do _ <- wait_if_paused fuel default_wait_step ;;
  do off <- random_offset (random_offset_px grid) ;;
  let x := center_x + fst off in
  let y := center_y + snd off in
  (* Click #1 *)
  do _ <- pyautogui_click x y ;;
  do stopped <- get stop_event ;;
  if stopped : bool then ret tt else
  (* Click #2 (optional) *)
  if always_second_click timing then
    do interval <- jittered (click_delay timing) (click_delay_jitter timing) ;;
    do _ <- sleep_interruptible fuel interval default_sleep_step ;;
    do stopped <- get stop_event ;;
    if stopped : bool then ret tt else
    do _ <- wait_if_paused fuel default_wait_step ;;
    do _ <- pyautogui_click x y ;;
    between_positions fuel timing
  else between_positions fuel timing.

(** Python's [a % b] on integers: the sign of the divisor, and
    [ZeroDivisionError] (here [None]) for a zero divisor. *)
Definition py_mod (a b : Z) : option Z :=
  if b =? 0 then None else Some (a mod b).

(** [should_count_cycle(position_click_count, counter_cfg)]; [None] stands
    for a [ZeroDivisionError] out of the modulo. *)
Definition should_count_cycle (position_click_count : Z)
    (counter_cfg : CounterConfig) : option bool :=
  let n := Z.max 1 (clicks_per_cycle counter_cfg) in
  match py_mod (position_click_count - 1) n with
  | Some m => Some (m =? 0)
  | None => None
  end.

(** [limit is not None and value >= limit], on counts and on minutes. *)
Definition reached_count (limit : option Z) (value : Z) : bool :=
  match limit with Some l => l <=? value | None => false end.

Definition reached_minutes (limit : option Q) (value : Q) : bool :=
  match limit with Some l => Qle_bool l value | None => false end.

(** [maybe_pause_or_stop(counter_cfg, base_cycles_done)]: the automatic
    pause/stop rules.  It cannot fail, so it is a function on worlds. *)
Definition maybe_pause_or_stop (counter_cfg : CounterConfig)
    (base_cycles_done : Z) (w : World) : World :=
  match run_start_time w with
  | None => w
  | Some t0 =>
      let elapsed_minutes := ((now w - t0) / 60)%Q in
      let total_cycles_done := base_cycles_done + session_cycles_added w in
      (* STOP by target cycles *)
      if reached_count (target_cycles counter_cfg) total_cycles_done
      then set_stop w
      (* STOP by time *)
      else if reached_minutes (stop_after_minutes counter_cfg) elapsed_minutes
      then set_stop w
      (* PAUSE by cycles *)
      else if reached_count (pause_at_cycles counter_cfg) total_cycles_done
      then (if pause_event w then w else set_pause w)
      (* PAUSE by time *)
      else if reached_minutes (pause_after_minutes counter_cfg) elapsed_minutes
      then (if pause_event w then w else set_pause w)
      else w
  end.

(** ** The cooldown table and the sweep *)

(** [range(n)]. *)
Definition py_range (n : Z) : list Z := map Z.of_nat (seq 0 (Z.to_nat n)).

(** [(r, c) for r in range(rows) for c in range(cols)], row-major. *)
Definition positions (rows cols : Z) : list (Z * Z) :=
  flat_map (fun r => map (fun c => (r, c)) (py_range cols)) (py_range rows).

(** [{(r, c): v for r in range(rows) for c in range(cols)}]. *)
Definition table {V} (rows cols : Z) (v : V) : gmap (Z * Z) V :=
  list_to_map (map (fun p => (p, v)) (positions rows cols)).

(** [wait = ready_at[(r, c)] - now]; a missing key is a [KeyError]. *)
Definition cooldown_wait (ready_at : gmap (Z * Z) Q) (p : Z * Z) (t : Q)
  : option Q :=
  match ready_at !! p with
  | Some ready => Some (ready - t)%Q
  | None => None
  end.

(** The position is visited without waiting unless [wait > 0]. *)
Definition is_ready (ready_at : gmap (Z * Z) Q) (p : Z * Z) (t : Q)
  : option bool :=
  match cooldown_wait ready_at p t with
  | Some wait => Some (if Qlt_le_dec 0 wait then false else true)
  | None => None
  end.

(** [ready_at[(r, c)] = t + cooldown]. *)
Definition mark_visited (ready_at : gmap (Z * Z) Q) (p : Z * Z)
    (t cooldown : Q) : gmap (Z * Z) Q :=
  <[p := (t + cooldown)%Q]> ready_at.

(** [per_position_clicks[p] += 1], then its value. *)
Definition count_position_click (p : Z * Z) : M Z :=
  fun w =>
    match per_position_clicks w !! p with
    | Some n =>
        Done (n + 1)
             (set_per_position_clicks (<[p := n + 1]> (per_position_clicks w)) w)
    | None => Raised KeyError w
    end.

Inductive LoopExit := Continue | Break.

Section Sweep.
Variable fuel : nat.
Variable state : AppState.

Let grid_ := grid state.
Let timing_ := timing state.
Let counter_cfg := counters state.
Let base_cycles_done := start_cycles_done (counters state).
Let origin_x_ := origin_x (grid state) + offset_dx (grid state).
Let origin_y_ := origin_y (grid state) + offset_dy (grid state).

(** The wait of the inner [for] until the position is ready: whether the
    stop event is set after it. *)
Definition wait_until_ready (p : Z * Z) (ready_at : gmap (Z * Z) Q) : M bool :=
  do t <- get now ;;
  match cooldown_wait ready_at p t with
  | None => raise KeyError
  | Some wait =>
      if Qlt_le_dec 0 wait
      then do _ <- sleep_interruptible fuel wait default_sleep_step ;;
           get stop_event
      else ret false
  end.

(** The rest of the body of the inner [for]: the click on the position
    [(r, c)], the counters, the automatic rules and the new cooldown. *)
Definition click_and_count (r c : Z) (ready_at : gmap (Z * Z) Q)
  : M (LoopExit * gmap (Z * Z) Q) :=
  (* Compute position center *)
  let x := origin_x_ + c * step_x grid_ in
  let y := origin_y_ + r * step_y grid_ in
  (* Click position *)
  do _ <- click_position fuel x y grid_ timing_ ;;
  (* Count click *)
  do _ <- modify (fun w => set_counters (session_clicks w + 1)
                                        (session_cycles_added w) w) ;;
  (* Update per position click count *)
  do pos_clicks <- count_position_click (r, c) ;;
  (* Cycle count rule *)
  match should_count_cycle pos_clicks counter_cfg with
  | None => raise ZeroDivisionError
  | Some counts =>
      do _ <- (if counts : bool
               then modify (fun w => set_counters (session_clicks w)
                               (session_cycles_added w + 1) w)
               else ret tt) ;;
      (* Apply auto pause/stop rules *)
      do _ <- modify (maybe_pause_or_stop counter_cfg base_cycles_done) ;;
      do stopped <- get stop_event ;;
      if stopped : bool then ret (Break, ready_at) else
      (* Position ready again after cooldown *)
      do t' <- get now ;;
      ret (Continue,
           mark_visited ready_at (r, c) t' (cooldown_seconds timing_))
  end.

(** The body of the inner [for], for the position [(r, c)]. *)
Definition visit_position (r c : Z) (ready_at : gmap (Z * Z) Q)
  : M (LoopExit * gmap (Z * Z) Q) :=
  do stopped <- get stop_event ;;
  if stopped : bool then ret (Break, ready_at) else
  do _ <- wait_if_paused fuel default_wait_step ;;
  do _ <- modify (set_current_position (Some (r, c))) ;;
  (* Wait until this position is ready *)
  do stopped <- wait_until_ready (r, c) ready_at ;;
  if stopped : bool then ret (Break, ready_at) else
  click_and_count r c ready_at.

(** [for c in range(cols)]. *)
Fixpoint for_cols (r : Z) (cs : list Z) (ready_at : gmap (Z * Z) Q)
  : M (gmap (Z * Z) Q) :=
  match cs with
  | [] => ret ready_at
  | c :: cs' =>
      do res <- visit_position r c ready_at ;;
      match res with
      | (Break, ready_at') => ret ready_at'
      | (Continue, ready_at') => for_cols r cs' ready_at'
      end
  end.

(** [for r in range(rows)], with the [if stop_event.is_set(): break] that
    follows the inner loop. *)
Fixpoint for_rows (cols_ : Z) (rs : list Z) (ready_at : gmap (Z * Z) Q)
  : M (gmap (Z * Z) Q) :=
  match rs with
  | [] => ret ready_at
  | r :: rs' =>
      do ready_at' <- for_cols r (py_range cols_) ready_at ;;
      do stopped <- get stop_event ;;
      if stopped : bool then ret ready_at'
      else for_rows cols_ rs' ready_at'
  end.

(** [session_active_time = now - run_start_time - session_pause_time]. *)
Definition update_active_time : M unit :=
  fun w =>
    match run_start_time w with
    | Some t0 =>
        Done tt (set_times (session_pause_time w)
                           (now w - t0 - session_pause_time w)%Q w)
    | None => Raised TypeError w
    end.
End Sweep.

(** ** The statistics of [print_stats] *)

(** [l[i:]] for any integer [i]: a negative index counts from the end, and
    the start is clipped to the list. *)
Definition py_slice_from {A} (i : Z) (l : list A) : list A :=
  let len := Z.of_nat (length l) in
  let start := if i <? 0 then Z.max (i + len) 0 else Z.min i len in
  skipn (Z.to_nat start) l.

Definition Qsum (l : list Q) : Q := fold_right Qplus 0%Q l.

(** What [print_stats] computes before it logs: nothing when there is no
    cycle yet; otherwise the mean, minimum and maximum of the window
    [cycle_times[-stats_window:]] and whether the mean exceeds the cooldown;
    [statistics.mean] raises [StatisticsError] on an empty window. *)
Inductive Stats :=
| NoCycleYet
| CycleStats (window : list Q) (avg mn mx : Q) (slow : bool)
| StatisticsError.

Definition print_stats (stats_window : Z) (cooldown : Q) (times : list Q)
  : Stats :=
  match times with
  | [] => NoCycleYet
  | _ :: _ =>
      match py_slice_from (- stats_window) times with
      | [] => StatisticsError
      | x :: xs =>
          let window := x :: xs in
          let avg := (Qsum window / inject_Z (Z.of_nat (length window)))%Q in
          CycleStats window avg (fold_right Qmin x xs) (fold_right Qmax x xs)
                     (if Qlt_le_dec cooldown avg then true else false)
      end
  end.

(** The call [print_stats(counter_cfg, timing, base_cycles_done)] in the
    worker: it reads the global [cycle_times], and what it logs is left out. *)
Definition call_print_stats (counter_cfg : CounterConfig) (timing : TimingConfig)
  : M unit :=
  fun w =>
    match print_stats (stats_window counter_cfg) (cooldown_seconds timing)
                      (cycle_times w) with
    | StatisticsError => Raised statistics_StatisticsError w
    | _ => Done tt w
    end.

(** The [while not stop_event.is_set()] of [run_cycles].  The cycle number
    only feeds the log. *)
Fixpoint cycles_loop (fuel : nat) (state : AppState) (rows_ cols_ : Z)
    (ready_at : gmap (Z * Z) Q) : M unit :=
  fun w =>
    match fuel with
    | O => OutOfFuel
    | S fuel' =>
        if stop_event w then Done tt w
        else
          (do _ <- wait_if_paused fuel' default_wait_step ;;
           do t0 <- get now ;;
           let next_start := (t0 + cooldown_seconds (timing state))%Q in
           do ready_at' <-
             for_rows fuel' state cols_ (py_range rows_) ready_at ;;
           do t1 <- get now ;;
           let elapsed := (t1 - t0)%Q in
           do _ <- modify (fun w => set_cycle_times (cycle_times w ++ [elapsed]) w) ;;
           do _ <- update_active_time ;;
           do _ <- call_print_stats (counters state) (timing state) ;;
           do stopped <- get stop_event ;;
           if stopped : bool then ret tt else
           (* Global cycle deadline wait *)
           do t2 <- get now ;;
           let remaining := (next_start - t2)%Q in
           do _ <- (if Qlt_le_dec 0 remaining
                    then sleep_interruptible fuel' remaining default_sleep_step
                    else ret 0%Q) ;;
           cycles_loop fuel' state rows_ cols_ ready_at') w
    end.

(** [run_cycles(state)]: the main clicking loop. *)
Definition run_cycles (fuel : nat) (state : AppState) : M unit :=
  let rows_ := Z.max 1 (rows (grid state)) in
  let cols_ := Z.max 1 (cols (grid state)) in
  (* Per position readiness times *)
  let ready_at := table rows_ cols_ 0%Q in
  (* Per position click count *)
  do _ <- modify (set_per_position_clicks (table rows_ cols_ 0)) ;;
  do _ <- modify (set_cycle_times []) ;;
  do _ <- modify (fun w => set_times 0 0 (set_counters 0 0 w)) ;;
  do t <- get now ;;
  do _ <- modify (set_run_start_time (Some t)) ;;
  do _ <- cycles_loop fuel state rows_ cols_ ready_at ;;
  modify (set_current_position None).

(** ** Starting a run *)

(** The part of [App] that [start] looks at. *)
Record App := mkApp {
  state_obj : AppState;             (* after [_sync_state_from_ui] *)
  worker_alive : bool               (* worker_thread and worker_thread.is_alive() *)
}.

Inductive StartOutcome :=
| AlreadyRunning                    (* "Already running.", nothing else done *)
| StartCancelled (w : World)        (* the countdown overlay was cancelled *)
| WorkerStarted (w : World).        (* the worker thread runs [run_cycles] *)

(** [App.start]: refuses only while a worker is alive; otherwise resets both
    events and shows the countdown, whose outcome [cancelled] comes from the
    user (the three seconds it takes are left out). *)
Definition start (app : App) (cancelled : bool) (w : World) : StartOutcome :=
  if worker_alive app then AlreadyRunning
  else
    let w1 := set_flags false false w in
    if cancelled then StartCancelled (set_stop w1)
    else WorkerStarted w1.

(** [App._run_worker]: [run_cycles] under its [except Exception] handler,
    which sets the stop event. *)
Definition run_worker (fuel : nat) (app : App) (w : World) : option World :=
  match run_cycles fuel (state_obj app) w with
  | Done _ w' => Some w'
  | Raised _ w' => Some (set_stop w')
  | OutOfFuel => None
  end.

(** ** The first script, [autoclicker_grid.py]

    Its limits are module constants, its counters are globals of their own,
    its sleep returns nothing and its shovel rule applies [%] to the
    constant as it stands. *)
Module V1.

Record Limits := mkLimits {
  STOP_AFTER_HARVESTS : option Z;
  PAUSE_AFTER_HARVESTS : option Z;
  STOP_AFTER_MINUTES : option Q;
  PAUSE_AFTER_MINUTES : option Q;
  STOP_AFTER_SHOVELS : option Z;
  PAUSE_AFTER_SHOVELS : option Z;
  HARVESTS_PER_SHOVEL : Z
}.

Record Totals := mkTotals {
  total_harvests : Z;
  total_replants : Z;
  total_shovels : Z
}.

(** [wait_if_paused(step)], which returns nothing. *)
Definition wait_if_paused (fuel : nat) (step : Q) : M unit :=
  wait_if_paused_loop fuel step.

(** The [while] of [sleep_interruptible]. *)
Fixpoint sleep_interruptible_loop (fuel : nat) (step end_ : Q) : M unit :=
  fun w =>
    match fuel with
    | O => OutOfFuel
    | S fuel' =>
        if Qlt_le_dec (now w) end_ then
          if stop_event w then Done tt w
          else if pause_event w then
            (do t_pause <- get now ;;
             do _ <- wait_if_paused fuel' (Qmax step (1 # 10)) ;;
             do t <- get now ;;
             sleep_interruptible_loop fuel' step (end_ + (t - t_pause))%Q) w
          else
            (do _ <- time_sleep step ;;
             sleep_interruptible_loop fuel' step end_) w
        else Done tt w
    end.

(** [sleep_interruptible(seconds, step)]. *)
Definition sleep_interruptible (fuel : nat) (seconds step : Q) : M unit :=
  do t <- get now ;;
  sleep_interruptible_loop fuel step (t + seconds)%Q.

(** [maybe_pause_or_stop()]. *)
Definition maybe_pause_or_stop (lim : Limits) (tot : Totals) (w : World)
  : World :=
  match run_start_time w with
  | None => w
  | Some t0 =>
      let elapsed_minutes := ((now w - t0) / 60)%Q in
      (* ----- STOP ----- *)
      if reached_count (STOP_AFTER_HARVESTS lim) (total_harvests tot)
      then set_stop w
      else if reached_minutes (STOP_AFTER_MINUTES lim) elapsed_minutes
      then set_stop w
      else if reached_count (STOP_AFTER_SHOVELS lim) (total_shovels tot)
      then set_stop w
      (* ----- PAUSE ----- *)
      else if reached_count (PAUSE_AFTER_HARVESTS lim) (total_harvests tot)
      then (if pause_event w then w else set_pause w)
      else if reached_minutes (PAUSE_AFTER_MINUTES lim) elapsed_minutes
      then (if pause_event w then w else set_pause w)
      else if reached_count (PAUSE_AFTER_SHOVELS lim) (total_shovels tot)
      then (if pause_event w then w else set_pause w)
      else w
  end.

(** [(tile_h - 1) % HARVESTS_PER_SHOVEL == 0], inline in [run_cycles]. *)
Definition shovel_rule (lim : Limits) (tile_h : Z) : option bool :=
  match py_mod (tile_h - 1) (HARVESTS_PER_SHOVEL lim) with
  | Some m => Some (m =? 0)
  | None => None
  end.

End V1.

(** [should_consume_shovel] of [autoclicker_grid_V1.py] and
    [autoclicker_grid_UI.py] is [should_count_cycle] under its older name,
    with [harvests_per_shovel] for [clicks_per_cycle]. *)
Definition should_consume_shovel (tile_harvest_count harvests_per_shovel : Z)
  : option bool :=
  let n := Z.max 1 harvests_per_shovel in
  match py_mod (tile_harvest_count - 1) n with
  | Some m => Some (m =? 0)
  | None => None
  end.

(** ** Measures on the trace *)

(** Time slept while the pause event was set. *)
Fixpoint paused_time (tr : list Event) : Q :=
  match tr with
  | [] => 0
  | Slept d true _ :: tr' => d + paused_time tr'
  | _ :: tr' => paused_time tr'
  end.

(** Sleep slices begun while the stop event was already set. *)
Fixpoint late_slices (tr : list Event) : nat :=
  match tr with
  | [] => O
  | Slept _ _ true :: tr' => S (late_slices tr')
  | _ :: tr' => late_slices tr'
  end.

(** The clicks performed, oldest first, and those made with stop set. *)
Fixpoint clicks (tr : list Event) : list (Z * Z) :=
  match tr with
  | [] => []
  | Clicked x y _ :: tr' => clicks tr' ++ [(x, y)]
  | _ :: tr' => clicks tr'
  end.

Fixpoint late_clicks (tr : list Event) : nat :=
  match tr with
  | [] => O
  | Clicked _ _ true :: tr' => S (late_clicks tr')
  | _ :: tr' => late_clicks tr'
  end.

(** A fresh world at time [t0] with the given script and random supply. *)
Definition fresh_world (t0 : Q) (sc : list (list Control)) (r : list Q) : World :=
  mkWorld t0 false false sc r [] 0 0 0%Q 0%Q ∅ None None [].

(** ** Auxiliary definitions and the inputs of the scenarios *)

(** Counter configurations without limits: the default of three clicks per
    cycle, one click per cycle, and a click ratio below 1. *)
Definition three_clicks : CounterConfig :=
  mkCounterConfig 0 None None None None 3 20.

Definition every_click : CounterConfig :=
  mkCounterConfig 0 None None None None 1 20.

Definition no_clicks_per_cycle : CounterConfig :=
  mkCounterConfig 0 None None None None (-2) 20.

(** The configuration with [clicks_per_cycle] replaced. *)
Definition with_clicks_per_cycle (n : Z) (cfg : CounterConfig) : CounterConfig :=
  mkCounterConfig (start_cycles_done cfg) (target_cycles cfg)
    (pause_at_cycles cfg) (stop_after_minutes cfg) (pause_after_minutes cfg) n
    (stats_window cfg).

(** A stop rule of [maybe_pause_or_stop] is met. *)
Definition stop_rule_met (cfg : CounterConfig) (base : Z) (w : World) (t0 : Q)
  : bool :=
  reached_count (target_cycles cfg) (base + session_cycles_added w)
  || reached_minutes (stop_after_minutes cfg) ((now w - t0) / 60)%Q.

(** A pause of 0.2 s inside a sleep of 0.2 s: F8 during the first slice, F8
    again during the second paused slice. *)
Definition paused_sleep_world : World :=
  fresh_world 0 [[KeyF8]; []; [KeyF8]] [].

Definition paused_sleep_result : Q * World :=
  Eval vm_compute in
    match sleep_interruptible 30 (2 # 10) (5 # 100) paused_sleep_world with
    | Done r w => (r, w)
    | _ => (0%Q, paused_sleep_world)
    end.

Definition first_script_sleep_result : World :=
  Eval vm_compute in
    match V1.sleep_interruptible 30 (2 # 10) (5 # 100) paused_sleep_world with
    | Done _ w => w
    | _ => paused_sleep_world
    end.

(** A world in which stop was requested, and a sleep interrupted by ESC
    during its second slice. *)
Definition stopped_world : World := set_stop (fresh_world 0 [] []).

Definition esc_world : World := fresh_world 0 [[]; [KeyEsc]] [].

Definition esc_result : Q * World :=
  Eval vm_compute in
    match sleep_interruptible_loop 30 (5 # 100) 5 0 esc_world with
    | Done r w => (r, w)
    | _ => (0%Q, esc_world)
    end.

(** Both a stop rule and a pause rule are met; the run is not paused. *)
Definition target_and_pause : CounterConfig :=
  mkCounterConfig 0 (Some 2) (Some 1) None None 3 20.

Definition two_cycles_world : World :=
  set_run_start_time (Some 0%Q) (set_counters 4 2 (fresh_world 30 [] [])).

(** Only [stop_after_minutes] is set, to 0.01 min; a world one second into
    its run. *)
Definition minutes_only : CounterConfig :=
  mkCounterConfig 0 None None (Some (1 # 100)) None 3 20.

Definition one_second_in : World :=
  set_run_start_time (Some 0%Q) (fresh_world 1 [] []).

(** A 1 x 1 grid, one click per visit and 0.2 s between positions, with the
    minutes limit at 0.01 min = 0.6 s and no other limit. *)
Definition one_tile : GridConfig := mkGridConfig 100 200 10 10 1 1 0 0 0.

Definition single_click : TimingConfig :=
  mkTimingConfig 8 false (16 # 100) (20 # 100) 0 0.

Definition minutes_run : AppState :=
  mkAppState one_tile single_click minutes_only.

(** The user pauses during the first slice of the delay and resumes a second
    later; nobody asks for a stop. *)
Definition pause_one_second : list (list Control) :=
  [[KeyF8]; []; []; []; []; []; []; []; []; []; [KeyF8]].

(** A 1 x 2 grid.  The user presses F8 during the last slice of the delay
    that follows the first click, and ESC during the pause. *)
Definition two_tiles : GridConfig := mkGridConfig 100 200 10 10 1 2 0 0 0.

Definition two_tiles_run : AppState :=
  mkAppState two_tiles single_click three_clicks.

Definition pause_then_esc : list (list Control) :=
  [[]; []; []; [KeyF8]; [KeyEsc]].

(** A 1 x 1 grid with a cooldown of 0.5 s.  In the second cycle the user
    presses F8 during the last slice of the cooldown wait and ESC during the
    pause that [click_position] then waits out. *)
Definition half_second_cooldown : TimingConfig :=
  mkTimingConfig (5 # 10) false (16 # 100) (20 # 100) 0 0.

Definition one_tile_run : AppState :=
  mkAppState one_tile half_second_cooldown three_clicks.

Definition pause_at_end_of_cooldown : list (list Control) :=
  [[]; []; []; []; []; []; []; []; []; []; []; []; []; [KeyF8]; [KeyEsc]].

(** The state with the grid dimensions replaced by [max(1, .)]. *)
Definition clamp_grid (st : AppState) : AppState :=
  let g := grid st in
  mkAppState
    (mkGridConfig (origin_x g) (origin_y g) (step_x g) (step_y g)
       (Z.max 1 (rows g)) (Z.max 1 (cols g))
       (offset_dx g) (offset_dy g) (random_offset_px g))
    (timing st) (counters st).

(** No rows, a negative number of columns, a negative cooldown and a
    negative click delay. *)
Definition no_grid : GridConfig := mkGridConfig 100 200 10 10 0 (-3) 0 0 0.

Definition negative_timing : TimingConfig :=
  mkTimingConfig (-8) true (- (16 # 100)) (20 # 100) 0 0.

Definition degenerate_app : App :=
  mkApp (mkAppState no_grid negative_timing three_clicks) false.

(** ** Further measures and inputs *)

(** How many of the first [k] clicks on one position count as a cycle. *)
Fixpoint cycles_counted (cfg : CounterConfig) (k : nat) : Z :=
  match k with
  | O => 0
  | S k' =>
      cycles_counted cfg k'
      + match should_count_cycle (Z.of_nat (S k')) cfg with
        | Some true => 1
        | _ => 0
        end
  end.

(** A pause rule of [maybe_pause_or_stop] is met. *)
Definition pause_rule_met (cfg : CounterConfig) (base : Z) (w : World) (t0 : Q)
  : bool :=
  reached_count (pause_at_cycles cfg) (base + session_cycles_added w)
  || reached_minutes (pause_after_minutes cfg) ((now w - t0) / 60)%Q.

(** A pause limit of one cycle and nothing else; a started world with one
    cycle done. *)
Definition pause_at_one : CounterConfig :=
  mkCounterConfig 0 None (Some 1) None None 3 20.

Definition one_cycle_world : World :=
  set_run_start_time (Some 0%Q) (set_counters 1 1 (fresh_world 2 [] [])).

(** A result that is not an exception and, when it is a value, satisfies
    [P]: what a caller that has fuel enough can rely on. *)
Definition ensures {A} (r : Result A) (P : A -> World -> Prop) : Prop :=
  match r with
  | Done a w' => P a w'
  | Raised _ _ => False
  | OutOfFuel => True
  end.

(** The same for code that may raise: a value satisfies [P], an exception
    satisfies [E]. *)
Definition outcome {A} (r : Result A) (P : A -> World -> Prop)
    (E : Exn -> Prop) : Prop :=
  match r with
  | Done a w' => P a w'
  | Raised e _ => E e
  | OutOfFuel => True
  end.

(** What sleeping and drawing random numbers may do to a world: the clock
    does not go back, a set stop event stays set, draws are only consumed,
    and neither the clicks made nor the counters of the run nor the recorded
    cycle times are touched. *)
Record Idles (w w' : World) : Prop := mkIdles {
  idles_now : (now w <= now w')%Q;
  idles_stop : Bool.le (stop_event w) (stop_event w');
  idles_clicks : clicks (trace w') = clicks (trace w);
  idles_rng : exists used, rng w = used ++ rng w';
  idles_session_clicks : session_clicks w' = session_clicks w;
  idles_cycles : session_cycles_added w' = session_cycles_added w;
  idles_positions : per_position_clicks w' = per_position_clicks w;
  idles_start : run_start_time w' = run_start_time w;
  idles_times : cycle_times w' = cycle_times w
}.

(** The same for code that also clicks. *)
Record Advances (w w' : World) : Prop := mkAdvances {
  adv_now : (now w <= now w')%Q;
  adv_stop : Bool.le (stop_event w) (stop_event w');
  adv_session_clicks : session_clicks w' = session_clicks w;
  adv_cycles : session_cycles_added w' = session_cycles_added w;
  adv_positions : per_position_clicks w' = per_position_clicks w;
  adv_start : run_start_time w' = run_start_time w;
  adv_times : cycle_times w' = cycle_times w
}.

(** A draw of [random.random()] lies in [0, 1). *)
Definition unit_draw (u : Q) : Prop := (0 <= u /\ u < 1)%Q.

(** The table has an entry for each position of a grid of the given size. *)
Definition covers {V} (rows_ cols_ : Z) (m : gmap (Z * Z) V) : Prop :=
  forall r c, 0 <= r < rows_ -> 0 <= c < cols_ -> is_Some (m !! (r, c)).

(** The sum of [f] over the click counts of all positions. *)
Definition total_over (f : Z -> Z) (m : gmap (Z * Z) Z) : Z :=
  map_fold (fun _ v acc => f v + acc) 0 m.

(** [ceil(v / n)]: the cycles that [v] clicks on one position stand for. *)
Definition cycles_after (n v : Z) : Z := (v + n - 1) / n.

(** The session counters agree with the per-position click counts. *)
Definition counters_agree (cfg : CounterConfig) (w : World) : Prop :=
  session_clicks w = total_over (fun v => v) (per_position_clicks w)
  /\ session_cycles_added w
     = total_over (cycles_after (Z.max 1 (clicks_per_cycle cfg)))
                  (per_position_clicks w).

(** What the sweep keeps true between two visits. *)
Definition run_invariant (st : AppState) (rows_ cols_ : Z)
    (ready_at : gmap (Z * Z) Q) (w : World) : Prop :=
  covers rows_ cols_ ready_at
  /\ covers rows_ cols_ (per_position_clicks w)
  /\ counters_agree (counters st) w
  /\ is_Some (run_start_time w).

(** What one pass of the body of the inner loop guarantees, for the position
    [(r, c)] that was ready at [t] and had been clicked [n] times. *)
Definition visit_post (st : AppState) (r c : Z) (ready_at : gmap (Z * Z) Q)
    (t : Q) (n : Z) (w : World)
    (res : LoopExit * gmap (Z * Z) Q) (w' : World) : Prop :=
  (now w <= now w')%Q
  /\ Bool.le (stop_event w) (stop_event w')
  /\ run_start_time w' = run_start_time w
  /\ cycle_times w' = cycle_times w
  /\ (counters_agree (counters st) w -> counters_agree (counters st) w')
  /\ (forall p, is_Some (per_position_clicks w !! p) ->
                is_Some (per_position_clicks w' !! p))
  /\ match fst res with
     | Break => snd res = ready_at /\ stop_event w' = true
     | Continue =>
         stop_event w' = false
         /\ (t <= now w')%Q
         /\ snd res = mark_visited ready_at (r, c) (now w')
                        (cooldown_seconds (timing st))
         /\ session_clicks w' = session_clicks w + 1
         /\ per_position_clicks w'
            = <[(r, c) := n + 1]> (per_position_clicks w)
         /\ session_cycles_added w'
            = session_cycles_added w
              + (if n mod Z.max 1 (clicks_per_cycle (counters st)) =? 0
                 then 1 else 0)
     end.

(** What a sweep over some positions guarantees. *)
Definition sweep_post (st : AppState) (rows_ cols_ : Z) (w : World)
    (ready_at' : gmap (Z * Z) Q) (w' : World) : Prop :=
  run_invariant st rows_ cols_ ready_at' w'
  /\ (now w <= now w')%Q
  /\ Bool.le (stop_event w) (stop_event w')
  /\ run_start_time w' = run_start_time w
  /\ cycle_times w' = cycle_times w.

(** Inputs and outcomes of the scenarios that follow: a click with an offset
    of up to 2 px and two draws, one visit of the only tile of [one_tile_run],
    and the whole run of [two_tiles_run] under [pause_then_esc]. *)
Definition offset_grid : GridConfig := mkGridConfig 100 200 10 10 1 1 0 0 2.

Definition offset_world : World := fresh_world 0 [] [1 # 4; 3 # 4].

Definition offset_outcome : World :=
  Eval vm_compute in
    match click_position 30 100 200 offset_grid single_click offset_world with
    | Done _ w => w
    | _ => offset_world
    end.

Definition one_tile_world : World :=
  set_per_position_clicks (table 1 1 0) (fresh_world 1 [] []).

Definition one_tile_outcome : gmap (Z * Z) Q * World :=
  Eval vm_compute in
    match visit_position 30 one_tile_run 0 0 (table 1 1 0%Q) one_tile_world with
    | Done (_, ra) w => (ra, w)
    | _ => (∅, one_tile_world)
    end.

Definition two_tiles_outcome : World :=
  Eval vm_compute in
    match run_cycles 50 two_tiles_run (fresh_world 0 pause_then_esc []) with
    | Done _ w => w
    | _ => fresh_world 0 [] []
    end.

(** The first visit of [minutes_run], begun as the run starts: it ends
    0.2 s later, short of the limit of 0.6 s. *)
Definition minutes_visit_world : World :=
  set_run_start_time (Some 1%Q) one_tile_world.

Definition minutes_visit_outcome : gmap (Z * Z) Q * World :=
  Eval vm_compute in
    match visit_position 30 minutes_run 0 0 (table 1 1 0%Q)
            minutes_visit_world with
    | Done (_, ra) w => (ra, w)
    | _ => (∅, minutes_visit_world)
    end.

(** The wait of a visit of the only tile, not ready before 1.5 s, that
    begins at 1 s. *)
Definition cooldown_wait_outcome : Q * World :=
  Eval vm_compute in
    match sleep_interruptible 31 (1 + (5 # 10) - now one_tile_world)
            default_sleep_step
            (set_current_position (Some (0, 0)) one_tile_world) with
    | Done pd w => (pd, w)
    | _ => (0%Q, one_tile_world)
    end.

(** A run of [one_tile] with a [stats_window] of -1, and where it ends. *)
Definition negative_window : CounterConfig :=
  mkCounterConfig 0 None None None None 3 (-1).

Definition negative_window_run : AppState :=
  mkAppState one_tile single_click negative_window.

Definition negative_window_outcome : World :=
  Eval vm_compute in
    match run_cycles 50 negative_window_run (fresh_world 0 [] []) with
    | Raised _ w => w
    | _ => fresh_world 0 [] []
    end.

(** A paused world in which F8 is pressed again during the second slice, and
    what [wait_if_paused] makes of it. *)
Definition paused_world : World :=
  set_pause (fresh_world 0 [[]; [KeyF8]] []).

Definition paused_outcome : Q * World :=
  Eval vm_compute in
    match wait_if_paused 10 (1 # 10) paused_world with
    | Done pd w => (pd, w)
    | _ => (0%Q, paused_world)
    end.

(** A world with one draw, and the delay [jittered(0.2, 0.15)] gets there. *)
Definition jitter_world : World := fresh_world 0 [] [9 # 10].

Definition jitter_outcome : Q * World :=
  Eval vm_compute in
    match jittered (20 # 100) (15 # 100) jitter_world with
    | Done q w => (q, w)
    | _ => (0%Q, jitter_world)
    end.

(** ** Python floats in the dashboard

    The dashboard divides integers and multiplies the quotient by 100, in
    binary64.  Where the result decides what is shown, the rounding is
    embedded: [round_binary64] is rounding to nearest, ties to even, with 53
    significant bits and the subnormal numbers below [2^-1022]; results
    beyond [float_max] overflow. *)

Definition pow2 (e : Z) : Q := (2 ^ e)%Q.

(** [floor(log2(x))] for a positive [x]. *)
Definition Qlog2 (x : Q) : Z :=
  let k := Z.log2 (Qnum x) - Z.log2 (Z.pos (Qden x)) in
  if Qle_bool (pow2 k) x then k else k - 1.

(** The nearest integer, the even one of two that are equally near. *)
Definition round_half_even (y : Q) : Z :=
  let f := Qfloor y in
  match (y - inject_Z f ?= 1 # 2)%Q with
  | Lt => f
  | Gt => f + 1
  | Eq => if Z.even f then f else f + 1
  end.

(** The nearest binary64 number to a positive rational, the exponent not
    bounded above. *)
Definition round_binary64_pos (x : Q) : Q :=
  let ulp := pow2 (Z.max (Qlog2 x) (-1022) - 52) in
  (inject_Z (round_half_even (x / ulp)) * ulp)%Q.

Definition round_binary64 (x : Q) : Q :=
  match (x ?= 0)%Q with
  | Eq => 0%Q
  | Gt => round_binary64_pos x
  | Lt => (- round_binary64_pos (- x))%Q
  end.

(** [sys.float_info.max]. *)
Definition float_max : Q := (pow2 1024 - pow2 971)%Q.

Definition in_float_range (q : Q) : bool :=
  Qle_bool (- float_max) q && Qle_bool q float_max.

(** A float that may be infinite. *)
Inductive PyFloat := Finite (q : Q) | Infinity (negative : bool).

(** [a / b] on integers: the quotient correctly rounded, [OverflowError]
    when that is beyond the floats. *)
Definition int_truediv (a b : Z) : Exn + Q :=
  if b =? 0 then inl ZeroDivisionError
  else
    let q := round_binary64 (inject_Z a / inject_Z b) in
    if in_float_range q then inr q else inl OverflowError.

(** [x * y] on floats: an overflow gives an infinity. *)
Definition float_mul (x y : Q) : PyFloat :=
  let q := round_binary64 (x * y) in
  if in_float_range q then Finite q else Infinity (negb (Qle_bool 0 q)).

(** [min(100, x)]: [x] when [x < 100], else 100. *)
Definition py_min_100 (x : PyFloat) : PyFloat :=
  match x with
  | Finite q => if Qlt_le_dec q 100 then Finite q else Finite 100
  | Infinity true => Infinity true
  | Infinity false => Finite 100
  end.

Definition at_most_100 (pct : PyFloat) : Prop :=
  match pct with
  | Finite q => (q <= 100)%Q
  | Infinity negative => negative = true
  end.

Definition below_100 (pct : PyFloat) : Prop :=
  match pct with
  | Finite q => (q < 100)%Q
  | Infinity negative => negative = true
  end.

(** ** The dashboard *)

(** [int(x)] on a float: truncation towards zero. *)
Definition py_int (x : Q) : Z := Z.quot (Qnum x) (Z.pos (Qden x)).

(** [str(n)] on an integer, and the format [{n:02d}]: sign-aware zero
    padding to a width of two. *)
Definition py_str (n : Z) : String.string :=
  DecimalString.NilZero.string_of_int (Z.to_int n).

Definition format_02d (n : Z) : String.string :=
  let s := py_str n in
  if (String.length s <? 2)%nat then String.append "0"%string s else s.

(** The fields of [fmt_time]: [divmod(int(seconds), 3600)], then
    [divmod(r, 60)]. *)
Definition hms (seconds : Q) : Z * Z * Z :=
  let h := py_int seconds / 3600 in
  let r := py_int seconds mod 3600 in
  (h, r / 60, r mod 60).

(** [fmt_time(seconds)] of [_update_dashboard]; [update_progress] formats
    its timer the same way. *)
Definition fmt_time (seconds : Q) : String.string :=
  let '(h, m, s) := hms seconds in
  String.append (format_02d h)
    (String.append ":"%string (String.append (format_02d m)
       (String.append ":"%string (format_02d s)))).

(** The progress of [_update_dashboard] and of [update_progress], shown
    [if target and target > 0]: the percentage
    [min(100, (total_cycles / target) * 100)] and the cycles remaining,
    [max(0, target - total_cycles)]. *)
Definition dash_progress (target : option Z) (total_cycles : Z)
  : Exn + option (PyFloat * Z) :=
  match target with
  | Some t =>
      if negb (t =? 0) && (0 <? t)
      then match int_truediv total_cycles t with
           | inl e => inl e
           | inr q => inr (Some (py_min_100 (float_mul q 100),
                                 Z.max 0 (t - total_cycles)))
           end
      else inr None
  | None => inr None
  end.

(** What the "cycles to goal" field shows. *)
Inductive GoalText :=
| CyclesNeeded (n : Z)
| GoalReached                       (* "Goal reached!" *)
| NoGoal.                           (* "--" *)

(** The "cycles to goal" of [_update_dashboard], from [coin_goal],
    [cost_per_cycle], [reward_per_cycle] and the cycles of the session:
    [int(remaining_profit / net) + 1] when profit remains to be made. *)
Definition dash_goal_cycles (coin_goal : option Z) (cost reward cycles : Z)
  : Exn + GoalText :=
  let net := reward - cost in
  let total_profit := cycles * net in
  match coin_goal with
  | Some goal =>
      if negb (goal =? 0) && (0 <? net) then
        let remaining_profit := goal - total_profit in
        if 0 <? remaining_profit
        then match int_truediv remaining_profit net with
             | inl e => inl e
             | inr q => inr (CyclesNeeded (py_int q + 1))
             end
        else inr GoalReached
      else inr NoGoal
  | None => inr NoGoal
  end.

(** Three cycles of a target of four, as the dashboard shows them. *)
Definition three_of_four : PyFloat * Z :=
  Eval vm_compute in
    match dash_progress (Some 4) 3 with
    | inr (Some shown) => shown
    | _ => (Finite 0, 0)
    end.

(** ** Calibration *)

(** The three points a user can arm and capture with F9. *)
Inductive CalibPoint := P00 | P01 | P10.

(** [App._calib_points]. *)
Record CalibPoints := mkCalibPoints {
  p00 : option (Z * Z);
  p01 : option (Z * Z);
  p10 : option (Z * Z)
}.

(** The four entries of the grid tab that calibration writes.  They hold
    [str(n)]; the embedding keeps the integer [n]. *)
Record GridVars := mkGridVars {
  var_origin_x : Z;
  var_origin_y : Z;
  var_step_x : Z;
  var_step_y : Z
}.

Definition set_calib_point (point : CalibPoint) (xy : Z * Z) (pts : CalibPoints)
  : CalibPoints :=
  match point with
  | P00 => mkCalibPoints (Some xy) (p01 pts) (p10 pts)
  | P01 => mkCalibPoints (p00 pts) (Some xy) (p10 pts)
  | P10 => mkCalibPoints (p00 pts) (p01 pts) (Some xy)
  end.

(** [App.apply_calibration_point(point_name, x, y)]. *)
Definition apply_calibration_point (point : CalibPoint) (x y : Z)
    (pts : CalibPoints) (vars : GridVars) : CalibPoints * GridVars :=
  let pts' := set_calib_point point (x, y) pts in
  let vars1 :=
    match p00 pts' with
    | Some a => mkGridVars (fst a) (snd a) (var_step_x vars) (var_step_y vars)
    | None => vars
    end in
  let vars2 :=
    match p00 pts', p01 pts' with
    | Some a, Some b =>
        mkGridVars (var_origin_x vars1) (var_origin_y vars1)
                   (fst b - fst a) (var_step_y vars1)
    | _, _ => vars1
    end in
  let vars3 :=
    match p00 pts', p10 pts' with
    | Some a, Some b =>
        mkGridVars (var_origin_x vars2) (var_origin_y vars2)
                   (var_step_x vars2) (snd b - snd a)
    | _, _ => vars2
    end in
  (pts', vars3).

(** The F9 branch of [on_key_press], given the mouse position: ignored when
    no point is armed; otherwise the armed point is captured and disarmed. *)
Definition on_key_f9 (mouse : Z * Z) (calib_armed_point : option CalibPoint)
    (pts : CalibPoints) (vars : GridVars)
  : option CalibPoint * CalibPoints * GridVars :=
  match calib_armed_point with
  | None => (None, pts, vars)
  | Some point =>
      let '(pts', vars') :=
        apply_calibration_point point (fst mouse) (snd mouse) pts vars in
      (None, pts', vars')
  end.

(** Arming a point ([_arm_calibration]) and pressing F9, for each capture of
    a list in turn. *)
Fixpoint calibrate (captures : list (CalibPoint * (Z * Z)))
    (pts : CalibPoints) (vars : GridVars) : CalibPoints * GridVars :=
  match captures with
  | [] => (pts, vars)
  | (point, mouse) :: rest =>
      let '(_, pts', vars') := on_key_f9 mouse (Some point) pts vars in
      calibrate rest pts' vars'
  end.

(** [_read_int] on an entry that holds [str(n)]: [int(float(s))].  The
    float is the binary64 nearest to [n]; beyond the floats it is an
    infinity, on which [int] raises an [OverflowError] that [_read_int] does
    not catch. *)
Definition read_int_of_str (n : Z) : Exn + Z :=
  let x := round_binary64 (inject_Z n) in
  if in_float_range x then inr (py_int x) else inl OverflowError.

(** [_sync_state_from_ui] on the grid, for the four entries that calibration
    writes; [g] holds what was read from the other entries. *)
Definition sync_grid (vars : GridVars) (g : GridConfig) : Exn + GridConfig :=
  match read_int_of_str (var_origin_x vars) with
  | inl e => inl e
  | inr ox =>
      match read_int_of_str (var_origin_y vars) with
      | inl e => inl e
      | inr oy =>
          match read_int_of_str (var_step_x vars) with
          | inl e => inl e
          | inr sx =>
              match read_int_of_str (var_step_y vars) with
              | inl e => inl e
              | inr sy =>
                  inr (mkGridConfig ox oy sx sy (rows g) (cols g)
                         (offset_dx g) (offset_dy g) (random_offset_px g))
              end
          end
      end
  end.

(** The centre that [run_cycles] computes for the position [(r, c)]. *)
Definition centre (g : GridConfig) (r c : Z) : Z * Z :=
  (origin_x g + offset_dx g + c * step_x g,
   origin_y g + offset_dy g + r * step_y g).

(** Three captured points, by name. *)
Definition captured (point : CalibPoint) : Z * Z :=
  match point with
  | P00 => (854, 400)
  | P01 => (938, 402)
  | P10 => (851, 484)
  end.

Definition no_points : CalibPoints := mkCalibPoints None None None.

Definition grid_vars_0 : GridVars := mkGridVars 0 0 1 1.

(** A grid with offsets typed in. *)
Definition offsets_typed : GridConfig := mkGridConfig 0 0 1 1 5 4 3 (-2) 20.

(** A world that nobody disturbs, and three recorded cycle times. *)
Definition quiet_world : World := fresh_world 0 [] [].

Definition three_times : list Q := [8 # 1; 9 # 1; 10 # 1].

(** ** [click_tile] of the first script *)

Module Script.

(** The constants of [autoclicker_grid.py] that [click_tile] reads. *)
Record Constants := mkConstants {
  DOUBLE_CLICK : bool;
  CLICK_DELAY : Q;
  BETWEEN_TILES_DELAY : Q;
  CLICK_DELAY_JITTER : Q;
  BETWEEN_TILES_JITTER : Q;
  RANDOM_OFFSET_PX : Z
}.

(** The delay between tiles that ends [click_tile]. *)
Definition between_tiles (fuel : nat) (k : Constants) : M unit :=
  do between <- jittered (BETWEEN_TILES_DELAY k) (BETWEEN_TILES_JITTER k) ;;
  V1.sleep_interruptible fuel between default_sleep_step.

(** [click_tile(center_x, center_y)]: returns whether the second click, the
    replant, was made. *)
Definition click_tile (fuel : nat) (k : Constants) (center_x center_y : Z)
  : M bool :=
  do stopped <- get stop_event ;;
  if stopped : bool then ret false else
  do _ <- V1.wait_if_paused fuel default_wait_step ;;
  do off <- random_offset (RANDOM_OFFSET_PX k) ;;
  let x := center_x + fst off in
  let y := center_y + snd off in
  (* Clic 1 = HARVEST *)
  do _ <- pyautogui_click x y ;;
  do stopped <- get stop_event ;;
  if stopped : bool then ret false else
  (* Clic 2 = REPLANT *)
  if DOUBLE_CLICK k then
    do interval <- jittered (CLICK_DELAY k) (CLICK_DELAY_JITTER k) ;;
    do _ <- V1.sleep_interruptible fuel interval default_sleep_step ;;
    do stopped <- get stop_event ;;
    if stopped : bool then ret false else
    do _ <- V1.wait_if_paused fuel default_wait_step ;;
    do _ <- pyautogui_click x y ;;
    do _ <- between_tiles fuel k ;;
    ret true
  else
    do _ <- between_tiles fuel k ;;
    ret false.

End Script.

(** The constants as the script sets them, and a world with two draws. *)
Definition script_constants : Script.Constants :=
  Script.mkConstants true (16 # 100) (20 # 100) (6 # 100) (15 # 100) 20.

Definition tile_world : World := fresh_world 0 [] [1 # 2; 1 # 2; 1 # 2; 1 # 2].

Definition tile_outcome : bool * World :=
  Eval vm_compute in
    match Script.click_tile 30 script_constants 854 400 tile_world with
    | Done b w => (b, w)
    | _ => (false, tile_world)
    end.

(** ** The countdown before a run *)

(** [CountdownOverlay]: the seconds left and whether it was cancelled. *)
Record Countdown := mkCountdown {
  seconds_left : Z;
  cancelled : bool
}.

(** What one [_tick] does. *)
Inductive Tick :=
| TickNothing                          (* cancelled: returns *)
| TickComplete                         (* destroy(); on_complete() *)
| TickAgain (label : Z) (c : Countdown). (* shows the label, ticks again in 1 s *)

(** [CountdownOverlay._tick]. *)
Definition tick (c : Countdown) : Tick :=
  if cancelled c then TickNothing
  else if seconds_left c <=? 0 then TickComplete
  else TickAgain (seconds_left c) (mkCountdown (seconds_left c - 1) false).

(** [CountdownOverlay._cancel], on the state. *)
Definition cancel (c : Countdown) : Countdown :=
  mkCountdown (seconds_left c) true.

(** The ticks that follow one another, one second apart: the labels shown,
    and whether [on_complete] was called. *)
Fixpoint countdown (fuel : nat) (c : Countdown) : list Z * bool :=
  match fuel with
  | O => ([], false)
  | S fuel' =>
      match tick c with
      | TickNothing => ([], false)
      | TickComplete => ([], true)
      | TickAgain label c' =>
          let '(labels, done) := countdown fuel' c' in (label :: labels, done)
      end
  end.

(** The labels [n, n - 1, ..., 1]. *)
Fixpoint down_from (n : nat) : list Z :=
  match n with
  | O => []
  | S n' => Z.of_nat n :: down_from n'
  end.

(** * Properties *)

(** ** The cycle rule *)

Lemma py_mod_pos a n : 1 <= n -> py_mod a n = Some (a mod n).
Proof.
  intros Hn. unfold py_mod.
  destruct (Z.eqb_spec n 0) as [E | _]; [lia | reflexivity].
Qed.

Lemma should_count_cycle_eq c cfg :
  should_count_cycle c cfg =
  Some ((c - 1) mod Z.max 1 (clicks_per_cycle cfg) =? 0).
Proof.
  unfold should_count_cycle. cbv zeta.
  rewrite py_mod_pos by lia. reflexivity.
Qed.

Lemma pred_mod_zero c n : 2 <= n -> ((c - 1) mod n = 0 <-> c mod n = 1).
Proof.
  intros Hn. split; intros H.
  - symmetry. apply (Z.mod_unique_pos c n ((c - 1) / n) 1); [lia |].
    pose proof (Z.div_mod (c - 1) n ltac:(lia)) as E. rewrite H in E. lia.
  - symmetry. apply (Z.mod_unique_pos (c - 1) n (c / n) 0); [lia |].
    pose proof (Z.div_mod c n ltac:(lia)) as E. rewrite H in E. lia.
Qed.

(** C1, as amended.  With [N = clicks_per_cycle >= 1] and a click count
    [c >= 1], [should_count_cycle] answers, and it answers true exactly when
    [(c - 1) mod N = 0]: for [N >= 2] that is [c mod N = 1], for [N = 1] it
    is every click, and the first click always counts. *)
Theorem should_count_cycle_milestones (c : Z) (cfg : CounterConfig) :
  1 <= clicks_per_cycle cfg -> 1 <= c ->
  exists b : bool,
    should_count_cycle c cfg = Some b
    /\ (b = true <-> (c - 1) mod clicks_per_cycle cfg = 0)
    /\ (2 <= clicks_per_cycle cfg -> (b = true <-> c mod clicks_per_cycle cfg = 1))
    /\ (clicks_per_cycle cfg = 1 -> b = true)
    /\ (c = 1 -> b = true).
Proof.
  intros HN Hc. rewrite should_count_cycle_eq.
  replace (Z.max 1 (clicks_per_cycle cfg)) with (clicks_per_cycle cfg) by lia.
  eexists. split; [reflexivity |].
  rewrite Z.eqb_eq. repeat split.
  - tauto.
  - tauto.
  - apply pred_mod_zero; assumption.
  - apply pred_mod_zero; assumption.
  - intros E. rewrite E. apply Z.mod_1_r.
  - intros E. subst c. apply Z.mod_0_l. lia.
Qed.

Lemma should_count_cycle_milestones_witness :
  exists b : bool,
    should_count_cycle 4 three_clicks = Some b
    /\ (b = true <-> (4 - 1) mod clicks_per_cycle three_clicks = 0)
    /\ (2 <= clicks_per_cycle three_clicks ->
        (b = true <-> 4 mod clicks_per_cycle three_clicks = 1))
    /\ (clicks_per_cycle three_clicks = 1 -> b = true)
    /\ (4 = 1 -> b = true).
Proof.
  apply (should_count_cycle_milestones 4 three_clicks); simpl; lia.
Defined.

(** C1 as written fails at [N = 1]: with one click per cycle the second
    click on a position counts, though [2 mod 1] is 0 and not 1. *)
Lemma second_click_counts_when_every_click_does :
  1 <= clicks_per_cycle every_click
  /\ 1 <= 2
  /\ should_count_cycle 2 every_click = Some true
  /\ 2 mod clicks_per_cycle every_click = 0
  /\ 2 mod clicks_per_cycle every_click <> 1.
Proof. cbn. repeat split; lia || discriminate. Qed.

(** The older name computes the same rule. *)
Lemma should_consume_shovel_eq c cfg :
  should_consume_shovel c (clicks_per_cycle cfg) = should_count_cycle c cfg.
Proof. reflexivity. Qed.

(** The first script applies [%] to the constant itself: the same rule for
    a positive constant, a [ZeroDivisionError] for zero. *)
Lemma V1_shovel_rule_pos lim c :
  1 <= V1.HARVESTS_PER_SHOVEL lim ->
  V1.shovel_rule lim c = should_consume_shovel c (V1.HARVESTS_PER_SHOVEL lim).
Proof.
  intros H. unfold V1.shovel_rule, should_consume_shovel. cbv zeta.
  replace (Z.max 1 (V1.HARVESTS_PER_SHOVEL lim))
    with (V1.HARVESTS_PER_SHOVEL lim) by lia.
  reflexivity.
Qed.

(** C9.  Whatever [clicks_per_cycle] is, the modulo of [should_count_cycle]
    is taken by [max(1, clicks_per_cycle) >= 1] and yields a value, never a
    [ZeroDivisionError]; and when [clicks_per_cycle <= 0] the answer is the
    one for [clicks_per_cycle = 1], which is true for every count.  The same
    holds for [should_consume_shovel]. *)
Theorem should_count_cycle_clamped (c : Z) (cfg : CounterConfig) :
  (exists m : Z,
      1 <= Z.max 1 (clicks_per_cycle cfg)
      /\ py_mod (c - 1) (Z.max 1 (clicks_per_cycle cfg)) = Some m
      /\ should_count_cycle c cfg = Some (m =? 0)
      /\ should_consume_shovel c (clicks_per_cycle cfg) = Some (m =? 0))
  /\ (clicks_per_cycle cfg <= 0 ->
      should_count_cycle c cfg = should_count_cycle c (with_clicks_per_cycle 1 cfg)
      /\ should_count_cycle c cfg = Some true
      /\ should_consume_shovel c (clicks_per_cycle cfg) = Some true).
Proof.
  split.
  - exists ((c - 1) mod Z.max 1 (clicks_per_cycle cfg)).
    split; [lia |]. split; [apply py_mod_pos; lia |].
    split; [apply should_count_cycle_eq |].
    rewrite should_consume_shovel_eq. apply should_count_cycle_eq.
  - intros Hle.
    assert (E : should_count_cycle c cfg = Some true).
    { rewrite should_count_cycle_eq.
      replace (Z.max 1 (clicks_per_cycle cfg)) with 1 by lia.
      rewrite Z.mod_1_r. reflexivity. }
    split; [| split]; [| exact E | rewrite should_consume_shovel_eq; exact E].
    rewrite E, should_count_cycle_eq. simpl.
    rewrite Z.mod_1_r. reflexivity.
Qed.

Lemma should_count_cycle_clamped_witness :
  should_count_cycle 5 no_clicks_per_cycle
  = should_count_cycle 5 (with_clicks_per_cycle 1 no_clicks_per_cycle)
  /\ should_count_cycle 5 no_clicks_per_cycle = Some true
  /\ should_consume_shovel 5 (clicks_per_cycle no_clicks_per_cycle) = Some true.
Proof.
  apply (should_count_cycle_clamped 5 no_clicks_per_cycle). simpl. lia.
Defined.

(** ** The cooldown table *)

Lemma cooldown_wait_mark_visited ready_at p t d t' :
  cooldown_wait (mark_visited ready_at p t d) p t' = Some (t + d - t')%Q.
Proof.
  unfold cooldown_wait, mark_visited. rewrite lookup_insert_eq. reflexivity.
Qed.

(** Once [ready_at[p]] has been set to [t + d], the test [wait > 0] answers
    for [p] at every time [t']: not ready when [t' < t + d], ready when
    [t + d <= t']. *)
Lemma is_ready_after_mark_visited
    (ready_at : gmap (Z * Z) Q) (p : Z * Z) (t d t' : Q) :
  (is_ready (mark_visited ready_at p t d) p t' = Some false <-> (t' < t + d)%Q)
  /\ (is_ready (mark_visited ready_at p t d) p t' = Some true <-> (t + d <= t')%Q).
Proof.
  unfold is_ready. rewrite cooldown_wait_mark_visited.
  destruct (Qlt_le_dec 0 (t + d - t')) as [H | H]; split; split; intros G;
    try reflexivity; try discriminate G; lra.
Qed.

(** Marking one position leaves the readiness of every other one alone. *)
Lemma is_ready_mark_visited_other
    (ready_at : gmap (Z * Z) Q) (p q : Z * Z) (t d t' : Q) :
  p <> q ->
  is_ready (mark_visited ready_at p t d) q t' = is_ready ready_at q t'.
Proof.
  intros Hpq. unfold is_ready, cooldown_wait, mark_visited.
  rewrite lookup_insert_ne by assumption. reflexivity.
Qed.

(** ** The automatic pause/stop rules *)

Lemma maybe_pause_or_stop_stops cfg base w t0 :
  run_start_time w = Some t0 ->
  stop_rule_met cfg base w t0 = true ->
  maybe_pause_or_stop cfg base w = set_stop w.
Proof.
  unfold stop_rule_met, maybe_pause_or_stop. intros -> H. cbv zeta.
  destruct (reached_count (target_cycles cfg) (base + session_cycles_added w));
    [reflexivity |].
  simpl in H. rewrite H. reflexivity.
Qed.

(** C7.  When the run has started and a stop rule is met (the target of
    cycles, or the minutes limit), one call of [maybe_pause_or_stop] sets the
    stop event and changes nothing else: the pause event is as it was. *)
Theorem stop_rule_leaves_pause (cfg : CounterConfig) (base : Z) (w : World) (t0 : Q) :
  run_start_time w = Some t0 ->
  stop_rule_met cfg base w t0 = true ->
  stop_event (maybe_pause_or_stop cfg base w) = true
  /\ pause_event (maybe_pause_or_stop cfg base w) = pause_event w
  /\ maybe_pause_or_stop cfg base w = set_stop w.
Proof.
  intros Hs H. rewrite (maybe_pause_or_stop_stops _ _ _ _ Hs H).
  repeat split.
Qed.

(** The same in the first script, with its third stop rule. *)
Lemma V1_stop_rule_leaves_pause lim tot w t0 :
  run_start_time w = Some t0 ->
  reached_count (V1.STOP_AFTER_HARVESTS lim) (V1.total_harvests tot)
  || reached_minutes (V1.STOP_AFTER_MINUTES lim) ((now w - t0) / 60)%Q
  || reached_count (V1.STOP_AFTER_SHOVELS lim) (V1.total_shovels tot) = true ->
  V1.maybe_pause_or_stop lim tot w = set_stop w
  /\ pause_event (V1.maybe_pause_or_stop lim tot w) = pause_event w.
Proof.
  unfold V1.maybe_pause_or_stop. intros -> H. cbv zeta.
  destruct (reached_count (V1.STOP_AFTER_HARVESTS lim) (V1.total_harvests tot));
    [split; reflexivity |].
  destruct (reached_minutes (V1.STOP_AFTER_MINUTES lim) ((now w - t0) / 60)%Q);
    [split; reflexivity |].
  simpl in H. rewrite H. split; reflexivity.
Qed.

(** C10.  One call of [maybe_pause_or_stop] clears neither event: a stop
    event that was set is still set, and so is a pause event ([Bool.le b b']
    reads "if [b] then [b']"). *)
Theorem maybe_pause_or_stop_only_sets (cfg : CounterConfig) (base : Z) (w : World) :
  Bool.le (stop_event w) (stop_event (maybe_pause_or_stop cfg base w))
  /\ Bool.le (pause_event w) (pause_event (maybe_pause_or_stop cfg base w)).
Proof.
  unfold maybe_pause_or_stop.
  destruct (run_start_time w) as [t0 |]; cbv zeta.
  - destruct (reached_count (target_cycles cfg) (base + session_cycles_added w)),
      (reached_minutes (stop_after_minutes cfg) ((now w - t0) / 60)%Q),
      (reached_count (pause_at_cycles cfg) (base + session_cycles_added w)),
      (reached_minutes (pause_after_minutes cfg) ((now w - t0) / 60)%Q),
      (stop_event w) eqn:Es, (pause_event w) eqn:Ep;
      cbn; rewrite ?Es, ?Ep; split; exact I || reflexivity.
  - destruct (stop_event w), (pause_event w); split; exact I || reflexivity.
Qed.

(** The first script's rules clear neither event either. *)
Lemma V1_maybe_pause_or_stop_only_sets lim tot w :
  Bool.le (stop_event w) (stop_event (V1.maybe_pause_or_stop lim tot w))
  /\ Bool.le (pause_event w) (pause_event (V1.maybe_pause_or_stop lim tot w)).
Proof.
  unfold V1.maybe_pause_or_stop.
  destruct (run_start_time w) as [t0 |]; cbv zeta.
  - destruct (reached_count (V1.STOP_AFTER_HARVESTS lim) (V1.total_harvests tot)),
      (reached_minutes (V1.STOP_AFTER_MINUTES lim) ((now w - t0) / 60)%Q),
      (reached_count (V1.STOP_AFTER_SHOVELS lim) (V1.total_shovels tot)),
      (reached_count (V1.PAUSE_AFTER_HARVESTS lim) (V1.total_harvests tot)),
      (reached_minutes (V1.PAUSE_AFTER_MINUTES lim) ((now w - t0) / 60)%Q),
      (reached_count (V1.PAUSE_AFTER_SHOVELS lim) (V1.total_shovels tot)),
      (stop_event w) eqn:Es, (pause_event w) eqn:Ep;
      cbn; rewrite ?Es, ?Ep; split; exact I || reflexivity.
  - destruct (stop_event w), (pause_event w); split; exact I || reflexivity.
Qed.

(** ** Sleeping in slices *)

Lemma on_control_frame k w :
  now (on_control k w) = now w
  /\ trace (on_control k w) = trace w
  /\ session_pause_time (on_control k w) = session_pause_time w
  /\ Bool.le (stop_event w) (stop_event (on_control k w)).
Proof.
  destruct k; cbn; repeat split; destruct (stop_event w); exact I || reflexivity.
Qed.

Lemma deliver_frame ks : forall w,
  now (deliver ks w) = now w
  /\ trace (deliver ks w) = trace w
  /\ session_pause_time (deliver ks w) = session_pause_time w
  /\ Bool.le (stop_event w) (stop_event (deliver ks w)).
Proof.
  unfold deliver.
  induction ks as [| k ks IH]; intros w; simpl.
  - repeat split. destruct (stop_event w); exact I || reflexivity.
  - destruct (IH (on_control k w)) as (Hn & Ht & Hs & Hle).
    destruct (on_control_frame k w) as (Hn' & Ht' & Hs' & Hle').
    rewrite Hn, Ht, Hs, Hn', Ht', Hs'. repeat split.
    destruct (stop_event w); [| exact I].
    simpl in Hle'. rewrite Hle' in Hle. exact Hle.
Qed.

(** What one slice of [time.sleep] does to the clock and the trace. *)
Lemma time_sleep_done s w u w' :
  time_sleep s w = Done u w' ->
  now w' = (now w + s)%Q
  /\ trace w' = Slept s (pause_event w) (stop_event w) :: trace w
  /\ session_pause_time w' = session_pause_time w
  /\ Bool.le (stop_event w) (stop_event w').
Proof.
  unfold time_sleep. destruct (Qlt_le_dec s 0); [discriminate |].
  intros H. injection H as _ <-.
  match goal with |- context [deliver ?ks ?v] =>
    destruct (deliver_frame ks v) as (Hn & Ht & Hs & Hle) end.
  rewrite Hn, Ht, Hs. cbn in *. repeat split. exact Hle.
Qed.

(** [wait_if_paused_loop] sleeps only while the pause event is set and the
    stop event is not: all the time it takes is paused time, it begins no
    slice after a stop, and it returns at once when stop is set. *)
Lemma wait_if_paused_loop_done fuel step : forall w u w',
  wait_if_paused_loop fuel step w = Done u w' ->
  (now w' - now w == paused_time (trace w') - paused_time (trace w))%Q
  /\ late_slices (trace w') = late_slices (trace w)
  /\ session_pause_time w' = session_pause_time w
  /\ Bool.le (stop_event w) (stop_event w').
Proof.
  induction fuel as [| fuel IH]; intros w u w' H; simpl in H; [discriminate |].
  destruct (pause_event w) eqn:Ep, (stop_event w) eqn:Es; simpl in H;
    try (injection H as _ <-; rewrite ?Es; repeat split; lra).
  unfold bind in H.
  destruct (time_sleep step w) as [[] w1 | |] eqn:E1; try discriminate.
  apply time_sleep_done in E1. destruct E1 as (Hn1 & Ht1 & Hs1 & _).
  apply IH in H. destruct H as (Hn & Hl & Hs & _).
  rewrite Hl, Hs, Hs1, Ht1, Ep, Es. simpl. repeat split.
  rewrite Ht1, Ep, Hn1 in Hn. simpl in Hn. lra.
Qed.

Lemma wait_if_paused_done fuel step w pd w' :
  wait_if_paused fuel step w = Done pd w' ->
  pd = (now w' - now w)%Q
  /\ (pd == paused_time (trace w') - paused_time (trace w))%Q
  /\ late_slices (trace w') = late_slices (trace w)
  /\ session_pause_time w' = session_pause_time w
  /\ Bool.le (stop_event w) (stop_event w').
Proof.
  unfold wait_if_paused, bind, get, ret.
  destruct (wait_if_paused_loop fuel step w) as [[] w1 | |] eqn:E;
    try discriminate.
  intros H. injection H as <- <-.
  apply wait_if_paused_loop_done in E. destruct E as (Hn & Hl & Hs & Hle).
  repeat split; assumption.
Qed.

(** The invariant of the loop of [sleep_interruptible]: the deadline moves
    by exactly the pause time met, which is also what is returned and what is
    added to [session_pause_time]; no slice begins after a stop. *)
Lemma sleep_interruptible_loop_done fuel step : forall end_ total w r w',
  sleep_interruptible_loop fuel step end_ total w = Done r w' ->
  (r - total == paused_time (trace w') - paused_time (trace w))%Q
  /\ (session_pause_time w' == session_pause_time w + (r - total))%Q
  /\ late_slices (trace w') = late_slices (trace w)
  /\ Bool.le (stop_event w) (stop_event w')
  /\ (stop_event w' = false -> (end_ + (r - total) <= now w')%Q)
  /\ ((now w < end_)%Q -> (now w' < end_ + (r - total) + step)%Q
                          \/ stop_event w' = true).
Proof.
  induction fuel as [| fuel IH]; intros end_ total w r w' H; simpl in H;
    [discriminate |].
  destruct (Qlt_le_dec (now w) end_) as [Hlt | Hge].
  2:{ injection H as <- <-. repeat split; try lra.
      destruct (stop_event w); exact I || reflexivity. }
  destruct (stop_event w) eqn:Es.
  { injection H as <- <-. rewrite Es. repeat split; lra. }
  destruct (pause_event w) eqn:Ep.
  - unfold bind at 1 in H.
    destruct (wait_if_paused fuel (Qmax step (1 # 10)) w) as [pd w1 | |] eqn:E1;
      try discriminate.
    apply wait_if_paused_done in E1.
    destruct E1 as (Hpd & Hp1 & Hl1 & Hs1 & _).
    unfold bind, add_session_pause_time, modify in H.
    apply IH in H. cbn in H.
    destruct H as (Hr & Hs & Hl & _ & Hend & Hup).
    repeat split.
    + lra.
    + rewrite Hs1 in Hs. lra.
    + congruence.
    + intros G. specialize (Hend G). lra.
    + intros _.
      assert (Hlt1 : (now w1 < end_ + pd)%Q) by (rewrite Hpd; lra).
      destruct (Hup Hlt1) as [G | G]; [left; lra | right; exact G].
  - unfold bind in H.
    destruct (time_sleep step w) as [[] w1 | |] eqn:E1; try discriminate.
    apply time_sleep_done in E1. destruct E1 as (Hn1 & Ht1 & Hs1 & _).
    rewrite Ep, Es in Ht1.
    pose proof H as H0.
    apply IH in H. destruct H as (Hr & Hs & Hl & _ & Hend & Hup).
    rewrite Ht1 in Hr, Hl. simpl in Hr, Hl.
    repeat split.
    + exact Hr.
    + rewrite Hs1 in Hs. exact Hs.
    + exact Hl.
    + exact Hend.
    + intros _.
      destruct (Qlt_le_dec (now w1) end_) as [Hlt1 | Hge1].
      * destruct (Hup Hlt1) as [G | G]; [left; exact G | right; exact G].
      * destruct fuel as [| fuel']; simpl in H0; [discriminate |].
        destruct (Qlt_le_dec (now w1) end_) as [Hlt1 | _]; [lra |].
        injection H0 as <- <-. left. rewrite Hn1. lra.
Qed.

(** In [autoclicker_grid_V2.py]: when [sleep_interruptible(d, step)] returns
    and the stop event is not set, the time it slept outside pauses is at
    least [d] (and, for [d > 0], less than [d + step]); it returns the time
    it spent paused, and has added it to [session_pause_time]. *)
Lemma V2_sleep_interruptible_pause_extends fuel d step w r w' :
  sleep_interruptible fuel d step w = Done r w' ->
  stop_event w' = false ->
  (d <= (now w' - now w) - (paused_time (trace w') - paused_time (trace w)))%Q
  /\ (d + (paused_time (trace w') - paused_time (trace w)) <= now w' - now w)%Q
  /\ (r == paused_time (trace w') - paused_time (trace w))%Q
  /\ (session_pause_time w' == session_pause_time w + r)%Q
  /\ ((0 < d)%Q ->
      ((now w' - now w) - (paused_time (trace w') - paused_time (trace w))
       < d + step)%Q).
Proof.
  unfold sleep_interruptible, bind, get. intros H Hs.
  apply sleep_interruptible_loop_done in H.
  destruct H as (Hr & Hsp & _ & _ & Hend & Hup).
  specialize (Hend Hs).
  repeat split; try lra.
  intros Hd. destruct Hup as [G | G]; [lra | lra | congruence].
Qed.

(** The loop of the first script: the deadline moves by the pause time met,
    though nothing is returned. *)
Lemma V1_sleep_interruptible_loop_done fuel step : forall end_ w u w',
  V1.sleep_interruptible_loop fuel step end_ w = Done u w' ->
  Bool.le (stop_event w) (stop_event w')
  /\ late_slices (trace w') = late_slices (trace w)
  /\ (stop_event w' = false ->
      (end_ + (paused_time (trace w') - paused_time (trace w)) <= now w')%Q)
  /\ ((now w < end_)%Q ->
      (now w' < end_ + (paused_time (trace w') - paused_time (trace w)) + step)%Q
      \/ stop_event w' = true).
Proof.
  induction fuel as [| fuel IH]; intros end_ w u w' H; simpl in H;
    [discriminate |].
  destruct (Qlt_le_dec (now w) end_) as [Hlt | Hge].
  2:{ injection H as _ <-. repeat split; try lra.
      destruct (stop_event w); exact I || reflexivity. }
  destruct (stop_event w) eqn:Es.
  { injection H as _ <-. rewrite Es. repeat split; try lra;
      intros _; right; reflexivity. }
  destruct (pause_event w) eqn:Ep.
  - unfold bind, get, V1.wait_if_paused in H.
    destruct (wait_if_paused_loop fuel (Qmax step (1 # 10)) w)
      as [[] w1 | |] eqn:E1; try discriminate.
    apply wait_if_paused_loop_done in E1. destruct E1 as (Hn1 & Hl1 & _ & _).
    apply IH in H. destruct H as (_ & Hl & Hend & Hup).
    repeat split; [congruence | |].
    + intros G. specialize (Hend G). lra.
    + intros _.
      assert (Hlt1 : (now w1 < end_ + (now w1 - now w))%Q) by lra.
      destruct (Hup Hlt1) as [G | G]; [left; lra | right; exact G].
  - unfold bind in H.
    destruct (time_sleep step w) as [[] w1 | |] eqn:E1; try discriminate.
    apply time_sleep_done in E1. destruct E1 as (Hn1 & Ht1 & _ & _).
    rewrite Ep, Es in Ht1.
    pose proof H as H0.
    apply IH in H. destruct H as (_ & Hl & Hend & Hup).
    rewrite Ht1 in Hl, Hend, Hup. simpl in Hl, Hend, Hup.
    repeat split; try assumption.
    intros _.
    destruct (Qlt_le_dec (now w1) end_) as [Hlt1 | Hge1].
    + destruct (Hup Hlt1) as [G | G]; [left; exact G | right; exact G].
    + destruct fuel as [| fuel']; simpl in H0; [discriminate |].
      destruct (Qlt_le_dec (now w1) end_) as [Hlt1 | _]; [lra |].
      injection H0 as _ <-. left. rewrite Ht1, Hn1. simpl. lra.
Qed.

Lemma V1_sleep_interruptible_pause_extends fuel d step w u w' :
  V1.sleep_interruptible fuel d step w = Done u w' ->
  stop_event w' = false ->
  (d <= (now w' - now w) - (paused_time (trace w') - paused_time (trace w)))%Q
  /\ (d + (paused_time (trace w') - paused_time (trace w)) <= now w' - now w)%Q
  /\ ((0 < d)%Q ->
      ((now w' - now w) - (paused_time (trace w') - paused_time (trace w))
       < d + step)%Q).
Proof.
  unfold V1.sleep_interruptible, bind, get. intros H Hs.
  apply V1_sleep_interruptible_loop_done in H.
  destruct H as (_ & _ & Hend & Hup). specialize (Hend Hs).
  repeat split; try lra.
  intros Hd. destruct Hup as [G | G]; [lra | lra | congruence].
Qed.

(** C4, as amended.  In both scripts, when [sleep_interruptible(d, step)]
    returns and the stop event is not set, the time it slept outside pauses
    is at least [d] (and, for [d > 0], less than [d + step]): the wall time
    it took is at least [d] plus the time it spent paused.
    [autoclicker_grid_V2.py] returns that paused time and has added it to
    [session_pause_time]; the first script returns nothing. *)
Theorem sleep_interruptible_pause_extends
    (fuel : nat) (d step : Q) (w : World) :
  (forall (r : Q) (w' : World),
      sleep_interruptible fuel d step w = Done r w' ->
      stop_event w' = false ->
      (d <= (now w' - now w)
            - (paused_time (trace w') - paused_time (trace w)))%Q
      /\ (d + (paused_time (trace w') - paused_time (trace w))
          <= now w' - now w)%Q
      /\ (r == paused_time (trace w') - paused_time (trace w))%Q
      /\ (session_pause_time w' == session_pause_time w + r)%Q
      /\ ((0 < d)%Q ->
          ((now w' - now w) - (paused_time (trace w') - paused_time (trace w))
           < d + step)%Q))
  /\ (forall (u : unit) (w' : World),
        V1.sleep_interruptible fuel d step w = Done u w' ->
        stop_event w' = false ->
        (d <= (now w' - now w)
              - (paused_time (trace w') - paused_time (trace w)))%Q
        /\ (d + (paused_time (trace w') - paused_time (trace w))
            <= now w' - now w)%Q
        /\ ((0 < d)%Q ->
            ((now w' - now w) - (paused_time (trace w') - paused_time (trace w))
             < d + step)%Q)).
Proof.
  split.
  - intros r w'. apply V2_sleep_interruptible_pause_extends.
  - intros u w'. apply V1_sleep_interruptible_pause_extends.
Qed.

(** C8.  At the top of any slice of an interruptible sleep, whatever is left
    of the requested duration, a set stop event makes the sleep return at
    once: no further slice, the world as it was.  And a sleep that returns
    has begun no slice with the stop event set, so a stop requested during a
    slice ends the sleep when that slice ends. *)
Theorem stop_ends_sleep (fuel : nat) (step end_ total_pause : Q) (w : World) :
  (stop_event w = true ->
   sleep_interruptible_loop (S fuel) step end_ total_pause w
   = Done total_pause w)
  /\ (forall (r : Q) (w' : World),
        sleep_interruptible_loop fuel step end_ total_pause w = Done r w' ->
        late_slices (trace w') = late_slices (trace w)).
Proof.
  split.
  - intros Hs. simpl. rewrite Hs.
    destruct (Qlt_le_dec (now w) end_); reflexivity.
  - intros r w' H. apply sleep_interruptible_loop_done in H.
    destruct H as (_ & _ & Hl & _). exact Hl.
Qed.

(** The same for the whole call, for [wait_if_paused] and for the first
    script. *)
Lemma stop_ends_sleep_call fuel d step w :
  stop_event w = true ->
  sleep_interruptible (S fuel) d step w = Done 0%Q w
  /\ wait_if_paused_loop (S fuel) step w = Done tt w
  /\ V1.sleep_interruptible (S fuel) d step w = Done tt w.
Proof.
  intros Hs.
  unfold sleep_interruptible, V1.sleep_interruptible, bind, get. simpl.
  rewrite Hs, andb_false_r.
  destruct (Qlt_le_dec (now w) (now w + d)); repeat split.
Qed.

Lemma deliver_stop ks : forall w,
  In KeyEsc ks \/ In BtnStop ks -> stop_event (deliver ks w) = true.
Proof.
  unfold deliver.
  induction ks as [| k ks IH]; intros w H; simpl in *; [tauto |].
  destruct (deliver_frame ks (on_control k w)) as (_ & _ & _ & Hle).
  unfold deliver in Hle.
  destruct H as [[-> | H] | [-> | H]].
  - cbn in Hle. exact Hle.
  - apply IH. left. exact H.
  - cbn in Hle. exact Hle.
  - apply IH. right. exact H.
Qed.

(** A stop requested during the coming slice: the sleep returns when that
    slice ends, having slept one slice at most. *)
Lemma stop_during_slice_ends_sleep fuel step end_ total w :
  (0 <= step)%Q ->
  In KeyEsc (hd [] (script w)) \/ In BtnStop (hd [] (script w)) ->
  exists r w',
    sleep_interruptible_loop (S (S (S fuel))) step end_ total w = Done r w'
    /\ (length (trace w') <= S (length (trace w)))%nat.
Proof.
  intros Hstep Hesc.
  cbn [sleep_interruptible_loop].
  destruct (Qlt_le_dec (now w) end_) as [Hlt | Hge];
    [| exists total, w; split; [reflexivity | lia]].
  destruct (stop_event w) eqn:Es; [exists total, w; split; [reflexivity | lia] |].
  assert (Hslice : forall s, (0 <= s)%Q ->
            exists w1, time_sleep s w = Done tt w1
                       /\ stop_event w1 = true
                       /\ length (trace w1) = S (length (trace w))).
  { intros s Hs. unfold time_sleep.
    destruct (Qlt_le_dec s 0) as [Hneg | _]; [lra |].
    eexists. split; [reflexivity |]. split.
    - apply deliver_stop. exact Hesc.
    - match goal with |- context [deliver ?ks ?v] =>
        destruct (deliver_frame ks v) as (_ & Ht & _) end.
      rewrite Ht. reflexivity. }
  destruct (pause_event w) eqn:Ep.
  - destruct (Hslice (Qmax step (1 # 10))) as (w1 & E1 & Hs1 & Hl1).
    { apply Q.max_le_iff. left. exact Hstep. }
    unfold bind at 1.
    unfold wait_if_paused, bind, get, ret. cbn [wait_if_paused_loop].
    rewrite Ep, Es. cbn [andb negb]. unfold bind. rewrite E1.
    rewrite Hs1, andb_false_r.
    unfold add_session_pause_time, modify. cbn.
    rewrite Hs1.
    match goal with |- context [Qlt_le_dec ?a ?b] =>
      destruct (Qlt_le_dec a b) end;
      eexists _, _; (split; [reflexivity | cbn; lia]).
  - destruct (Hslice step Hstep) as (w1 & E1 & Hs1 & Hl1).
    unfold bind. rewrite E1. cbn [sleep_interruptible_loop]. rewrite Hs1.
    destruct (Qlt_le_dec (now w1) end_);
      exists total, w1; (split; [reflexivity | lia]).
Qed.

(** ** Scenarios *)

Lemma sleep_interruptible_pause_extends_witness :
  sleep_interruptible 30 (2 # 10) (5 # 100) paused_sleep_world
  = Done (fst paused_sleep_result) (snd paused_sleep_result)
  /\ stop_event (snd paused_sleep_result) = false
  /\ (now (snd paused_sleep_result) == 4 # 10)%Q
  /\ (fst paused_sleep_result == 2 # 10)%Q
  /\ (2 # 10 <= (now (snd paused_sleep_result) - now paused_sleep_world)
               - (paused_time (trace (snd paused_sleep_result))
                  - paused_time (trace paused_sleep_world)))%Q
  /\ V1.sleep_interruptible 30 (2 # 10) (5 # 100) paused_sleep_world
     = Done tt first_script_sleep_result
  /\ (2 # 10 <= (now first_script_sleep_result - now paused_sleep_world)
               - (paused_time (trace first_script_sleep_result)
                  - paused_time (trace paused_sleep_world)))%Q.
Proof.
  assert (E : sleep_interruptible 30 (2 # 10) (5 # 100) paused_sleep_world
              = Done (fst paused_sleep_result) (snd paused_sleep_result))
    by (vm_compute; reflexivity).
  assert (E1 : V1.sleep_interruptible 30 (2 # 10) (5 # 100) paused_sleep_world
               = Done tt first_script_sleep_result)
    by (vm_compute; reflexivity).
  split; [exact E |]. split; [reflexivity |].
  split; [reflexivity |]. split; [reflexivity |].
  split.
  - apply (proj1 (sleep_interruptible_pause_extends 30 (2 # 10) (5 # 100)
                    paused_sleep_world) _ _ E). reflexivity.
  - split; [exact E1 |].
    apply (proj2 (sleep_interruptible_pause_extends 30 (2 # 10) (5 # 100)
                    paused_sleep_world) _ _ E1). reflexivity.
Defined.

(** C4 as written fails in the first script: this call spends 0.2 s paused
    and sleeps its 0.2 s after that, as the second script does, but what it
    hands back to its caller is nothing ([None], the value of [unit]), where
    [autoclicker_grid_V2.py] returns the 0.2 s. *)
Lemma first_script_sleep_returns_nothing :
  V1.sleep_interruptible 30 (2 # 10) (5 # 100) paused_sleep_world
  = Done tt first_script_sleep_result
  /\ stop_event first_script_sleep_result = false
  /\ (now first_script_sleep_result - now paused_sleep_world == 4 # 10)%Q
  /\ (paused_time (trace first_script_sleep_result)
      - paused_time (trace paused_sleep_world) == 2 # 10)%Q
  /\ sleep_interruptible 30 (2 # 10) (5 # 100) paused_sleep_world
     = Done (fst paused_sleep_result) (snd paused_sleep_result)
  /\ (fst paused_sleep_result == 2 # 10)%Q.
Proof.
  split; [vm_compute; reflexivity |].
  repeat split; vm_compute; reflexivity.
Qed.

Lemma stop_ends_sleep_witness :
  stop_event stopped_world = true
  /\ sleep_interruptible_loop 1 (5 # 100) 5 0 stopped_world = Done 0%Q stopped_world
  /\ sleep_interruptible_loop 30 (5 # 100) 5 0 esc_world
     = Done (fst esc_result) (snd esc_result)
  /\ (now (snd esc_result) == 1 # 10)%Q
  /\ late_slices (trace (snd esc_result)) = late_slices (trace esc_world).
Proof.
  split; [reflexivity |].
  split; [apply (proj1 (stop_ends_sleep 0 (5 # 100) 5 0 stopped_world));
          reflexivity |].
  assert (E : sleep_interruptible_loop 30 (5 # 100) 5 0 esc_world
              = Done (fst esc_result) (snd esc_result))
    by (vm_compute; reflexivity).
  split; [exact E |]. split; [reflexivity |].
  apply (proj2 (stop_ends_sleep 30 (5 # 100) 5 0 esc_world) _ _ E).
Defined.

Lemma stop_rule_leaves_pause_witness :
  run_start_time two_cycles_world = Some 0%Q
  /\ stop_rule_met target_and_pause 0 two_cycles_world 0 = true
  /\ stop_event (maybe_pause_or_stop target_and_pause 0 two_cycles_world) = true
  /\ pause_event (maybe_pause_or_stop target_and_pause 0 two_cycles_world)
     = pause_event two_cycles_world
  /\ maybe_pause_or_stop target_and_pause 0 two_cycles_world
     = set_stop two_cycles_world.
Proof.
  split; [reflexivity |]. split; [reflexivity |].
  apply (stop_rule_leaves_pause target_and_pause 0 two_cycles_world 0);
    reflexivity.
Defined.

(** ** The minutes limit counts wall-clock time *)

Lemma minutes_reached (m secs : Q) :
  Qle_bool m (secs / 60) = true <-> (60 * m <= secs)%Q.
Proof.
  rewrite Qle_bool_iff. split; intros H.
  - apply (Qmult_le_r _ _ 60) in H; [| reflexivity].
    unfold Qdiv in H. rewrite <- Qmult_assoc in H.
    rewrite (Qmult_comm (/ 60) 60), Qmult_inv_r, Qmult_1_r in H by discriminate.
    lra.
  - apply Qle_shift_div_l; [reflexivity | lra].
Qed.

(** With [stop_after_minutes = m] the only limit set and the run started at
    [t0], one call of [maybe_pause_or_stop] leaves the stop event set exactly
    when it was set already or [60 * m] seconds of the monotonic clock have
    gone by since [t0]; the pause event is not touched. *)
Lemma maybe_pause_or_stop_minutes cfg base w t0 m :
  run_start_time w = Some t0 ->
  target_cycles cfg = None ->
  pause_at_cycles cfg = None ->
  pause_after_minutes cfg = None ->
  stop_after_minutes cfg = Some m ->
  (stop_event (maybe_pause_or_stop cfg base w) = true
   <-> stop_event w = true \/ (60 * m <= now w - t0)%Q)
  /\ pause_event (maybe_pause_or_stop cfg base w) = pause_event w.
Proof.
  intros Hs Ht Hp Hpm Hm. unfold maybe_pause_or_stop.
  rewrite Hs, Ht, Hp, Hpm, Hm. cbn.
  pose proof (minutes_reached m (now w - t0)) as Hmin.
  destruct (Qle_bool m ((now w - t0) / 60)) eqn:E; cbn.
  - split; [| reflexivity].
    split; [intros _; right; apply Hmin; reflexivity | reflexivity].
  - split; [| reflexivity].
    split; [intros G; left; exact G | intros [G | G]; [exact G |]].
    apply Hmin in G. discriminate G.
Qed.

(** The same in the first script. *)
Lemma V1_maybe_pause_or_stop_minutes lim tot w t0 m :
  run_start_time w = Some t0 ->
  V1.STOP_AFTER_HARVESTS lim = None ->
  V1.STOP_AFTER_SHOVELS lim = None ->
  V1.PAUSE_AFTER_HARVESTS lim = None ->
  V1.PAUSE_AFTER_MINUTES lim = None ->
  V1.PAUSE_AFTER_SHOVELS lim = None ->
  V1.STOP_AFTER_MINUTES lim = Some m ->
  (stop_event (V1.maybe_pause_or_stop lim tot w) = true
   <-> stop_event w = true \/ (60 * m <= now w - t0)%Q)
  /\ pause_event (V1.maybe_pause_or_stop lim tot w) = pause_event w.
Proof.
  intros Hs H1 H2 H3 H4 H5 Hm. unfold V1.maybe_pause_or_stop.
  rewrite Hs, H1, H2, H3, H4, H5, Hm. cbn.
  pose proof (minutes_reached m (now w - t0)) as Hmin.
  destruct (Qle_bool m ((now w - t0) / 60)) eqn:E; cbn.
  - split; [| reflexivity].
    split; [intros _; right; apply Hmin; reflexivity | reflexivity].
  - split; [| reflexivity].
    split; [intros G; left; exact G | intros [G | G]; [exact G |]].
    apply Hmin in G. discriminate G.
Qed.

(** C2 as written fails.  In this run the first visit ends 1.2 s after the
    start, 1.0 s of which were spent paused: 0.2 s of active time, short of
    the 0.6 s limit.  [maybe_pause_or_stop] stops the run all the same. *)
Lemma stop_after_minutes_counts_paused_time :
  Forall (Forall (fun k => k = KeyF8)) pause_one_second
  /\ exists w : World,
       run_cycles 100 minutes_run (fresh_world 0 pause_one_second []) = Done tt w
       /\ stop_event w = true
       /\ session_clicks w = 1
       /\ run_start_time w = Some 0%Q
       /\ (now w == 12 # 10)%Q
       /\ (paused_time (trace w) == 1)%Q
       /\ (now w - 0 - paused_time (trace w) < 60 * (1 # 100))%Q.
Proof.
  split; [repeat constructor |].
  eexists. split; [vm_compute; reflexivity |].
  repeat split; vm_compute; reflexivity.
Qed.

(** ** Counting a visit that made no click *)

(** The guards that are there: with the stop event set at the top of an
    iteration the sweep leaves the position alone, and [click_position]
    entered with the stop event set makes no click. *)
Lemma visit_position_stopped fuel st r c ready_at w :
  stop_event w = true ->
  visit_position fuel st r c ready_at w = Done (Break, ready_at) w.
Proof.
  intros Hs. unfold visit_position, bind, get. rewrite Hs. reflexivity.
Qed.

Lemma click_position_stopped fuel x y g t w :
  stop_event w = true ->
  click_position fuel x y g t w = Done tt w.
Proof.
  intros Hs. unfold click_position, bind, get. rewrite Hs. reflexivity.
Qed.

(** C3, which the code breaks on the run [two_tiles_run] under the script
    [pause_then_esc].  The stop arrives while the sweep waits out the
    pause at the top of the iteration for position (0, 1); the position is
    ready, so no stop check follows, [click_position] returns at once
    without clicking, and [run_cycles] counts the visit all the same: one
    click was made, at (0, 0), but [session_clicks] is 2, position (0, 1) has
    a click count of 1 and a second cycle has been counted. *)
Theorem visit_counted_without_click :
  exists w : World,
    run_cycles 50 two_tiles_run (fresh_world 0 pause_then_esc []) = Done tt w
    /\ stop_event w = true
    /\ clicks (trace w) = [(100, 200)]
    /\ session_clicks w = 2
    /\ per_position_clicks w !! (0, 0) = Some 1
    /\ per_position_clicks w !! (0, 1) = Some 1
    /\ session_cycles_added w = 2.
Proof.
  eexists. split; [vm_compute; reflexivity |].
  repeat split; vm_compute; reflexivity.
Qed.

(** [click_position] checks the stop event before it waits out a pause, not
    after: here the second click on the tile is made with the stop event
    set. *)
Lemma click_after_stop :
  exists w : World,
    run_cycles 50 one_tile_run (fresh_world 0 pause_at_end_of_cooldown [])
    = Done tt w
    /\ clicks (trace w) = [(100, 200); (100, 200)]
    /\ late_clicks (trace w) = 1%nat
    /\ per_position_clicks w !! (0, 0) = Some 2.
Proof.
  eexists. split; [vm_compute; reflexivity |].
  repeat split; vm_compute; reflexivity.
Qed.

(** ** Configurations that [start] does not refuse *)

Lemma visit_position_clamp fuel st r c ready_at :
  visit_position fuel (clamp_grid st) r c ready_at
  = visit_position fuel st r c ready_at.
Proof. reflexivity. Qed.

(** The loops read the grid only through fields that clamping keeps. *)
Lemma for_rows_clamp fuel st cols_ rs ready_at :
  for_rows fuel (clamp_grid st) cols_ rs ready_at
  = for_rows fuel st cols_ rs ready_at.
Proof. reflexivity. Qed.

Lemma cycles_loop_clamp st rows_ cols_ : forall fuel ready_at w,
  cycles_loop fuel (clamp_grid st) rows_ cols_ ready_at w
  = cycles_loop fuel st rows_ cols_ ready_at w.
Proof.
  induction fuel as [| fuel IH]; intros ready_at w; simpl; [reflexivity |].
  destruct (stop_event w); [reflexivity |].
  unfold bind.
  destruct (wait_if_paused fuel default_wait_step w) as [pd w1 | |];
    try reflexivity.
  unfold get. rewrite for_rows_clamp.
  destruct (for_rows fuel st cols_ (py_range rows_) ready_at w1)
    as [ra w2 | |]; try reflexivity.
  unfold modify.
  match goal with |- context [update_active_time ?v] =>
    destruct (update_active_time v) as [[] w3 | |] end; try reflexivity.
  cbn [clamp_grid counters timing].
  destruct (call_print_stats (counters st) (timing st) w3) as [[] w4 | |];
    try reflexivity.
  destruct (stop_event w4); [reflexivity |].
  match goal with |- context [Qlt_le_dec ?a ?b] => destruct (Qlt_le_dec a b) end.
  - destruct (sleep_interruptible fuel _ default_sleep_step w4) as [pd5 w5 | |];
      try reflexivity.
    apply IH.
  - unfold ret. apply IH.
Qed.

(** [run_cycles] runs a state as it runs the state with clamped grid. *)
Lemma run_cycles_clamp fuel st w :
  run_cycles fuel st w = run_cycles fuel (clamp_grid st) w.
Proof.
  unfold run_cycles. cbn [clamp_grid grid rows cols].
  rewrite !Z.max_assoc, !Z.max_id.
  unfold bind, modify, get.
  rewrite cycles_loop_clamp. reflexivity.
Qed.

Lemma py_range_pos n : 1 <= n -> exists l, py_range n = 0 :: l.
Proof.
  intros Hn. unfold py_range.
  destruct (Z.to_nat n) as [| k] eqn:E; [lia |].
  simpl. eexists. reflexivity.
Qed.

Lemma positions_first rows_ cols_ :
  hd_error (positions (Z.max 1 rows_) (Z.max 1 cols_)) = Some (0, 0).
Proof.
  unfold positions.
  destruct (py_range_pos (Z.max 1 rows_) ltac:(lia)) as [lr ->].
  destruct (py_range_pos (Z.max 1 cols_) ltac:(lia)) as [lc ->].
  reflexivity.
Qed.

Lemma jittered_nonneg base jitter w q w' :
  jittered base jitter w = Done q w' -> (0 <= q)%Q.
Proof.
  unfold jittered.
  destruct (Qle_bool jitter 0).
  - unfold ret. intros H. injection H as <- _. apply Q.le_max_l.
  - unfold bind, random_uniform, bind, random_random, ret.
    destruct (rng w); intros H; injection H as <- _; apply Q.le_max_l.
Qed.

(** C5, as amended.  [start] refuses no configuration: when no worker is
    alive it resets both events and, unless the countdown is cancelled,
    starts the worker, whatever the grid dimensions and the durations.  The
    worker runs the state as it would run it with [rows] and [cols] replaced
    by [max(1, rows)] and [max(1, cols)]; that grid is not empty, its first
    position is (0, 0); and a delay drawn by [jittered] is never negative. *)
Theorem start_takes_every_configuration (app : App) (w : World) :
  worker_alive app = false ->
  start app false w = WorkerStarted (set_flags false false w)
  /\ (forall (fuel : nat) (w1 : World),
        run_worker fuel app w1
        = run_worker fuel (mkApp (clamp_grid (state_obj app)) false) w1)
  /\ hd_error (positions (Z.max 1 (rows (grid (state_obj app))))
                         (Z.max 1 (cols (grid (state_obj app))))) = Some (0, 0)
  /\ (forall (base jitter q : Q) (w1 w2 : World),
        jittered base jitter w1 = Done q w2 -> (0 <= q)%Q).
Proof.
  intros Halive. unfold start. rewrite Halive.
  split; [reflexivity |]. split.
  - intros fuel w1. unfold run_worker. cbn [state_obj].
    rewrite <- run_cycles_clamp. reflexivity.
  - split; [apply positions_first |].
    intros base jitter q w1 w2. apply jittered_nonneg.
Qed.

Lemma start_takes_every_configuration_witness :
  worker_alive degenerate_app = false
  /\ start degenerate_app false (fresh_world 0 [] [])
     = WorkerStarted (set_flags false false (fresh_world 0 [] [])).
Proof.
  split; [reflexivity |].
  apply (start_takes_every_configuration degenerate_app (fresh_world 0 [] [])).
  reflexivity.
Defined.

(** C5 as written fails: this configuration is not refused.  The worker
    starts, clicks position (0, 0) twice and counts the visit; the user's
    ESC ends the run. *)
Lemma start_runs_degenerate_configuration :
  (rows no_grid <= 0 /\ cols no_grid < 0)
  /\ (cooldown_seconds negative_timing < 0 /\ click_delay negative_timing < 0)%Q
  /\ exists w1 w : World,
       start degenerate_app false (fresh_world 0 [[KeyEsc]] []) = WorkerStarted w1
       /\ run_worker 50 degenerate_app w1 = Some w
       /\ clicks (trace w) = [(100, 200); (100, 200)]
       /\ session_clicks w = 1
       /\ per_position_clicks w !! (0, 0) = Some 1.
Proof.
  split; [simpl; lia |]. split; [split; reflexivity |].
  eexists _, _. split; [reflexivity |].
  split; [vm_compute; reflexivity |].
  repeat split; vm_compute; reflexivity.
Qed.

(** ** A sleep nobody disturbs returns *)

Lemma time_sleep_quiet s w :
  (0 <= s)%Q -> script w = [] ->
  exists w1,
    time_sleep s w = Done tt w1
    /\ now w1 = (now w + s)%Q /\ script w1 = []
    /\ stop_event w1 = stop_event w /\ pause_event w1 = pause_event w.
Proof.
  intros Hs Hsc. unfold time_sleep.
  destruct (Qlt_le_dec s 0) as [Hneg | _]; [lra |].
  rewrite Hsc. eexists. split; [reflexivity |]. cbn. repeat split.
Qed.

Lemma sleep_interruptible_loop_quiet step :
  (0 < step)%Q ->
  forall (n : nat) end_ total w,
    script w = [] -> pause_event w = false -> stop_event w = false ->
    (end_ - now w <= inject_Z (Z.of_nat n) * step)%Q ->
    exists w',
      sleep_interruptible_loop (S n) step end_ total w = Done total w'
      /\ stop_event w' = false.
Proof.
  intros Hstep.
  induction n as [| n IH]; intros end_ total w Hsc Hp Hs Hn;
    cbn [sleep_interruptible_loop];
    destruct (Qlt_le_dec (now w) end_) as [Hlt | Hge];
    try (exists w; split; [reflexivity | exact Hs]).
  - change (inject_Z (Z.of_nat 0)) with 0%Q in Hn. lra.
  - rewrite Hs, Hp.
    destruct (time_sleep_quiet step w ltac:(lra) Hsc)
      as (w1 & E1 & Hn1 & Hsc1 & Hs1 & Hp1).
    unfold bind. rewrite E1.
    apply IH; try congruence.
    rewrite Hn1. rewrite Nat2Z.inj_succ in Hn.
    unfold Z.succ in Hn. rewrite inject_Z_plus in Hn.
    change (inject_Z 1) with 1%Q in Hn. lra.
Qed.

(** With no controller action to come, the run neither paused nor stopped
    and a positive slice, [sleep_interruptible] returns, given fuel for its
    slices; the stop event is still clear, so the premises of C4 hold. *)
Lemma sleep_interruptible_returns_when_quiet d step w :
  (0 < step)%Q ->
  script w = [] -> pause_event w = false -> stop_event w = false ->
  exists fuel r w',
    sleep_interruptible fuel d step w = Done r w' /\ stop_event w' = false.
Proof.
  intros Hstep Hsc Hp Hs.
  set (n := Z.to_nat (Qceiling (d / step))).
  destruct (sleep_interruptible_loop_quiet step Hstep n (now w + d)%Q 0%Q w
              Hsc Hp Hs) as (w' & E & Hs').
  - assert (H1 : (d / step <= inject_Z (Z.of_nat n))%Q).
    { eapply Qle_trans; [apply Qle_ceiling |].
      rewrite <- Zle_Qle. unfold n. lia. }
    apply (Qmult_le_r _ _ step Hstep) in H1.
    unfold Qdiv in H1. rewrite <- Qmult_assoc in H1.
    rewrite (Qmult_comm (/ step) step), Qmult_inv_r, Qmult_1_r in H1 by lra.
    lra.
  - exists (S n), 0%Q, w'. split; [| exact Hs'].
    unfold sleep_interruptible, bind, get. exact E.
Qed.

(** * Further properties of the runtime *)

(** ** Cycles per position *)

Lemma div_step (k n : Z) :
  0 <= k -> 1 <= n ->
  (k + n) / n = (k + n - 1) / n + (if k mod n =? 0 then 1 else 0).
Proof.
  intros Hk Hn.
  pose proof (Z.div_mod k n ltac:(lia)) as D.
  pose proof (Z.mod_pos_bound k n ltac:(lia)) as B.
  rewrite <- (Z.div_unique_pos (k + n) n (k / n + 1) (k mod n)) by lia.
  destruct (Z.eqb_spec (k mod n) 0) as [E | E].
  - rewrite <- (Z.div_unique_pos (k + n - 1) n (k / n) (n - 1)) by lia. lia.
  - rewrite <- (Z.div_unique_pos (k + n - 1) n (k / n + 1) (k mod n - 1)) by lia.
    lia.
Qed.

(** X1.  After [k] clicks on one position, the clicks that
    [should_count_cycle] counted as a cycle number [ceil(k / n)], with
    [n = max(1, clicks_per_cycle)]: the first click and every [n]-th one
    after it. *)
Theorem cycles_counted_ceiling (cfg : CounterConfig) (k : nat) :
  cycles_counted cfg k
  = (Z.of_nat k + Z.max 1 (clicks_per_cycle cfg) - 1)
    / Z.max 1 (clicks_per_cycle cfg).
Proof.
  induction k as [| k IH].
  - simpl. rewrite Z.div_small; lia.
  - cbn [cycles_counted]. rewrite IH, should_count_cycle_eq.
    set (n := Z.max 1 (clicks_per_cycle cfg)).
    replace (Z.of_nat (S k) - 1) with (Z.of_nat k) by lia.
    replace (Z.of_nat (S k) + n - 1) with (Z.of_nat k + n) by lia.
    rewrite (div_step (Z.of_nat k) n) by lia.
    destruct (Z.of_nat k mod n =? 0); reflexivity.
Qed.

(** ** The whole effect of the automatic rules *)

Lemma set_flags_same w : set_flags (stop_event w) (pause_event w) w = w.
Proof. destruct w; reflexivity. Qed.

(** X2.  Once the run has started, one call of [maybe_pause_or_stop] changes
    only the two events: stop becomes set when a stop rule is met, and pause
    becomes set when a pause rule is met and no stop rule is.  A second call
    on the result changes nothing more. *)
Theorem maybe_pause_or_stop_effect
    (cfg : CounterConfig) (base : Z) (w : World) (t0 : Q) :
  run_start_time w = Some t0 ->
  maybe_pause_or_stop cfg base w
  = set_flags (stop_event w || stop_rule_met cfg base w t0)
              (pause_event w
               || (negb (stop_rule_met cfg base w t0)
                   && pause_rule_met cfg base w t0)) w
  /\ maybe_pause_or_stop cfg base (maybe_pause_or_stop cfg base w)
     = maybe_pause_or_stop cfg base w.
Proof.
  intros Hs.
  unfold maybe_pause_or_stop, stop_rule_met, pause_rule_met.
  destruct w as [t s p sc r tr c1 c2 spt sat ppc rst cp ct].
  cbn in Hs. subst rst. cbn.
  destruct (reached_count (target_cycles cfg) (base + c2)) eqn:E1,
    (reached_minutes (stop_after_minutes cfg) ((t - t0) / 60)) eqn:E2,
    (reached_count (pause_at_cycles cfg) (base + c2)) eqn:E3,
    (reached_minutes (pause_after_minutes cfg) ((t - t0) / 60)) eqn:E4,
    s, p; cbn; rewrite ?E1, ?E2, ?E3, ?E4; cbn; split; reflexivity.
Qed.

Lemma maybe_pause_or_stop_effect_witness :
  run_start_time one_cycle_world = Some 0%Q
  /\ pause_event (maybe_pause_or_stop pause_at_one 0 one_cycle_world) = true
  /\ stop_event (maybe_pause_or_stop pause_at_one 0 one_cycle_world) = false.
Proof.
  split; [reflexivity |].
  destruct (maybe_pause_or_stop_effect pause_at_one 0 one_cycle_world 0 eq_refl)
    as [E _].
  rewrite E. split; reflexivity.
Defined.

(** ** The tables of [run_cycles] *)

Lemma py_range_In (n x : Z) : In x (py_range n) <-> 0 <= x < n.
Proof.
  unfold py_range. rewrite in_map_iff. split.
  - intros (i & <- & Hi). apply in_seq in Hi. lia.
  - intros H. exists (Z.to_nat x). split; [lia |]. apply in_seq. lia.
Qed.

Lemma positions_In (rows_ cols_ r c : Z) :
  In (r, c) (positions rows_ cols_) <-> (0 <= r < rows_ /\ 0 <= c < cols_).
Proof.
  unfold positions. rewrite in_flat_map. split.
  - intros (r' & Hr & Hc). apply in_map_iff in Hc.
    destruct Hc as (c' & E & Hc). injection E as -> ->.
    apply py_range_In in Hr. apply py_range_In in Hc. tauto.
  - intros [Hr Hc]. exists r. split; [apply py_range_In; exact Hr |].
    apply in_map_iff. exists c. split; [reflexivity |].
    apply py_range_In. exact Hc.
Qed.

(** The dict comprehension has a key for each position of the grid and for
    nothing else. *)
Lemma table_lookup {V} (rows_ cols_ : Z) (v : V) (r c : Z) :
  table rows_ cols_ v !! (r, c)
  = if (0 <=? r) && (r <? rows_) && (0 <=? c) && (c <? cols_)
    then Some v else None.
Proof.
  unfold table.
  destruct ((0 <=? r) && (r <? rows_) && (0 <=? c) && (c <? cols_)) eqn:E.
  - assert (Hin : In (r, c) (positions rows_ cols_)) by (apply positions_In; lia).
    destruct (list_to_map (map (fun p => (p, v)) (positions rows_ cols_))
                !! (r, c)) as [x |] eqn:L.
    + apply elem_of_list_to_map_2 in L. apply list_elem_of_In in L.
      apply in_map_iff in L. destruct L as (p & Ep & _).
      injection Ep as _ <-. reflexivity.
    + exfalso. apply not_elem_of_list_to_map in L. apply L.
      apply list_elem_of_fmap. exists ((r, c), v). split; [reflexivity |].
      apply list_elem_of_In. apply in_map_iff. exists (r, c). tauto.
  - apply not_elem_of_list_to_map. intros Hin.
    apply list_elem_of_fmap in Hin. destruct Hin as ([p x] & Ep & Hin).
    cbn in Ep. subst p. apply list_elem_of_In in Hin.
    apply in_map_iff in Hin. destruct Hin as (q & Eq & Hq).
    injection Eq as ->. apply positions_In in Hq. lia.
Qed.

(** ** Results without exceptions *)

Lemma ensures_bind {A B} (m : M A) (k : A -> M B) (w : World)
    (P : A -> World -> Prop) (Q : B -> World -> Prop) :
  ensures (m w) P ->
  (forall a w1, P a w1 -> ensures (k a w1) Q) ->
  ensures (bind m k w) Q.
Proof.
  unfold bind. destruct (m w) as [a w1 | e w1 |]; simpl; intros H K;
    [apply K; exact H | exact H | exact I].
Qed.

Lemma ensures_weaken {A} (r : Result A) (P Q : A -> World -> Prop) :
  ensures r P -> (forall a w1, P a w1 -> Q a w1) -> ensures r Q.
Proof.
  destruct r as [a w1 | e w1 |]; simpl; intros H K;
    [apply K; exact H | exact H | exact I].
Qed.

Lemma Ble_refl b : Bool.le b b.
Proof. destruct b; exact I || reflexivity. Qed.

Lemma Ble_trans a b c : Bool.le a b -> Bool.le b c -> Bool.le a c.
Proof. destruct a, b, c; simpl; intros; congruence || exact I. Qed.

Lemma Idles_refl w : Idles w w.
Proof.
  split; try reflexivity; [lra | apply Ble_refl | exists []; reflexivity].
Qed.

Lemma Idles_trans w1 w2 w3 : Idles w1 w2 -> Idles w2 w3 -> Idles w1 w3.
Proof.
  intros [? ? ? [u1 E1] ? ? ? ? ?] [? ? ? [u2 E2] ? ? ? ? ?].
  split; try congruence; [lra | eapply Ble_trans; eassumption |].
  exists (u1 ++ u2). rewrite E1, E2. apply app_assoc.
Qed.

Lemma Advances_refl w : Advances w w.
Proof. split; try reflexivity; [lra | apply Ble_refl]. Qed.

Lemma Advances_trans w1 w2 w3 :
  Advances w1 w2 -> Advances w2 w3 -> Advances w1 w3.
Proof.
  intros [] []. split; try congruence; [lra | eapply Ble_trans; eassumption].
Qed.

Lemma Idles_Advances w w' : Idles w w' -> Advances w w'.
Proof. intros []. split; assumption. Qed.

Lemma on_control_fields k w :
  rng (on_control k w) = rng w
  /\ session_clicks (on_control k w) = session_clicks w
  /\ session_cycles_added (on_control k w) = session_cycles_added w
  /\ per_position_clicks (on_control k w) = per_position_clicks w
  /\ run_start_time (on_control k w) = run_start_time w
  /\ cycle_times (on_control k w) = cycle_times w.
Proof. destruct k; cbn; repeat split. Qed.

Lemma deliver_fields ks : forall w,
  rng (deliver ks w) = rng w
  /\ session_clicks (deliver ks w) = session_clicks w
  /\ session_cycles_added (deliver ks w) = session_cycles_added w
  /\ per_position_clicks (deliver ks w) = per_position_clicks w
  /\ run_start_time (deliver ks w) = run_start_time w
  /\ cycle_times (deliver ks w) = cycle_times w.
Proof.
  unfold deliver.
  induction ks as [| k ks IH]; intros w; simpl; [repeat split |].
  destruct (IH (on_control k w)) as (H1 & H2 & H3 & H4 & H5 & H6).
  destruct (on_control_fields k w) as (G1 & G2 & G3 & G4 & G5 & G6).
  rewrite H1, H2, H3, H4, H5, H6. repeat split; assumption.
Qed.

(** A slice of a length that is not negative is slept without exception. *)
Lemma time_sleep_ensures s w :
  (0 <= s)%Q ->
  ensures (time_sleep s w) (fun _ w' => Idles w w').
Proof.
  intros Hs. unfold time_sleep.
  destruct (Qlt_le_dec s 0) as [Hneg | _]; [lra |]. simpl.
  match goal with |- Idles _ (deliver ?ks ?v) =>
    destruct (deliver_frame ks v) as (Hn & Ht & _ & Hle);
    destruct (deliver_fields ks v) as (H1 & H2 & H3 & H4 & H5 & H6) end.
  split; rewrite ?Hn, ?Ht, ?H1, ?H2, ?H3, ?H4, ?H5, ?H6; cbn; try reflexivity;
    [lra | exact Hle | exists []; reflexivity].
Qed.

Lemma wait_if_paused_loop_ensures fuel step : forall w,
  (0 <= step)%Q ->
  ensures (wait_if_paused_loop fuel step w)
    (fun _ w' => Idles w w'
                 /\ (pause_event w' = false \/ stop_event w' = true)).
Proof.
  induction fuel as [| fuel IH]; intros w Hs; simpl; [exact I |].
  destruct (pause_event w) eqn:Ep; simpl.
  - destruct (stop_event w) eqn:Es; simpl.
    + split; [apply Idles_refl | right; exact Es].
    + eapply ensures_bind; [apply time_sleep_ensures; exact Hs |].
      intros u w1 H1. simpl in H1 |- *.
      eapply ensures_weaken; [apply IH; exact Hs |].
      intros u2 w2 [H2 Hp]. split; [| exact Hp].
      eapply Idles_trans; eassumption.
  - split; [apply Idles_refl | left; exact Ep].
Qed.

Lemma wait_if_paused_ensures fuel step w :
  (0 <= step)%Q ->
  ensures (wait_if_paused fuel step w)
    (fun pd w' => Idles w w'
                  /\ (pause_event w' = false \/ stop_event w' = true)
                  /\ pd = (now w' - now w)%Q).
Proof.
  intros Hs. unfold wait_if_paused, bind, get, ret.
  pose proof (wait_if_paused_loop_ensures fuel step w Hs) as H.
  destruct (wait_if_paused_loop fuel step w) as [[] w1 | e w1 |]; simpl in *;
    [| exact H | exact I].
  destruct H as [H Hp]. split; [exact H |]. split; [exact Hp | reflexivity].
Qed.

(** X3.  [wait_if_paused] comes back only with the pause event clear or the
    stop event set, and what it returns is the time it took, never negative.
    Called when the run is not paused, or when it is stopped, it returns at
    once: no sleep, the world as it was. *)
Theorem wait_if_paused_returns
    (fuel : nat) (step : Q) (w : World) (pd : Q) (w' : World) :
  wait_if_paused fuel step w = Done pd w' ->
  (pause_event w' = false \/ stop_event w' = true)
  /\ pd = (now w' - now w)%Q
  /\ (0 <= pd)%Q
  /\ (pause_event w = false \/ stop_event w = true -> w' = w).
Proof.
  intros H.
  assert (Hpd : pd = (now w' - now w)%Q).
  { apply wait_if_paused_done in H. tauto. }
  assert (Himm : pause_event w = false \/ stop_event w = true -> w' = w).
  { intros Hq. unfold wait_if_paused, bind, get, ret in H.
    destruct fuel as [| fuel]; simpl in H; [discriminate |].
    replace (pause_event w && negb (stop_event w)) with false in H
      by (destruct Hq as [-> | ->]; [reflexivity | rewrite andb_false_r; reflexivity]).
    injection H as _ <-. reflexivity. }
  destruct (Qlt_le_dec step 0) as [Hneg | Hpos].
  - (* a negative step: no slice can have been slept *)
    assert (E : w' = w).
    { unfold wait_if_paused, bind, get, ret in H.
      destruct fuel as [| fuel]; simpl in H; [discriminate |].
      destruct (pause_event w && negb (stop_event w)) eqn:Eb.
      - unfold bind, time_sleep in H.
        destruct (Qlt_le_dec step 0) as [_ | Hc]; [discriminate | lra].
      - injection H as _ <-. reflexivity. }
    subst w' pd. split; [| split; [reflexivity | split; [lra | intros _; reflexivity]]].
    unfold wait_if_paused, bind, get, ret in H.
    destruct fuel as [| fuel]; simpl in H; [discriminate |].
    destruct (pause_event w) eqn:Ep; [| left; reflexivity].
    destruct (stop_event w) eqn:Es; [right; reflexivity |].
    simpl in H. unfold bind, time_sleep in H.
    destruct (Qlt_le_dec step 0) as [_ | Hc]; [discriminate | lra].
  - pose proof (wait_if_paused_ensures fuel step w Hpos) as G.
    rewrite H in G. simpl in G. destruct G as (Hsl & Hp & _).
    repeat split; try assumption.
    rewrite Hpd. destruct Hsl. lra.
Qed.

Lemma add_session_pause_time_Idles pd w :
  ensures (add_session_pause_time pd w) (fun _ w' => Idles w w').
Proof.
  unfold add_session_pause_time, modify. simpl.
  split; cbn; try reflexivity; [lra | apply Ble_refl | exists []; reflexivity].
Qed.

Lemma sleep_interruptible_loop_ensures fuel step :
  (0 <= step)%Q ->
  forall end_ total w,
    ensures (sleep_interruptible_loop fuel step end_ total w)
      (fun _ w' => Idles w w'
                   /\ (stop_event w' = false -> (end_ <= now w')%Q)).
Proof.
  intros Hstep.
  induction fuel as [| fuel IH]; intros end_ total w; simpl; [exact I |].
  destruct (Qlt_le_dec (now w) end_) as [Hlt | Hge]; simpl;
    [| split; [apply Idles_refl | intros _; exact Hge]].
  destruct (stop_event w) eqn:Es; simpl.
  { split; [apply Idles_refl | intros G; congruence]. }
  destruct (pause_event w) eqn:Ep.
  - eapply ensures_bind.
    { apply wait_if_paused_ensures. apply Q.max_le_iff. left. exact Hstep. }
    intros pd w1 (H1 & _ & Hpd). simpl.
    eapply ensures_bind; [apply add_session_pause_time_Idles |].
    intros u w2 H2. simpl in H2.
    eapply ensures_weaken; [apply IH |].
    intros r w3 [H3 Hend]. simpl. split.
    + eapply Idles_trans; [exact H1 |]. eapply Idles_trans; eassumption.
    + intros G. specialize (Hend G). rewrite Hpd in Hend. destruct H1. lra.
  - eapply ensures_bind; [apply time_sleep_ensures; exact Hstep |].
    intros u w1 H1. simpl in H1.
    eapply ensures_weaken; [apply IH |].
    intros r w2 [H2 Hend]. simpl. split; [| exact Hend].
    eapply Idles_trans; eassumption.
Qed.

Lemma sleep_interruptible_ensures fuel d step w :
  (0 <= step)%Q ->
  ensures (sleep_interruptible fuel d step w)
    (fun _ w' => Idles w w'
                 /\ (stop_event w' = false -> (now w + d <= now w')%Q)).
Proof.
  intros Hstep. unfold sleep_interruptible, bind, get.
  apply sleep_interruptible_loop_ensures. exact Hstep.
Qed.

Lemma default_sleep_step_nonneg : (0 <= default_sleep_step)%Q.
Proof. discriminate. Qed.

Lemma default_wait_step_nonneg : (0 <= default_wait_step)%Q.
Proof. discriminate. Qed.

(** ** Random delays and offsets *)

Lemma random_random_ensures w :
  ensures (random_random w)
    (fun u w' => Idles w w'
                 /\ (Forall unit_draw (rng w) ->
                     unit_draw u /\ Forall unit_draw (rng w'))).
Proof.
  unfold random_random. destruct (rng w) as [| u r] eqn:E; simpl.
  - split; [apply Idles_refl |]. intros _. rewrite E.
    split; [split; reflexivity || discriminate | constructor].
  - split.
    + split; cbn; try reflexivity; [lra | apply Ble_refl |].
      exists [u]. rewrite E. reflexivity.
    + intros H. inversion H; subst. split; assumption.
Qed.

Lemma random_randint_ensures a b w :
  a <= b ->
  ensures (random_randint a b w)
    (fun n w' => Idles w w'
                 /\ (Forall unit_draw (rng w) ->
                     a <= n <= b /\ Forall unit_draw (rng w'))).
Proof.
  intros Hab. unfold random_randint.
  eapply ensures_bind; [apply random_random_ensures |].
  intros u w1 [H1 Hu]. unfold ret, ensures. split; [exact H1 |].
  intros Hrng. destruct (Hu Hrng) as [[Hu0 Hu1] Hr]. split; [| exact Hr].
  assert (HN : (0 < inject_Z (b - a + 1))%Q).
  { change 0%Q with (inject_Z 0). rewrite <- Zlt_Qlt. lia. }
  assert (Hlo : 0 <= Qfloor (inject_Z (b - a + 1) * u)).
  { rewrite <- (Qfloor_Z 0). apply Qfloor_resp_le.
    change (inject_Z 0) with 0%Q. apply Qmult_le_0_compat; lra. }
  assert (Hhi : Qfloor (inject_Z (b - a + 1) * u) < b - a + 1).
  { rewrite Zlt_Qlt. eapply Qle_lt_trans; [apply Qfloor_le |].
    rewrite <- (Qmult_1_r (inject_Z (b - a + 1))) at 2.
    apply Qmult_lt_l; assumption. }
  lia.
Qed.

Lemma bind_get {A B} (f : World -> A) (k : A -> M B) w :
  bind (get f) k w = k (f w) w.
Proof. reflexivity. Qed.

Lemma bind_get_ret {A} (f : World -> A) w :
  get f w = Done (f w) w.
Proof. reflexivity. Qed.

Lemma bind_modify {B} (f : World -> World) (k : unit -> M B) w :
  bind (modify f) k w = k tt (f w).
Proof. reflexivity. Qed.

Lemma bind_click {B} (x y : Z) (k : unit -> M B) w :
  bind (pyautogui_click x y) k w
  = k tt (record (Clicked x y (stop_event w)) w).
Proof. reflexivity. Qed.

Lemma record_click_Advances x y b w :
  Advances w (record (Clicked x y b) w)
  /\ clicks (trace (record (Clicked x y b) w)) = clicks (trace w) ++ [(x, y)]
  /\ stop_event (record (Clicked x y b) w) = stop_event w.
Proof.
  split; [| split; reflexivity].
  split; cbn; try reflexivity; [lra | apply Ble_refl].
Qed.

Lemma jittered_ensures base jitter w :
  ensures (jittered base jitter w) (fun _ w' => Idles w w').
Proof.
  unfold jittered. destruct (Qle_bool jitter 0).
  - unfold ret. simpl. apply Idles_refl.
  - unfold random_uniform.
    eapply (ensures_bind _ _ _ (fun _ w' => Idles w w')).
    { eapply ensures_bind; [apply random_random_ensures |].
      intros u w1 [H1 _]. unfold ret, ensures. exact H1. }
    intros u w1 H1. unfold ret, ensures. exact H1.
Qed.

(** X4.  [jittered] never returns a negative delay.  With [jitter <= 0] it
    returns [max(0, base)] and draws nothing; with [jitter > 0] the delay
    lies between [max(0, base - jitter)] and [max(0, base + jitter)]. *)
Theorem jittered_range (base jitter : Q) (w : World) (q : Q) (w' : World) :
  jittered base jitter w = Done q w' ->
  Forall unit_draw (rng w) ->
  (0 <= q)%Q
  /\ ((jitter <= 0)%Q -> q = Qmax 0 base /\ w' = w)
  /\ ((0 < jitter)%Q ->
      (Qmax 0 (base - jitter) <= q /\ q <= Qmax 0 (base + jitter))%Q).
Proof.
  unfold jittered. intros H Hrng.
  destruct (Qle_bool jitter 0) eqn:Ej.
  - apply Qle_bool_iff in Ej. unfold ret in H. injection H as <- <-.
    split; [apply Q.le_max_l |]. split; [intros _; split; reflexivity |].
    intros Hpos. lra.
  - assert (Hj : (0 < jitter)%Q).
    { destruct (Qlt_le_dec 0 jitter) as [G | G]; [exact G |].
      apply Qle_bool_iff in G. congruence. }
    unfold random_uniform, bind, ret in H.
    pose proof (random_random_ensures w) as Hu.
    destruct (random_random w) as [u w1 | e w1 |]; simpl in Hu;
      try discriminate.
    injection H as <- <-.
    destruct Hu as [_ Hu]. destruct (Hu Hrng) as [[Hu0 Hu1] _].
    split; [apply Q.le_max_l |]. split; [intros G; lra |].
    intros _.
    assert (Hm0 : (0 <= (jitter - - jitter) * u)%Q)
      by (apply Qmult_le_0_compat; lra).
    assert (Hm1 : ((jitter - - jitter) * u <= (jitter - - jitter) * 1)%Q)
      by (apply Qmult_le_l; lra).
    split; apply Q.max_le_compat_l; lra.
Qed.

Lemma random_offset_ensures px w :
  ensures (random_offset px w)
    (fun off w' => Idles w w'
       /\ (Forall unit_draw (rng w) ->
           - Z.max 0 px <= fst off <= Z.max 0 px
           /\ - Z.max 0 px <= snd off <= Z.max 0 px)).
Proof.
  unfold random_offset. destruct (Z.leb_spec px 0) as [Hle | Hgt].
  - unfold ret, ensures. split; [apply Idles_refl |]. intros _. cbn. lia.
  - eapply ensures_bind; [apply random_randint_ensures; lia |].
    intros dx w1 [H1 Hdx].
    eapply ensures_bind; [apply random_randint_ensures; lia |].
    intros dy w2 [H2 Hdy]. unfold ret, ensures.
    split; [eapply Idles_trans; eassumption |].
    intros Hrng. destruct (Hdx Hrng) as [Bx Hr1].
    destruct (Hdy Hr1) as [By _]. cbn. lia.
Qed.

Lemma between_positions_ensures fuel t w :
  ensures (between_positions fuel t w) (fun _ w' => Idles w w').
Proof.
  unfold between_positions.
  eapply ensures_bind; [apply jittered_ensures |].
  intros q w1 H1. cbv beta in H1.
  eapply ensures_bind;
    [apply sleep_interruptible_ensures; apply default_sleep_step_nonneg |].
  intros r w2 [H2 _]. unfold ret, ensures.
  eapply Idles_trans; eassumption.
Qed.

(** What [click_position] does to the clicks made so far: [n] clicks more,
    all at the centre moved by one offset. *)
Lemma click_position_ensures fuel x y g t w :
  ensures (click_position fuel x y g t w)
    (fun _ w' =>
       Advances w w'
       /\ exists (dx dy : Z) (n : nat),
            clicks (trace w') = clicks (trace w) ++ repeat (x + dx, y + dy) n
            /\ (n <= 2)%nat
            /\ (always_second_click t = false -> (n <= 1)%nat)
            /\ (stop_event w = true -> n = 0%nat)
            /\ (stop_event w = false -> (1 <= n)%nat)
            /\ (Forall unit_draw (rng w) ->
                - Z.max 0 (random_offset_px g) <= dx <= Z.max 0 (random_offset_px g)
                /\ - Z.max 0 (random_offset_px g) <= dy
                   <= Z.max 0 (random_offset_px g))).
Proof.
  unfold click_position. rewrite bind_get.
  destruct (stop_event w) eqn:Es.
  { unfold ret, ensures. split; [apply Advances_refl |].
    exists 0, 0, 0%nat. cbn. rewrite app_nil_r.
    repeat split; try lia; try congruence. }
  eapply ensures_bind;
    [apply wait_if_paused_ensures; apply default_wait_step_nonneg |].
  intros pd w1 (H1 & _ & _).
  eapply ensures_bind; [apply random_offset_ensures |].
  intros [dx dy] w2 [H2 Hoff]. cbn [fst snd] in *.
  rewrite bind_click.
  destruct (record_click_Advances (x + dx) (y + dy) (stop_event w2) w2)
    as (H3 & Hc3 & Hs3).
  set (w3 := record (Clicked (x + dx) (y + dy) (stop_event w2)) w2) in *.
  assert (H03 : Advances w w3).
  { eapply Advances_trans; [apply Idles_Advances; exact H1 |].
    eapply Advances_trans; [apply Idles_Advances; exact H2 | exact H3]. }
  assert (Hc03 : clicks (trace w3) = clicks (trace w) ++ [(x + dx, y + dy)]).
  { rewrite Hc3. destruct H1, H2. congruence. }
  assert (Hb : Forall unit_draw (rng w) ->
               - Z.max 0 (random_offset_px g) <= dx <= Z.max 0 (random_offset_px g)
               /\ - Z.max 0 (random_offset_px g) <= dy
                  <= Z.max 0 (random_offset_px g)).
  { intros Hrng. apply Hoff. destruct H1 as [_ _ _ [used E] _ _ _ _ _].
    rewrite E in Hrng. apply Forall_app in Hrng. tauto. }
  assert (Once : forall w', Idles w3 w' ->
            Advances w w'
            /\ exists (dx' dy' : Z) (n : nat),
                 clicks (trace w') = clicks (trace w) ++ repeat (x + dx', y + dy') n
                 /\ (n <= 2)%nat
                 /\ (always_second_click t = false -> (n <= 1)%nat)
                 /\ (false = true -> n = 0%nat)
                 /\ (false = false -> (1 <= n)%nat)
                 /\ (Forall unit_draw (rng w) ->
                     - Z.max 0 (random_offset_px g) <= dx'
                       <= Z.max 0 (random_offset_px g)
                     /\ - Z.max 0 (random_offset_px g) <= dy'
                        <= Z.max 0 (random_offset_px g))).
  { intros w' Hi. split.
    - eapply Advances_trans; [exact H03 | apply Idles_Advances; exact Hi].
    - exists dx, dy, 1%nat. destruct Hi as [_ _ Hcl _ _ _ _ _ _].
      rewrite Hcl, Hc03. cbn. repeat split; try lia; try congruence; apply Hb; assumption. }
  rewrite bind_get.
  destruct (stop_event w3) eqn:Es3.
  { unfold ret, ensures. apply Once. apply Idles_refl. }
  destruct (always_second_click t) eqn:Et.
  2:{ eapply ensures_weaken; [apply between_positions_ensures |].
      intros u w4 H4. cbv beta in H4 |- *. apply Once. exact H4. }
  eapply ensures_bind; [apply jittered_ensures |].
  intros q w4 H4. cbv beta in H4.
  eapply ensures_bind;
    [apply sleep_interruptible_ensures; apply default_sleep_step_nonneg |].
  intros r w5 [H5 _]. rewrite bind_get.
  assert (H35 : Idles w3 w5) by (eapply Idles_trans; eassumption).
  destruct (stop_event w5) eqn:Es5.
  { unfold ret, ensures. apply Once. exact H35. }
  eapply ensures_bind;
    [apply wait_if_paused_ensures; apply default_wait_step_nonneg |].
  intros pd6 w6 (H6 & _ & _). rewrite bind_click.
  destruct (record_click_Advances (x + dx) (y + dy) (stop_event w6) w6)
    as (H7 & Hc7 & Hs7).
  set (w7 := record (Clicked (x + dx) (y + dy) (stop_event w6)) w6) in *.
  eapply ensures_weaken; [apply between_positions_ensures |].
  intros u w8 H8. cbv beta in H8 |- *. split.
  - eapply Advances_trans; [exact H03 |].
    eapply Advances_trans; [apply Idles_Advances; exact H35 |].
    eapply Advances_trans; [apply Idles_Advances; exact H6 |].
    eapply Advances_trans; [exact H7 | apply Idles_Advances; exact H8].
  - exists dx, dy, 2%nat.
    destruct H8 as [_ _ Hc8 _ _ _ _ _ _]. destruct H6 as [_ _ Hc6 _ _ _ _ _ _].
    destruct H35 as [_ _ Hc5 _ _ _ _ _ _].
    rewrite Hc8, Hc7, Hc6, Hc5, Hc03, <- app_assoc. cbn.
    repeat split; try lia; try congruence; apply Hb; assumption.
Qed.

(** ** Sums over the click counts *)

Lemma total_over_insert (f : Z -> Z) (m : gmap (Z * Z) Z) (k : Z * Z) (a b : Z) :
  m !! k = Some a ->
  total_over f (<[k := b]> m) = total_over f m - f a + f b.
Proof.
  intros Hk. unfold total_over.
  rewrite (map_fold_delete_L _ _ k a m); [| intros; lia | exact Hk].
  rewrite <- (insert_delete_eq m k b).
  rewrite map_fold_insert_L; [lia | intros; lia | apply lookup_delete_eq].
Qed.

Lemma total_over_zero (f : Z -> Z) (m : gmap (Z * Z) Z) :
  (forall k v, m !! k = Some v -> f v = 0) ->
  total_over f m = 0.
Proof.
  unfold total_over.
  apply (map_fold_weak_ind
           (fun acc m' => (forall k v, m' !! k = Some v -> f v = 0) -> acc = 0)).
  - intros _. reflexivity.
  - intros k v m' acc Hnone IH H.
    rewrite (H k v) by apply lookup_insert_eq.
    rewrite IH; [reflexivity |].
    intros k' v' Hk'. apply (H k' v').
    rewrite lookup_insert_ne; [exact Hk' |]. intros ->. congruence.
Qed.

Lemma cycles_after_succ (n v : Z) :
  1 <= n ->
  cycles_after n (v + 1) = cycles_after n v + (if v mod n =? 0 then 1 else 0).
Proof.
  intros Hn. unfold cycles_after.
  pose proof (Z.div_mod v n ltac:(lia)) as D.
  pose proof (Z.mod_pos_bound v n ltac:(lia)) as B.
  rewrite <- (Z.div_unique_pos (v + 1 + n - 1) n (v / n + 1) (v mod n)) by lia.
  destruct (Z.eqb_spec (v mod n) 0) as [E | E].
  - rewrite <- (Z.div_unique_pos (v + n - 1) n (v / n) (n - 1)) by lia. lia.
  - rewrite <- (Z.div_unique_pos (v + n - 1) n (v / n + 1) (v mod n - 1)) by lia.
    lia.
Qed.

Lemma covers_insert {V} (rows_ cols_ : Z) (m : gmap (Z * Z) V) (k : Z * Z) (v : V) :
  covers rows_ cols_ m -> covers rows_ cols_ (<[k := v]> m).
Proof.
  intros H r c Hr Hc. apply lookup_insert_is_Some'. right. apply H; assumption.
Qed.

Lemma covers_table {V} (rows_ cols_ : Z) (v : V) :
  covers rows_ cols_ (table rows_ cols_ v).
Proof.
  intros r c Hr Hc. rewrite table_lookup.
  replace ((0 <=? r) && (r <? rows_) && (0 <=? c) && (c <? cols_)) with true
    by (symmetry; rewrite !andb_true_iff; repeat split; lia).
  eexists. reflexivity.
Qed.

Lemma run_invariant_Advances st (rows_ cols_ : Z) ready_at w w' :
  Advances w w' ->
  run_invariant st rows_ cols_ ready_at w ->
  run_invariant st rows_ cols_ ready_at w'.
Proof.
  intros [_ _ Hc Hy Hp Hs _] (H1 & H2 & [H3 H4] & H5).
  unfold run_invariant, counters_agree. rewrite Hc, Hy, Hp, Hs.
  repeat split; assumption.
Qed.

(** ** One visit *)

Lemma maybe_pause_or_stop_fields cfg base w :
  now (maybe_pause_or_stop cfg base w) = now w
  /\ session_clicks (maybe_pause_or_stop cfg base w) = session_clicks w
  /\ session_cycles_added (maybe_pause_or_stop cfg base w)
     = session_cycles_added w
  /\ per_position_clicks (maybe_pause_or_stop cfg base w)
     = per_position_clicks w
  /\ run_start_time (maybe_pause_or_stop cfg base w) = run_start_time w
  /\ Bool.le (stop_event w) (stop_event (maybe_pause_or_stop cfg base w))
  /\ cycle_times (maybe_pause_or_stop cfg base w) = cycle_times w.
Proof.
  unfold maybe_pause_or_stop.
  destruct (run_start_time w) as [t0 |] eqn:Es; cbv zeta;
    [| repeat split; try assumption; apply Ble_refl].
  repeat match goal with
         | |- context [if ?b then _ else _] => destruct b
         end; cbn; repeat split; try assumption;
    destruct (stop_event w); exact I || reflexivity.
Qed.

(** The rules leave the stop event clear only when no stop rule is met. *)
Lemma maybe_pause_or_stop_continues cfg base w t0 :
  run_start_time w = Some t0 ->
  stop_event (maybe_pause_or_stop cfg base w) = false ->
  stop_rule_met cfg base w t0 = false.
Proof.
  intros Hs Hc. destruct (stop_rule_met cfg base w t0) eqn:E; [| reflexivity].
  rewrite (maybe_pause_or_stop_stops _ _ _ _ Hs E) in Hc. discriminate Hc.
Qed.

Lemma counters_agree_visit cfg (w w' : World) (k : Z * Z) (n : Z) :
  per_position_clicks w !! k = Some n ->
  session_clicks w' = session_clicks w + 1 ->
  per_position_clicks w' = <[k := n + 1]> (per_position_clicks w) ->
  session_cycles_added w'
  = session_cycles_added w
    + (if n mod Z.max 1 (clicks_per_cycle cfg) =? 0 then 1 else 0) ->
  counters_agree cfg w -> counters_agree cfg w'.
Proof.
  intros Hk Hc Hp Hy [A1 A2]. unfold counters_agree.
  rewrite Hc, Hp, Hy, !(total_over_insert _ _ _ n) by exact Hk.
  rewrite cycles_after_succ by lia. lia.
Qed.

(** The wait for a position that is ready at [t]: it ends with the stop
    event set, or not before [t]. *)
Lemma wait_until_ready_ensures fuel p ready_at w t :
  ready_at !! p = Some t ->
  ensures (wait_until_ready fuel p ready_at w)
    (fun (stopped : bool) w' =>
       Idles w w'
       /\ (stopped = false -> (t <= now w')%Q)
       /\ (stopped = true -> stop_event w' = true)).
Proof.
  intros Hra. unfold wait_until_ready. rewrite bind_get.
  unfold cooldown_wait. rewrite Hra.
  destruct (Qlt_le_dec 0 (t - now w)) as [Hw | Hw].
  - eapply ensures_bind;
      [apply sleep_interruptible_ensures; apply default_sleep_step_nonneg |].
    intros q w1 [H1 Hend]. rewrite bind_get_ret. unfold ensures.
    split; [exact H1 |]. split; [| tauto].
    intros G. specialize (Hend G). lra.
  - unfold ret, ensures. split; [apply Idles_refl |].
    split; [intros _; lra | discriminate].
Qed.

Lemma visit_position_ensures fuel st r c ready_at w t n :
  ready_at !! (r, c) = Some t ->
  per_position_clicks w !! (r, c) = Some n ->
  ensures (visit_position fuel st r c ready_at w)
          (visit_post st r c ready_at t n w).
Proof.
  intros Hra Hn. unfold visit_position. rewrite bind_get.
  destruct (stop_event w) eqn:Es.
  { unfold ret, ensures, visit_post. cbn [fst snd].
    split; [| split; [| split; [| split; [| split; [| split]]]]];
      [lra | apply Ble_refl | reflexivity | reflexivity | tauto | tauto
      | split; [reflexivity | exact Es]]. }
  eapply ensures_bind;
    [apply wait_if_paused_ensures; apply default_wait_step_nonneg |].
  intros pd w1 (H1 & _ & _). rewrite bind_modify.
  set (w2 := set_current_position (Some (r, c)) w1).
  assert (H2 : Idles w w2).
  { destruct H1. split; cbn; assumption. }
  eapply ensures_bind; [apply (wait_until_ready_ensures _ _ _ _ t Hra) |].
  intros stopped w3 (H3 & Ht & Hst). cbv beta.
  assert (H03 : Idles w w3) by (eapply Idles_trans; eassumption).
  destruct stopped.
  { unfold ret, ensures, visit_post. cbn [fst snd].
    destruct H03 as [Hn03 Hs03 _ _ Hc03 Hy03 Hp03 Hr03 Ht03].
    split; [| split; [| split; [| split; [| split; [| split]]]]].
    - exact Hn03.
    - exact Hs03.
    - exact Hr03.
    - exact Ht03.
    - unfold counters_agree. rewrite Hc03, Hy03, Hp03. tauto.
    - intros p. rewrite Hp03. tauto.
    - split; [reflexivity | apply Hst; reflexivity]. }
  specialize (Ht eq_refl). unfold click_and_count. cbv zeta.
  eapply ensures_bind; [apply click_position_ensures |].
  intros u w4 [H4 _]. rewrite bind_modify.
  assert (H04 : Advances w w4).
  { eapply Advances_trans; [apply Idles_Advances; exact H03 | exact H4]. }
  assert (Ht4 : (t <= now w4)%Q) by (destruct H4; lra).
  destruct H04 as [Hn04 Hs04 Hc04 Hy04 Hp04 Hr04 Hct04].
  set (w5 := set_counters (session_clicks w4 + 1) (session_cycles_added w4) w4).
  unfold bind at 1, count_position_click at 1.
  replace (per_position_clicks w5) with (per_position_clicks w)
    by (symmetry; exact Hp04).
  rewrite Hn.
  set (w6 := set_per_position_clicks (<[(r, c) := n + 1]> (per_position_clicks w)) w5).
  rewrite should_count_cycle_eq.
  replace (n + 1 - 1) with n by lia.
  set (counts := n mod Z.max 1 (clicks_per_cycle (counters st)) =? 0).
  set (w7 := if counts
             then set_counters (session_clicks w6) (session_cycles_added w6 + 1) w6
             else w6).
  assert (E7 : forall B (k : unit -> M B),
             bind (if counts
                   then modify (fun w => set_counters (session_clicks w)
                                           (session_cycles_added w + 1) w)
                   else ret tt) k w6 = k tt w7).
  { intros B k. unfold w7. destruct counts; reflexivity. }
  rewrite E7, bind_modify, bind_get.
  set (w8 := maybe_pause_or_stop (counters st) (start_cycles_done (counters st)) w7).
  destruct (maybe_pause_or_stop_fields (counters st)
              (start_cycles_done (counters st)) w7)
    as (F1 & F2 & F3 & F4 & F5 & F6 & F7).
  fold w8 in F1, F2, F3, F4, F5, F6, F7.
  assert (G7 : now w7 = now w4 /\ session_clicks w7 = session_clicks w + 1
               /\ session_cycles_added w7
                  = session_cycles_added w + (if counts then 1 else 0)
               /\ per_position_clicks w7
                  = <[(r, c) := n + 1]> (per_position_clicks w)
               /\ run_start_time w7 = run_start_time w
               /\ stop_event w7 = stop_event w4
               /\ cycle_times w7 = cycle_times w).
  { unfold w7. destruct counts; cbn; rewrite ?Hc04, ?Hy04, ?Hr04, ?Hct04;
      repeat split; lia. }
  destruct G7 as (G1 & G2 & G3 & G4 & G5 & G6 & G8).
  assert (Hagree : counters_agree (counters st) w ->
                   counters_agree (counters st) w8).
  { apply (counters_agree_visit _ w w8 (r, c) n Hn);
      [rewrite F2; exact G2 | rewrite F4; exact G4 | rewrite F3; exact G3]. }
  assert (Hkeys : forall p, is_Some (per_position_clicks w !! p) ->
                            is_Some (per_position_clicks w8 !! p)).
  { intros p Hp. rewrite F4, G4. apply lookup_insert_is_Some'. right. exact Hp. }
  assert (Hle : Bool.le (stop_event w) (stop_event w8)).
  { eapply Ble_trans; [exact Hs04 |]. rewrite <- G6. exact F6. }
  destruct (stop_event w8) eqn:Es8; unfold ret, ensures, visit_post;
    cbn [fst snd]; (split; [| split; [| split; [| split; [| split; [| split]]]]]).
  - rewrite F1, G1. exact Hn04.
  - rewrite Es8, Es. exact I.
  - rewrite F5. exact G5.
  - rewrite F7. exact G8.
  - exact Hagree.
  - exact Hkeys.
  - split; [reflexivity | exact Es8].
  - rewrite F1, G1. exact Hn04.
  - rewrite Es. exact I.
  - rewrite F5. exact G5.
  - rewrite F7. exact G8.
  - exact Hagree.
  - exact Hkeys.
  - rewrite F1, G1, F2, G2, F4, G4, F3, G3.
    split; [exact Es8 |]. split; [exact Ht4 |]. repeat split.
Qed.

(** ** Results that may be exceptions *)

Lemma ensures_outcome {A} (r : Result A) (P : A -> World -> Prop)
    (E : Exn -> Prop) :
  ensures r P -> outcome r P E.
Proof. destruct r; simpl; intros H; [exact H | contradiction | exact I]. Qed.

Lemma outcome_bind {A B} (m : M A) (k : A -> M B) (w : World)
    (P : A -> World -> Prop) (Q : B -> World -> Prop) (E : Exn -> Prop) :
  outcome (m w) P E ->
  (forall a w1, P a w1 -> outcome (k a w1) Q E) ->
  outcome (bind m k w) Q E.
Proof.
  unfold bind. destruct (m w) as [a w1 | e w1 |]; simpl; intros H K;
    [apply K; exact H | exact H | exact I].
Qed.

Lemma outcome_weaken {A} (r : Result A) (P Q : A -> World -> Prop)
    (E : Exn -> Prop) :
  outcome r P E -> (forall a w1, P a w1 -> Q a w1) -> outcome r Q E.
Proof.
  destruct r as [a w1 | e w1 |]; simpl; intros H K;
    [apply K; exact H | exact H | exact I].
Qed.

Lemma outcome_any {A} (r : Result A) :
  outcome r (fun _ _ => True) (fun _ => True).
Proof. destruct r; exact I. Qed.

(** What a visit that ends in [continue] has done last: the rules found no
    stop rule met, and the position was marked with the time at that
    moment.  No assumption on the tables: a missing key is an exception. *)
Lemma click_and_count_continue fuel st r c ready_at w :
  outcome (click_and_count fuel st r c ready_at w)
    (fun res w' =>
       fst res = Continue ->
       snd res = mark_visited ready_at (r, c) (now w')
                   (cooldown_seconds (timing st))
       /\ stop_event w' = false
       /\ (forall t0, run_start_time w' = Some t0 ->
            stop_rule_met (counters st) (start_cycles_done (counters st))
                          w' t0 = false))
    (fun _ => True).
Proof.
  unfold click_and_count. cbv zeta.
  eapply outcome_bind; [apply outcome_any |].
  intros u w4 _. rewrite bind_modify.
  unfold bind at 1, count_position_click at 1.
  match goal with |- context [per_position_clicks ?v !! (r, c)] =>
    destruct (per_position_clicks v !! (r, c)) as [n |] end; [| exact I].
  rewrite should_count_cycle_eq.
  match goal with |- outcome (bind (if ?b then _ else _) _ ?v) _ _ =>
    set (counts := b); set (w6 := v) end.
  set (w7 := if counts
             then set_counters (session_clicks w6) (session_cycles_added w6 + 1) w6
             else w6).
  assert (E7 : forall B (k : unit -> M B),
             bind (if counts
                   then modify (fun w => set_counters (session_clicks w)
                                           (session_cycles_added w + 1) w)
                   else ret tt) k w6 = k tt w7).
  { intros B k. unfold w7. destruct counts; reflexivity. }
  rewrite E7, bind_modify, bind_get.
  set (w8 := maybe_pause_or_stop (counters st) (start_cycles_done (counters st)) w7).
  destruct (maybe_pause_or_stop_fields (counters st)
              (start_cycles_done (counters st)) w7)
    as (F1 & _ & F3 & _ & F5 & _ & _).
  fold w8 in F1, F3, F5.
  destruct (stop_event w8) eqn:Es8; unfold ret, outcome; cbn [fst snd];
    [discriminate |].
  intros _. split; [reflexivity |]. split; [exact Es8 |].
  intros t0 Ht0. rewrite F5 in Ht0.
  pose proof (maybe_pause_or_stop_continues _ _ _ _ Ht0 Es8) as G.
  unfold stop_rule_met in G |- *. rewrite F1, F3. exact G.
Qed.

Lemma visit_position_continue fuel st r c ready_at w :
  outcome (visit_position fuel st r c ready_at w)
    (fun res w' =>
       fst res = Continue ->
       snd res = mark_visited ready_at (r, c) (now w')
                   (cooldown_seconds (timing st))
       /\ stop_event w' = false
       /\ (forall t0, run_start_time w' = Some t0 ->
            stop_rule_met (counters st) (start_cycles_done (counters st))
                          w' t0 = false))
    (fun _ => True).
Proof.
  unfold visit_position. rewrite bind_get.
  destruct (stop_event w); [unfold ret, outcome; cbn; discriminate |].
  eapply outcome_bind; [apply outcome_any |].
  intros pd w1 _. rewrite bind_modify.
  eapply outcome_bind; [apply outcome_any |].
  intros stopped w3 _. cbv beta.
  destruct stopped; [unfold ret, outcome; cbn; discriminate |].
  apply click_and_count_continue.
Qed.

(** ** The minutes limit in the sweep *)

(** C2, as amended.  With [stop_after_minutes = m] the only limit set and the
    run started at [t0], one call of [maybe_pause_or_stop] leaves the stop
    event set exactly when it was set already or [60 * m] seconds of the
    monotonic clock have gone by since [t0]; nothing about pauses enters, and
    the pause event is not touched.  The first script does the same.  The
    sweep of [autoclicker_grid_V2.py] calls the rules at the end of each
    visit: a visit ends in [continue] only while less than [60 * m] seconds
    of the monotonic clock have gone by. *)
Theorem stop_after_minutes_is_wall_clock
    (cfg : CounterConfig) (base : Z) (w : World) (t0 m : Q) :
  run_start_time w = Some t0 ->
  target_cycles cfg = None ->
  pause_at_cycles cfg = None ->
  pause_after_minutes cfg = None ->
  stop_after_minutes cfg = Some m ->
  (stop_event (maybe_pause_or_stop cfg base w) = true
   <-> stop_event w = true \/ (60 * m <= now w - t0)%Q)
  /\ pause_event (maybe_pause_or_stop cfg base w) = pause_event w
  /\ (forall (lim : V1.Limits) (tot : V1.Totals),
        V1.STOP_AFTER_HARVESTS lim = None ->
        V1.STOP_AFTER_SHOVELS lim = None ->
        V1.PAUSE_AFTER_HARVESTS lim = None ->
        V1.PAUSE_AFTER_MINUTES lim = None ->
        V1.PAUSE_AFTER_SHOVELS lim = None ->
        V1.STOP_AFTER_MINUTES lim = Some m ->
        (stop_event (V1.maybe_pause_or_stop lim tot w) = true
         <-> stop_event w = true \/ (60 * m <= now w - t0)%Q)
        /\ pause_event (V1.maybe_pause_or_stop lim tot w) = pause_event w)
  /\ (forall (fuel : nat) (st : AppState) (r c : Z)
             (ready_at ready_at' : gmap (Z * Z) Q) (w1 w' : World),
        counters st = cfg ->
        visit_position fuel st r c ready_at w1 = Done (Continue, ready_at') w' ->
        run_start_time w' = Some t0 ->
        (now w' - t0 < 60 * m)%Q).
Proof.
  intros Hs Ht Hp Hpm Hm.
  destruct (maybe_pause_or_stop_minutes cfg base w t0 m Hs Ht Hp Hpm Hm)
    as [G1 G2].
  split; [exact G1 |]. split; [exact G2 |]. split.
  - intros lim tot H1 H2 H3 H4 H5 H6.
    apply (V1_maybe_pause_or_stop_minutes lim tot w t0 m); assumption.
  - intros fuel st r c ready_at ready_at' w1 w' Hcfg Hv Hs'.
    pose proof (visit_position_continue fuel st r c ready_at w1) as E.
    rewrite Hv in E. simpl in E.
    destruct (E eq_refl) as (_ & _ & G). specialize (G t0 Hs').
    unfold stop_rule_met in G. rewrite Hcfg, Hm in G.
    apply orb_false_iff in G. destruct G as [_ G]. cbn in G.
    destruct (Qlt_le_dec (now w' - t0) (60 * m)) as [Hlt | Hge]; [exact Hlt |].
    apply minutes_reached in Hge. congruence.
Qed.

Lemma stop_after_minutes_is_wall_clock_witness :
  run_start_time one_second_in = Some 0%Q
  /\ (stop_event (maybe_pause_or_stop minutes_only 0 one_second_in) = true
      <-> stop_event one_second_in = true
          \/ (60 * (1 # 100) <= now one_second_in - 0)%Q)
  /\ pause_event (maybe_pause_or_stop minutes_only 0 one_second_in)
     = pause_event one_second_in
  /\ run_start_time minutes_visit_world = Some 1%Q
  /\ visit_position 30 minutes_run 0 0 (table 1 1 0%Q) minutes_visit_world
     = Done (Continue, fst minutes_visit_outcome) (snd minutes_visit_outcome)
  /\ (now (snd minutes_visit_outcome) - 1 < 60 * (1 # 100))%Q.
Proof.
  split; [reflexivity |].
  destruct (stop_after_minutes_is_wall_clock minutes_only 0 one_second_in 0
              (1 # 100) eq_refl eq_refl eq_refl eq_refl eq_refl)
    as (G1 & G2 & _).
  split; [exact G1 |]. split; [exact G2 |]. split; [reflexivity |].
  assert (E : visit_position 30 minutes_run 0 0 (table 1 1 0%Q)
                minutes_visit_world
              = Done (Continue, fst minutes_visit_outcome)
                     (snd minutes_visit_outcome))
    by (vm_compute; reflexivity).
  split; [exact E |].
  destruct (stop_after_minutes_is_wall_clock minutes_only 0
              minutes_visit_world 1 (1 # 100)
              eq_refl eq_refl eq_refl eq_refl eq_refl)
    as (_ & _ & _ & G).
  apply (G 30%nat minutes_run 0 0 _ _ _ _ eq_refl E). reflexivity.
Defined.

(** ** The cooldown of a position *)

Lemma wait_if_paused_not_paused fuel step w :
  pause_event w = false ->
  wait_if_paused (S fuel) step w = Done (now w - now w)%Q w.
Proof.
  intros Hp. unfold wait_if_paused, bind, get, ret.
  cbn [wait_if_paused_loop]. rewrite Hp. reflexivity.
Qed.

(** C6.  A visit of [(r, c)] that completes marks the position ready at the
    time of its completion plus the cooldown.  With [ready_at[(r, c)]] set
    to [t + d], a visit of the position that begins at the time [t'],
    neither stopped nor paused, finds it not ready when [t' < t + d]: it
    first sleeps, interruptibly, through the [t + d - t'] seconds that
    remain, and goes on to click, not before [t + d], unless the stop event
    is set by then.  It finds the position ready when [t + d <= t']: it goes
    on to click at once. *)
Theorem cooldown_respected (fuel : nat) (st : AppState) (r c : Z)
    (ready_at : gmap (Z * Z) Q) (t d : Q) (w : World) :
  stop_event w = false ->
  pause_event w = false ->
  (forall (ready_at1 : gmap (Z * Z) Q) (w1 : World),
      visit_position fuel st r c ready_at w = Done (Continue, ready_at1) w1 ->
      ready_at1 = mark_visited ready_at (r, c) (now w1)
                    (cooldown_seconds (timing st)))
  /\ ((now w < t + d)%Q ->
      is_ready (mark_visited ready_at (r, c) t d) (r, c) (now w) = Some false
      /\ visit_position (S fuel) st r c (mark_visited ready_at (r, c) t d) w
         = (do _ <- sleep_interruptible (S fuel) (t + d - now w)
                      default_sleep_step ;;
            do stopped <- get stop_event ;;
            if stopped : bool
            then ret (Break, mark_visited ready_at (r, c) t d)
            else click_and_count (S fuel) st r c
                   (mark_visited ready_at (r, c) t d))
             (set_current_position (Some (r, c)) w)
      /\ (forall (pd : Q) (w1 : World),
            sleep_interruptible (S fuel) (t + d - now w) default_sleep_step
              (set_current_position (Some (r, c)) w) = Done pd w1 ->
            stop_event w1 = false -> (t + d <= now w1)%Q))
  /\ ((t + d <= now w)%Q ->
      is_ready (mark_visited ready_at (r, c) t d) (r, c) (now w) = Some true
      /\ visit_position (S fuel) st r c (mark_visited ready_at (r, c) t d) w
         = click_and_count (S fuel) st r c (mark_visited ready_at (r, c) t d)
             (set_current_position (Some (r, c)) w)).
Proof.
  intros Hs Hp.
  assert (Hv : forall ra,
    visit_position (S fuel) st r c ra w
    = (do stopped <- wait_until_ready (S fuel) (r, c) ra ;;
       if stopped : bool then ret (Break, ra)
       else click_and_count (S fuel) st r c ra)
        (set_current_position (Some (r, c)) w)).
  { intros ra. unfold visit_position. rewrite bind_get, Hs.
    unfold bind at 1. rewrite (wait_if_paused_not_paused _ _ _ Hp).
    rewrite bind_modify. reflexivity. }
  split; [| split].
  - intros ready_at1 w1 H.
    pose proof (visit_position_continue fuel st r c ready_at w) as E.
    rewrite H in E. simpl in E. destruct (E eq_refl) as [G _]. exact G.
  - intros Hlt.
    split; [apply is_ready_after_mark_visited; exact Hlt |].
    split.
    + rewrite Hv. unfold wait_until_ready.
      unfold bind at 1. rewrite bind_get.
      cbn [now set_current_position].
      rewrite cooldown_wait_mark_visited.
      destruct (Qlt_le_dec 0 (t + d - now w)) as [_ | Hge]; [| lra].
      unfold bind. 
      destruct (sleep_interruptible (S fuel) (t + d - now w) default_sleep_step
                  (set_current_position (Some (r, c)) w)); reflexivity.
    + intros pd w1 H Hs1.
      pose proof (sleep_interruptible_ensures (S fuel) (t + d - now w)
                    default_sleep_step (set_current_position (Some (r, c)) w)
                    default_sleep_step_nonneg) as E.
      rewrite H in E. simpl in E. destruct E as [_ E].
      specialize (E Hs1). cbn in E. lra.
  - intros Hge.
    split; [apply is_ready_after_mark_visited; exact Hge |].
    rewrite Hv. unfold wait_until_ready.
    unfold bind at 1. rewrite bind_get.
    cbn [now set_current_position].
    rewrite cooldown_wait_mark_visited.
    destruct (Qlt_le_dec 0 (t + d - now w)) as [Hlt | _]; [lra |].
    reflexivity.
Qed.

Lemma cooldown_respected_witness :
  stop_event one_tile_world = false
  /\ pause_event one_tile_world = false
  /\ (now one_tile_world < 1 + (5 # 10))%Q
  /\ is_ready (mark_visited (table 1 1 0%Q) (0, 0) 1 (5 # 10)) (0, 0)
              (now one_tile_world) = Some false
  /\ sleep_interruptible 31 (1 + (5 # 10) - now one_tile_world)
       default_sleep_step (set_current_position (Some (0, 0)) one_tile_world)
     = Done (fst cooldown_wait_outcome) (snd cooldown_wait_outcome)
  /\ (1 + (5 # 10) <= now (snd cooldown_wait_outcome))%Q.
Proof.
  assert (H3 : (now one_tile_world < 1 + (5 # 10))%Q) by reflexivity.
  split; [reflexivity |]. split; [reflexivity |]. split; [exact H3 |].
  destruct (cooldown_respected 30 one_tile_run 0 0 (table 1 1 0%Q) 1 (5 # 10)
              one_tile_world eq_refl eq_refl) as (_ & G & _).
  destruct (G H3) as (G1 & _ & G3).
  split; [exact G1 |].
  assert (E : sleep_interruptible 31 (1 + (5 # 10) - now one_tile_world)
                default_sleep_step
                (set_current_position (Some (0, 0)) one_tile_world)
              = Done (fst cooldown_wait_outcome) (snd cooldown_wait_outcome))
    by (vm_compute; reflexivity).
  split; [exact E |]. apply (G3 _ _ E). reflexivity.
Defined.

(** ** The sweep and the cycles *)

Lemma for_cols_ensures fuel st (rows_ cols_ r : Z) :
  0 <= r < rows_ ->
  forall cs ready_at w,
    (forall c, In c cs -> 0 <= c < cols_) ->
    run_invariant st rows_ cols_ ready_at w ->
    ensures (for_cols fuel st r cs ready_at w) (sweep_post st rows_ cols_ w).
Proof.
  intros Hr.
  induction cs as [| c cs IH]; intros ready_at w Hcs Hinv; cbn [for_cols].
  - unfold ret, ensures, sweep_post.
    split; [exact Hinv |]. split; [lra |].
    split; [apply Ble_refl |]. split; reflexivity.
  - destruct Hinv as (Hra & Hpp & Hag & Hst).
    assert (Hc : 0 <= c < cols_) by (apply Hcs; left; reflexivity).
    destruct (Hra r c Hr Hc) as [t Et].
    destruct (Hpp r c Hr Hc) as [n En].
    eapply ensures_bind; [apply (visit_position_ensures _ _ _ _ _ _ t n Et En) |].
    intros [ex ra1] w1 (Hn1 & Hs1 & Hr1 & Hct1 & Ha1 & Hk1 & Hex).
    cbn [fst snd] in Hex.
    assert (Hinv1 : run_invariant st rows_ cols_ ra1 w1).
    { split; [| split; [| split]].
      - destruct ex; [destruct Hex as (_ & _ & -> & _); apply covers_insert
                     | destruct Hex as [-> _]]; exact Hra.
      - intros r' c' Hr' Hc'. apply Hk1. apply Hpp; assumption.
      - apply Ha1. exact Hag.
      - rewrite Hr1. exact Hst. }
    destruct ex.
    + eapply ensures_weaken.
      { apply IH; [intros c' Hc'; apply Hcs; right; exact Hc' | exact Hinv1]. }
      intros ra2 w2 (Hinv2 & Hn2 & Hs2 & Hr2 & Hct2).
      split; [exact Hinv2 |]. split; [lra |].
      split; [eapply Ble_trans; eassumption |]. split; congruence.
    + unfold ret, ensures, sweep_post.
      split; [exact Hinv1 |]. split; [exact Hn1 |].
      split; [exact Hs1 |]. split; [exact Hr1 | exact Hct1].
Qed.

Lemma for_rows_ensures fuel st (rows_ cols_ : Z) :
  forall rs ready_at w,
    (forall r, In r rs -> 0 <= r < rows_) ->
    run_invariant st rows_ cols_ ready_at w ->
    ensures (for_rows fuel st cols_ rs ready_at w) (sweep_post st rows_ cols_ w).
Proof.
  induction rs as [| r rs IH]; intros ready_at w Hrs Hinv; cbn [for_rows].
  - unfold ret, ensures, sweep_post.
    split; [exact Hinv |]. split; [lra |].
    split; [apply Ble_refl |]. split; reflexivity.
  - eapply ensures_bind.
    { apply (for_cols_ensures fuel st rows_ cols_ r);
        [apply Hrs; left; reflexivity | | exact Hinv].
      intros c Hc. apply py_range_In. exact Hc. }
    intros ra1 w1 (Hinv1 & Hn1 & Hs1 & Hr1 & Hct1). rewrite bind_get.
    destruct (stop_event w1) eqn:E1.
    + unfold ret, ensures, sweep_post.
      split; [exact Hinv1 |]. split; [exact Hn1 |].
      split; [rewrite E1; exact Hs1 |]. split; [exact Hr1 | exact Hct1].
    + eapply ensures_weaken.
      { apply IH; [intros r' Hr'; apply Hrs; right; exact Hr' | exact Hinv1]. }
      intros ra2 w2 (Hinv2 & Hn2 & Hs2 & Hr2 & Hct2).
      split; [exact Hinv2 |]. split; [lra |].
      split; [| split; congruence].
      destruct (stop_event w); [| exact I].
      simpl in Hs1. discriminate Hs1.
Qed.

(** ** The statistics after a sweep *)

Lemma py_slice_from_nonempty {A} (n : Z) (l : list A) :
  0 <= n -> l <> [] -> py_slice_from (- n) l <> [].
Proof.
  intros Hn Hl E. unfold py_slice_from in E.
  apply (f_equal (@length A)) in E. rewrite length_skipn in E. cbn [length] in E.
  assert (Hlen : (0 < length l)%nat) by (destruct l; [congruence | cbn; lia]).
  destruct (Z.ltb_spec (- n) 0); lia.
Qed.

Lemma print_stats_nonneg_window (sw : Z) (cooldown : Q) (times : list Q) :
  0 <= sw -> print_stats sw cooldown times <> StatisticsError.
Proof.
  intros Hsw. unfold print_stats.
  destruct times as [| t0 ts]; [discriminate |].
  pose proof (py_slice_from_nonempty sw (t0 :: ts) Hsw ltac:(discriminate)) as H.
  destruct (py_slice_from (- sw) (t0 :: ts)); [congruence | discriminate].
Qed.

Lemma print_stats_negative_window (sw : Z) (cooldown : Q) (times : list Q) :
  sw < 0 -> times <> [] -> Z.of_nat (length times) <= - sw ->
  print_stats sw cooldown times = StatisticsError.
Proof.
  intros Hsw Hne Hlen. unfold print_stats.
  destruct times as [| t0 ts]; [congruence |].
  unfold py_slice_from.
  replace (- sw <? 0) with false by (symmetry; apply Z.ltb_ge; lia).
  rewrite Z.min_r by lia. rewrite Nat2Z.id.
  rewrite skipn_all. reflexivity.
Qed.

(** The call of [print_stats] changes nothing; it raises only when the
    window is empty, which takes a negative [stats_window]. *)
Lemma call_print_stats_outcome cfg tm w :
  outcome (call_print_stats cfg tm w)
    (fun _ w' =>
       w' = w
       /\ print_stats (stats_window cfg) (cooldown_seconds tm) (cycle_times w)
          <> StatisticsError)
    (fun e => e = statistics_StatisticsError /\ stats_window cfg < 0).
Proof.
  unfold call_print_stats.
  destruct (print_stats (stats_window cfg) (cooldown_seconds tm) (cycle_times w))
    eqn:E; simpl; try (split; [reflexivity | discriminate]).
  split; [reflexivity |].
  destruct (Z.lt_ge_cases (stats_window cfg) 0) as [H | H]; [exact H |].
  exfalso. apply (print_stats_nonneg_window _ (cooldown_seconds tm)
                    (cycle_times w)) in H. congruence.
Qed.

(** The loop of [run_cycles] ends only with the stop event set, and keeps
    the counters in agreement.  It raises nothing but the [StatisticsError]
    of [print_stats]; with a negative [stats_window] larger than the number
    of cycle times recorded, it returns only if it was entered with the stop
    event set. *)
Lemma cycles_loop_outcome st (rows_ cols_ : Z) :
  forall fuel ready_at w,
    run_invariant st rows_ cols_ ready_at w ->
    outcome (cycles_loop fuel st rows_ cols_ ready_at w)
      (fun _ w' =>
         stop_event w' = true
         /\ (now w <= now w')%Q
         /\ run_start_time w' = run_start_time w
         /\ counters_agree (counters st) w'
         /\ covers rows_ cols_ (per_position_clicks w')
         /\ (Z.of_nat (length (cycle_times w)) < - stats_window (counters st) ->
             stop_event w = true))
      (fun e => e = statistics_StatisticsError
                /\ stats_window (counters st) < 0).
Proof.
  induction fuel as [| fuel IH]; intros ready_at w Hinv;
    cbn [cycles_loop]; [exact I |].
  destruct (stop_event w) eqn:Es.
  { unfold outcome. destruct Hinv as (_ & Hpp & Hag & _).
    split; [exact Es |]. split; [lra |]. split; [reflexivity |].
    split; [assumption |]. split; [assumption | reflexivity]. }
  eapply outcome_bind.
  { apply ensures_outcome.
    apply wait_if_paused_ensures; apply default_wait_step_nonneg. }
  intros pd w1 (H1 & _ & _). rewrite bind_get.
  apply Idles_Advances in H1.
  pose proof (run_invariant_Advances _ _ _ _ _ _ H1 Hinv) as Hinv1.
  eapply outcome_bind.
  { apply ensures_outcome.
    apply (for_rows_ensures fuel st rows_ cols_); [| exact Hinv1].
    intros r Hr. apply py_range_In. exact Hr. }
  intros ra2 w2 (Hinv2 & Hn2 & Hs2 & Hr2 & Hct2).
  rewrite bind_get, bind_modify.
  set (w3 := set_cycle_times (cycle_times w2 ++ [(now w2 - now w1)%Q]) w2).
  assert (Hinv3 : run_invariant st rows_ cols_ ra2 w3) by exact Hinv2.
  unfold bind at 1, update_active_time at 1.
  destruct Hinv3 as (Hra3 & Hpp3 & Hag3 & [t0 Et0]).
  rewrite Et0.
  set (w4 := set_times (session_pause_time w3)
                       (now w3 - t0 - session_pause_time w3)%Q w3).
  assert (Hinv4 : run_invariant st rows_ cols_ ra2 w4).
  { split; [exact Hra3 |]. split; [exact Hpp3 |]. split; [exact Hag3 |].
    exists t0. exact Et0. }
  assert (H04 : (now w <= now w4)%Q /\ run_start_time w4 = run_start_time w
                /\ cycle_times w4
                   = cycle_times w ++ [(now w2 - now w1)%Q]).
  { destruct H1. cbn. split; [lra |]. split; congruence. }
  destruct H04 as (Hn04 & Hr04 & Hct04).
  eapply outcome_bind; [apply call_print_stats_outcome |].
  intros u w4' [-> Hps]. rewrite bind_get.
  assert (Hlen : Z.of_nat (length (cycle_times w)) < - stats_window (counters st)
                 -> false = true).
  { intros Hlt. exfalso. apply Hps. apply print_stats_negative_window.
    - lia.
    - rewrite Hct04. destruct (cycle_times w); discriminate.
    - rewrite Hct04, length_app. cbn [length]. lia. }
  destruct (stop_event w4) eqn:Es4.
  { unfold ret, outcome. destruct Hinv4 as (_ & Hpp4 & Hag4 & _).
    split; [exact Es4 |]. split; [assumption |].
    split; [assumption |]. split; [assumption |]. split; assumption. }
  rewrite bind_get.
  eapply (outcome_bind _ _ _ (fun _ w5 => Idles w4 w5)).
  { apply ensures_outcome.
    match goal with |- context [Qlt_le_dec ?a ?b] =>
      destruct (Qlt_le_dec a b) end.
    - eapply ensures_weaken;
        [apply sleep_interruptible_ensures; apply default_sleep_step_nonneg |].
      intros pd5 w5 [H5 _]. exact H5.
    - unfold ret, ensures. apply Idles_refl. }
  intros pd5 w5 H5. cbv beta in H5. apply Idles_Advances in H5.
  eapply outcome_weaken.
  { apply IH. apply (run_invariant_Advances _ _ _ _ _ _ H5 Hinv4). }
  intros u6 w6 (Hs6 & Hn6 & Hr6 & Hag6 & Hpp6 & _). cbv beta.
  destruct H5.
  split; [exact Hs6 |]. split; [lra |]. split; [congruence |].
  split; [assumption |]. split; assumption.
Qed.

Lemma table_values {V} (rows_ cols_ : Z) (v x : V) (k : Z * Z) :
  table rows_ cols_ v !! k = Some x -> x = v.
Proof.
  destruct k as [r c]. rewrite table_lookup.
  destruct ((0 <=? r) && (r <? rows_) && (0 <=? c) && (c <? cols_));
    [intros E; injection E as <-; reflexivity | discriminate].
Qed.

Lemma run_cycles_outcome fuel st w :
  outcome (run_cycles fuel st w)
    (fun _ w' =>
       stop_event w' = true
       /\ current_position w' = None
       /\ run_start_time w' = Some (now w)
       /\ (now w <= now w')%Q
       /\ counters_agree (counters st) w'
       /\ covers (Z.max 1 (rows (grid st))) (Z.max 1 (cols (grid st)))
                 (per_position_clicks w')
       /\ (stats_window (counters st) < 0 -> stop_event w = true))
    (fun e => e = statistics_StatisticsError
              /\ stats_window (counters st) < 0).
Proof.
  unfold run_cycles. cbv zeta.
  rewrite !bind_modify, bind_get, bind_modify.
  match goal with |- outcome (bind _ _ ?v) _ _ => set (w0 := v) end.
  eapply outcome_bind.
  { apply cycles_loop_outcome.
    split; [apply covers_table |]. split; [apply covers_table |].
    split; [| eexists; reflexivity].
    split; cbn; symmetry; apply total_over_zero; intros k v Hk;
      apply table_values in Hk; subst v; [reflexivity |].
    unfold cycles_after. apply Z.div_small. lia. }
  intros u w1 (Hs & Hn & Hr & Hag & Hpp & Hneg). unfold modify, outcome.
  cbn. repeat split; try assumption; try apply Hag.
  intros Hsw. apply Hneg. cbn. lia.
Qed.

(** X5.  A call of [click_position] clicks at one point only, the centre
    moved by an offset of at most [random_offset_px] on each axis; it clicks
    there at most twice, at most once when the second click is off, not at
    all when the stop event is set on entry and at least once otherwise. *)
Theorem click_position_clicks (fuel : nat) (x y : Z) (g : GridConfig)
    (t : TimingConfig) (w w' : World) :
  click_position fuel x y g t w = Done tt w' ->
  Forall unit_draw (rng w) ->
  exists (dx dy : Z) (n : nat),
    clicks (trace w') = clicks (trace w) ++ repeat (x + dx, y + dy) n
    /\ (n <= 2)%nat
    /\ (always_second_click t = false -> (n <= 1)%nat)
    /\ (stop_event w = true -> n = 0%nat)
    /\ (stop_event w = false -> (1 <= n)%nat)
    /\ - Z.max 0 (random_offset_px g) <= dx <= Z.max 0 (random_offset_px g)
    /\ - Z.max 0 (random_offset_px g) <= dy <= Z.max 0 (random_offset_px g).
Proof.
  intros H Hrng.
  pose proof (click_position_ensures fuel x y g t w) as E.
  rewrite H in E. simpl in E.
  destruct E as (_ & dx & dy & n & Hc & H2 & H1 & H0 & Hpos & Hb).
  exists dx, dy, n. specialize (Hb Hrng). tauto.
Qed.

Lemma click_position_clicks_witness :
  click_position 30 100 200 offset_grid single_click offset_world
  = Done tt offset_outcome
  /\ Forall unit_draw (rng offset_world)
  /\ clicks (trace offset_outcome) = [(99, 201)]
  /\ exists (dx dy : Z) (n : nat),
       clicks (trace offset_outcome)
       = clicks (trace offset_world) ++ repeat (100 + dx, 200 + dy) n
       /\ (n <= 2)%nat
       /\ (always_second_click single_click = false -> (n <= 1)%nat)
       /\ (stop_event offset_world = true -> n = 0%nat)
       /\ (stop_event offset_world = false -> (1 <= n)%nat)
       /\ - Z.max 0 (random_offset_px offset_grid) <= dx
          <= Z.max 0 (random_offset_px offset_grid)
       /\ - Z.max 0 (random_offset_px offset_grid) <= dy
          <= Z.max 0 (random_offset_px offset_grid).
Proof.
  assert (E : click_position 30 100 200 offset_grid single_click offset_world
              = Done tt offset_outcome) by (vm_compute; reflexivity).
  assert (R : Forall unit_draw (rng offset_world)).
  { repeat constructor; discriminate. }
  split; [exact E |]. split; [exact R |]. split; [reflexivity |].
  apply (click_position_clicks _ _ _ _ _ _ _ E R).
Defined.

(** X6.  One pass of the inner loop for a position that was ready at [t] and
    had [n] clicks.  When it ends in [break], the stop event is set and the
    cooldown table is as it was.  When it completes, the stop event is
    clear, the time is not before [t], exactly one click has been counted
    for the position and for the session, a cycle has been counted exactly
    when [n mod max(1, clicks_per_cycle) = 0], and the position is next ready
    one cooldown after the time of completion. *)
Theorem visit_position_outcome (fuel : nat) (st : AppState) (r c : Z)
    (ready_at : gmap (Z * Z) Q) (w : World) (ex : LoopExit)
    (ready_at' : gmap (Z * Z) Q) (w' : World) (t : Q) (n : Z) :
  visit_position fuel st r c ready_at w = Done (ex, ready_at') w' ->
  ready_at !! (r, c) = Some t ->
  per_position_clicks w !! (r, c) = Some n ->
  (ex = Break -> ready_at' = ready_at /\ stop_event w' = true)
  /\ (ex = Continue ->
      stop_event w' = false
      /\ (t <= now w')%Q
      /\ ready_at' = <[(r, c) := (now w' + cooldown_seconds (timing st))%Q]> ready_at
      /\ session_clicks w' = session_clicks w + 1
      /\ per_position_clicks w' = <[(r, c) := n + 1]> (per_position_clicks w)
      /\ session_cycles_added w'
         = session_cycles_added w
           + (if n mod Z.max 1 (clicks_per_cycle (counters st)) =? 0
              then 1 else 0)).
Proof.
  intros H Hra Hn.
  pose proof (visit_position_ensures fuel st r c ready_at w t n Hra Hn) as E.
  rewrite H in E. unfold ensures, visit_post in E. cbn [fst snd] in E.
  destruct E as (_ & _ & _ & _ & _ & _ & E).
  destruct ex; (split; [intros G | intros G]); try discriminate G; exact E.
Qed.

Lemma visit_position_outcome_witness :
  visit_position 30 one_tile_run 0 0 (table 1 1 0%Q) one_tile_world
  = Done (Continue, fst one_tile_outcome) (snd one_tile_outcome)
  /\ table 1 1 0%Q !! (0, 0) = Some 0%Q
  /\ per_position_clicks one_tile_world !! (0, 0) = Some 0
  /\ session_clicks (snd one_tile_outcome) = session_clicks one_tile_world + 1
  /\ (0 <= now (snd one_tile_outcome))%Q.
Proof.
  assert (E : visit_position 30 one_tile_run 0 0 (table 1 1 0%Q) one_tile_world
              = Done (Continue, fst one_tile_outcome) (snd one_tile_outcome))
    by (vm_compute; reflexivity).
  assert (R : table 1 1 0%Q !! (0, 0) = Some 0%Q) by reflexivity.
  assert (P : per_position_clicks one_tile_world !! (0, 0) = Some 0)
    by reflexivity.
  split; [exact E |]. split; [exact R |]. split; [exact P |].
  destruct (visit_position_outcome _ _ _ _ _ _ _ _ _ _ _ E R P) as [_ G].
  destruct (G eq_refl) as (_ & Ht & _ & Hc & _). split; assumption.
Defined.

(** X7.  [run_cycles] returns only with the stop event set.  It leaves
    [current_position] at [None], and [run_start_time] at the time at which
    it was called, which the clock has not gone back behind. *)
Theorem run_cycles_returns_stopped
    (fuel : nat) (st : AppState) (w w' : World) :
  run_cycles fuel st w = Done tt w' ->
  stop_event w' = true
  /\ current_position w' = None
  /\ run_start_time w' = Some (now w)
  /\ (now w <= now w')%Q.
Proof.
  intros H. pose proof (run_cycles_outcome fuel st w) as E.
  rewrite H in E. simpl in E. tauto.
Qed.

Lemma run_cycles_returns_stopped_witness :
  run_cycles 50 two_tiles_run (fresh_world 0 pause_then_esc [])
  = Done tt two_tiles_outcome
  /\ stop_event two_tiles_outcome = true
  /\ current_position two_tiles_outcome = None
  /\ run_start_time two_tiles_outcome = Some (now (fresh_world 0 pause_then_esc []))
  /\ (now (fresh_world 0 pause_then_esc []) <= now two_tiles_outcome)%Q.
Proof.
  assert (E : run_cycles 50 two_tiles_run (fresh_world 0 pause_then_esc [])
              = Done tt two_tiles_outcome) by (vm_compute; reflexivity).
  split; [exact E |]. apply (run_cycles_returns_stopped _ _ _ _ E).
Defined.

(** X8.  When [run_cycles] returns, the session counters agree with the
    per-position click counts: [session_clicks] is their sum, and
    [session_cycles_added] is the sum over the positions of
    [ceil(count / max(1, clicks_per_cycle))].  Every position of the grid of
    [max(1, rows)] by [max(1, cols)] has a count. *)
Theorem run_cycles_counters_agree
    (fuel : nat) (st : AppState) (w w' : World) :
  run_cycles fuel st w = Done tt w' ->
  session_clicks w' = total_over (fun v => v) (per_position_clicks w')
  /\ session_cycles_added w'
     = total_over (cycles_after (Z.max 1 (clicks_per_cycle (counters st))))
                  (per_position_clicks w')
  /\ covers (Z.max 1 (rows (grid st))) (Z.max 1 (cols (grid st)))
            (per_position_clicks w').
Proof.
  intros H. pose proof (run_cycles_outcome fuel st w) as E.
  rewrite H in E. simpl in E.
  destruct E as (_ & _ & _ & _ & [A1 A2] & C & _). repeat split; assumption.
Qed.

Lemma run_cycles_counters_agree_witness :
  run_cycles 50 two_tiles_run (fresh_world 0 pause_then_esc [])
  = Done tt two_tiles_outcome
  /\ session_clicks two_tiles_outcome
     = total_over (fun v => v) (per_position_clicks two_tiles_outcome)
  /\ session_clicks two_tiles_outcome = 2.
Proof.
  assert (E : run_cycles 50 two_tiles_run (fresh_world 0 pause_then_esc [])
              = Done tt two_tiles_outcome) by (vm_compute; reflexivity).
  split; [exact E |].
  split; [apply (run_cycles_counters_agree _ _ _ _ E) | reflexivity].
Defined.

(** X9.  [run_cycles] raises nothing but the [StatisticsError] that
    [print_stats] lets through when its window is empty, and that takes a
    negative [stats_window]: every key it looks up in [ready_at] and
    [per_position_clicks] is there, [run_start_time] is set when it is read,
    no modulo is taken by zero and no sleep is negative.  With a negative
    [stats_window] a run entered with the stop event clear never returns:
    [print_stats] raises at the end of its first sweep, whatever happened
    during it.  Either way [_run_worker] leaves the stop event set. *)
Theorem run_cycles_raises_only_statistics_error
    (fuel : nat) (st : AppState) (w : World) :
  (forall (e : Exn) (w' : World),
      run_cycles fuel st w = Raised e w' ->
      e = statistics_StatisticsError /\ stats_window (counters st) < 0)
  /\ (stats_window (counters st) < 0 -> stop_event w = false ->
      forall w' : World, run_cycles fuel st w <> Done tt w')
  /\ (forall (alive : bool) (w' : World),
        run_worker fuel (mkApp st alive) w = Some w' -> stop_event w' = true).
Proof.
  pose proof (run_cycles_outcome fuel st w) as E.
  split; [| split].
  - intros e w' H. rewrite H in E. exact E.
  - intros Hsw Hs w' H. rewrite H in E. simpl in E.
    destruct E as (_ & _ & _ & _ & _ & _ & G). specialize (G Hsw). congruence.
  - intros alive w'. unfold run_worker. cbn [state_obj].
    destruct (run_cycles fuel st w) as [[] w1 | e w1 |]; simpl in E;
      intros H; try discriminate H; injection H as <-; [tauto | reflexivity].
Qed.

Lemma run_cycles_raises_only_statistics_error_witness :
  run_cycles 50 negative_window_run (fresh_world 0 [] [])
  = Raised statistics_StatisticsError negative_window_outcome
  /\ clicks (trace negative_window_outcome) = [(100, 200)]
  /\ length (cycle_times negative_window_outcome) = 1%nat
  /\ stats_window (counters negative_window_run) < 0.
Proof.
  assert (E : run_cycles 50 negative_window_run (fresh_world 0 [] [])
              = Raised statistics_StatisticsError negative_window_outcome)
    by (vm_compute; reflexivity).
  split; [exact E |]. split; [reflexivity |]. split; [reflexivity |].
  apply (proj1 (run_cycles_raises_only_statistics_error _ _ _) _ _ E).
Defined.

Lemma wait_if_paused_returns_witness :
  wait_if_paused 10 (1 # 10) paused_world
  = Done (fst paused_outcome) (snd paused_outcome)
  /\ (pause_event (snd paused_outcome) = false
      \/ stop_event (snd paused_outcome) = true)
  /\ (fst paused_outcome == 2 # 10)%Q.
Proof.
  assert (E : wait_if_paused 10 (1 # 10) paused_world
              = Done (fst paused_outcome) (snd paused_outcome))
    by (vm_compute; reflexivity).
  split; [exact E |].
  destruct (wait_if_paused_returns _ _ _ _ _ E) as [G _].
  split; [exact G | reflexivity].
Defined.

Lemma jittered_range_witness :
  jittered (20 # 100) (15 # 100) jitter_world
  = Done (fst jitter_outcome) (snd jitter_outcome)
  /\ Forall unit_draw (rng jitter_world)
  /\ (fst jitter_outcome == 32 # 100)%Q
  /\ (0 <= fst jitter_outcome)%Q.
Proof.
  assert (E : jittered (20 # 100) (15 # 100) jitter_world
              = Done (fst jitter_outcome) (snd jitter_outcome))
    by (vm_compute; reflexivity).
  assert (R : Forall unit_draw (rng jitter_world)).
  { repeat constructor; discriminate. }
  split; [exact E |]. split; [exact R |]. split; [reflexivity |].
  destruct (jittered_range _ _ _ _ _ E R) as [G _]. exact G.
Defined.

(** ** The grid of a run *)

Lemma flat_map_length_const {A B} (f : A -> list B) (k : nat) (l : list A) :
  (forall a, length (f a) = k) -> length (flat_map f l) = (length l * k)%nat.
Proof.
  intros H. induction l as [| a l IH]; simpl; [reflexivity |].
  rewrite length_app, H, IH. reflexivity.
Qed.

(** X10.  The dict comprehensions of [run_cycles] give a table with an entry,
    holding the initial value, for each [(r, c)] with [0 <= r < rows] and
    [0 <= c < cols], and with no other key; the grid has [rows * cols]
    positions, none when a dimension is zero or negative. *)
Theorem table_keys {V} (rows_ cols_ : Z) (v : V) (r c : Z) :
  (table rows_ cols_ v !! (r, c) = Some v
   <-> (0 <= r < rows_ /\ 0 <= c < cols_))
  /\ (table rows_ cols_ v !! (r, c) = None
      <-> ~ (0 <= r < rows_ /\ 0 <= c < cols_))
  /\ length (positions rows_ cols_) = (Z.to_nat rows_ * Z.to_nat cols_)%nat.
Proof.
  rewrite table_lookup.
  destruct ((0 <=? r) && (r <? rows_) && (0 <=? c) && (c <? cols_)) eqn:E.
  - assert (H : 0 <= r < rows_ /\ 0 <= c < cols_) by lia.
    split; [tauto |]. split; [split; [discriminate | tauto] |].
    unfold positions, py_range.
    rewrite (flat_map_length_const _ (Z.to_nat cols_)).
    + rewrite length_map, length_seq. reflexivity.
    + intros a. rewrite !length_map, length_seq. reflexivity.
  - assert (H : ~ (0 <= r < rows_ /\ 0 <= c < cols_)) by lia.
    split; [split; [discriminate | tauto] |]. split; [tauto |].
    unfold positions, py_range.
    rewrite (flat_map_length_const _ (Z.to_nat cols_)).
    + rewrite length_map, length_seq. reflexivity.
    + intros a. rewrite !length_map, length_seq. reflexivity.
Qed.

(** ** Stop is one-way *)

(** X11.  Nothing but [start] clears the stop event: no hotkey and no
    button does, and neither do the sleeps of the worker nor
    [click_position].  Once set it stays set ([Bool.le b b'] reads "if [b]
    then [b']"). *)
Theorem stop_event_is_one_way :
  (forall (ks : list Control) (w : World),
      Bool.le (stop_event w) (stop_event (deliver ks w)))
  /\ (forall (fuel : nat) (step : Q) (w : World) (pd : Q) (w' : World),
        wait_if_paused fuel step w = Done pd w' ->
        Bool.le (stop_event w) (stop_event w'))
  /\ (forall (fuel : nat) (d step : Q) (w : World) (r : Q) (w' : World),
        sleep_interruptible fuel d step w = Done r w' ->
        Bool.le (stop_event w) (stop_event w'))
  /\ (forall (fuel : nat) (x y : Z) (g : GridConfig) (t : TimingConfig)
             (w w' : World),
        click_position fuel x y g t w = Done tt w' ->
        Bool.le (stop_event w) (stop_event w')).
Proof.
  split; [| split; [| split]].
  - intros ks w. apply deliver_frame.
  - intros fuel step w pd w' H. apply wait_if_paused_done in H. tauto.
  - intros fuel d step w r w' H.
    unfold sleep_interruptible, bind, get in H.
    apply sleep_interruptible_loop_done in H. tauto.
  - intros fuel x y g t w w' H.
    pose proof (click_position_ensures fuel x y g t w) as E.
    rewrite H in E. simpl in E. destruct E as [[] _]. assumption.
Qed.

(** ** A run that is stopped before it begins *)

(** X12.  [run_cycles] entered with the stop event set (ESC during the
    countdown) returns at once: the counters are reset to zero, and it
    neither sleeps nor clicks. *)
Theorem run_cycles_entered_stopped (fuel : nat) (st : AppState) (w : World) :
  stop_event w = true ->
  exists w' : World,
    run_cycles (S fuel) st w = Done tt w'
    /\ trace w' = trace w
    /\ now w' = now w
    /\ stop_event w' = true
    /\ session_clicks w' = 0
    /\ session_cycles_added w' = 0
    /\ current_position w' = None.
Proof.
  intros Hs. unfold run_cycles. cbv zeta.
  rewrite !bind_modify, bind_get, bind_modify.
  unfold bind at 1. cbn [cycles_loop]. cbn [stop_event set_run_start_time
    set_times set_counters set_cycle_times set_per_position_clicks].
  rewrite Hs. unfold modify. eexists. split; [reflexivity |].
  cbn. repeat split. exact Hs.
Qed.

Lemma run_cycles_entered_stopped_witness :
  stop_event stopped_world = true
  /\ exists w' : World,
       run_cycles 1 two_tiles_run stopped_world = Done tt w'
       /\ trace w' = trace stopped_world
       /\ now w' = now stopped_world
       /\ stop_event w' = true
       /\ session_clicks w' = 0
       /\ session_cycles_added w' = 0
       /\ current_position w' = None.
Proof.
  split; [reflexivity |].
  apply (run_cycles_entered_stopped 0 two_tiles_run stopped_world).
  reflexivity.
Defined.

(** ** Rounding to binary64 *)

Lemma pow2_pos e : (0 < pow2 e)%Q.
Proof. apply Qpower_0_lt. reflexivity. Qed.

Lemma pow2_add a b : (pow2 (a + b) == pow2 a * pow2 b)%Q.
Proof. apply Qpower_plus. discriminate. Qed.

Lemma pow2_le a b : a <= b -> (pow2 a <= pow2 b)%Q.
Proof. intros H. apply Qpower_le_compat_l; [exact H | discriminate]. Qed.

Lemma pow2_lt a b : a < b -> (pow2 a < pow2 b)%Q.
Proof. intros H. apply Qpower_lt_compat_l; [exact H | reflexivity]. Qed.

Lemma pow2_Z n : 0 <= n -> (pow2 n == inject_Z (2 ^ n))%Q.
Proof. intros H. unfold pow2. rewrite Zpower_Qpower by exact H. reflexivity. Qed.

Lemma pow2_succ e : (pow2 (e + 1) == 2 * pow2 e)%Q.
Proof. rewrite pow2_add. change (pow2 1) with 2%Q. ring. Qed.

Lemma pow2_sub a b : (pow2 (a - b) * pow2 b == pow2 a)%Q.
Proof. rewrite <- pow2_add. replace (a - b + b) with a by lia. reflexivity. Qed.

Lemma inject_Z_log2 (a : Z) :
  0 < a ->
  (pow2 (Z.log2 a) <= inject_Z a /\ inject_Z a < pow2 (Z.log2 a + 1))%Q.
Proof.
  intros Ha. destruct (Z.log2_spec a Ha) as [H1 H2].
  pose proof (Z.log2_nonneg a) as Hn.
  rewrite !pow2_Z by lia. split.
  - rewrite <- Zle_Qle. exact H1.
  - rewrite <- Zlt_Qlt. exact H2.
Qed.

Lemma Qlog2_spec (x : Q) :
  (0 < x)%Q -> (pow2 (Qlog2 x) <= x /\ x < pow2 (Qlog2 x + 1))%Q.
Proof.
  intros Hx. destruct x as [a b].
  assert (Ha : 0 < a).
  { unfold Qlt in Hx. cbn in Hx. lia. }
  destruct (inject_Z_log2 a Ha) as [A1 A2].
  destruct (inject_Z_log2 (Z.pos b) ltac:(lia)) as [B1 B2].
  unfold Qlog2. cbn [Qnum Qden].
  set (la := Z.log2 a) in *. set (lb := Z.log2 (Z.pos b)) in *.
  assert (Ex : (a # b) * inject_Z (Z.pos b) == inject_Z a).
  { rewrite Qmake_Qdiv. field. discriminate. }
  set (x := a # b) in *.
  assert (Hb : (0 < inject_Z (Z.pos b))%Q) by reflexivity.
  pose proof (pow2_pos lb) as Plb. pose proof (pow2_pos (la - lb)) as Pk.
  pose proof (pow2_sub la lb) as S1.
  assert (S2 : (pow2 (la - lb + 1) * pow2 lb == pow2 (la + 1))%Q).
  { rewrite <- pow2_add. replace (la - lb + 1 + lb) with (la + 1) by lia.
    reflexivity. }
  assert (S3 : (pow2 (la - lb - 1) * pow2 (lb + 1) == pow2 la)%Q).
  { rewrite <- pow2_add. replace (la - lb - 1 + (lb + 1)) with la by lia.
    reflexivity. }
  pose proof (pow2_pos (la - lb + 1)) as Pk1.
  pose proof (pow2_pos (la - lb - 1)) as Pk0.
  assert (U : (x < pow2 (la - lb + 1))%Q).
  { apply (Qmult_lt_r _ _ (inject_Z (Z.pos b)) Hb).
    rewrite Ex. eapply Qlt_le_trans; [exact A2 |].
    rewrite <- S2. apply Qmult_le_l; assumption. }
  assert (L : (pow2 (la - lb - 1) < x)%Q).
  { apply (Qmult_lt_r _ _ (inject_Z (Z.pos b)) Hb).
    rewrite Ex. eapply Qlt_le_trans; [| exact A1].
    rewrite <- S3. apply Qmult_lt_l; assumption. }
  destruct (Qle_bool (pow2 (la - lb)) x) eqn:E.
  - apply Qle_bool_iff in E. split; assumption.
  - replace (la - lb - 1 + 1) with (la - lb) by lia.
    split; [apply Qlt_le_weak; exact L |].
    destruct (Qlt_le_dec x (pow2 (la - lb))) as [G | G]; [exact G |].
    apply Qle_bool_iff in G. congruence.
Qed.

Lemma Qlog2_unique (x : Q) (e : Z) :
  (pow2 e <= x)%Q -> (x < pow2 (e + 1))%Q -> Qlog2 x = e.
Proof.
  intros H1 H2.
  assert (Hx : (0 < x)%Q) by (pose proof (pow2_pos e); lra).
  destruct (Qlog2_spec x Hx) as [G1 G2].
  destruct (Z.lt_trichotomy (Qlog2 x) e) as [H | [H | H]]; [| exact H |].
  - pose proof (pow2_le (Qlog2 x + 1) e ltac:(lia)). lra.
  - pose proof (pow2_le (e + 1) (Qlog2 x) ltac:(lia)). lra.
Qed.

Lemma Qlog2_le (x y : Q) : (0 < x)%Q -> (x <= y)%Q -> Qlog2 x <= Qlog2 y.
Proof.
  intros Hx Hxy.
  destruct (Qlog2_spec x Hx) as [G1 G2].
  destruct (Qlog2_spec y ltac:(lra)) as [K1 K2].
  destruct (Z.le_gt_cases (Qlog2 x) (Qlog2 y)) as [H | H]; [exact H |].
  pose proof (pow2_le (Qlog2 y + 1) (Qlog2 x) ltac:(lia)). lra.
Qed.

Lemma Qlog2_comp (x y : Q) : (0 < x)%Q -> x == y -> Qlog2 x = Qlog2 y.
Proof.
  intros Hx E. apply Z.le_antisymm; apply Qlog2_le; lra.
Qed.

(** Rounding to the nearest integer, ties to even. *)

Lemma round_half_even_spec (y : Q) :
  (inject_Z (round_half_even y) - y <= 1 # 2)%Q
  /\ (y - inject_Z (round_half_even y) <= 1 # 2)%Q.
Proof.
  unfold round_half_even.
  pose proof (Qfloor_le y) as F1. pose proof (Qlt_floor y) as F2.
  rewrite inject_Z_plus in F2. change (inject_Z 1) with 1%Q in F2.
  destruct (Qcompare_spec (y - inject_Z (Qfloor y)) (1 # 2)) as [E | E | E].
  - destruct (Z.even (Qfloor y));
      rewrite ?inject_Z_plus; change (inject_Z 1) with 1%Q; lra.
  - lra.
  - rewrite inject_Z_plus. change (inject_Z 1) with 1%Q. lra.
Qed.

Lemma round_half_even_comp (y y' : Q) :
  y == y' -> round_half_even y = round_half_even y'.
Proof.
  intros E. unfold round_half_even.
  rewrite (Qfloor_comp _ _ E).
  assert (E' : y - inject_Z (Qfloor y') == y' - inject_Z (Qfloor y')) by lra.
  rewrite (Qcompare_comp _ _ E' (1 # 2) (1 # 2) ltac:(reflexivity)).
  reflexivity.
Qed.

Lemma round_half_even_Z (n : Z) : round_half_even (inject_Z n) = n.
Proof.
  unfold round_half_even. rewrite Qfloor_Z.
  destruct (Qcompare_spec (inject_Z n - inject_Z n) (1 # 2)) as [E | E | E];
    [lra | reflexivity | lra].
Qed.

Lemma round_half_even_le (y y' : Q) :
  (y <= y')%Q -> round_half_even y <= round_half_even y'.
Proof.
  intros H.
  destruct (round_half_even_spec y) as [A1 A2].
  destruct (round_half_even_spec y') as [B1 B2].
  destruct (Z.le_gt_cases (round_half_even y) (round_half_even y'))
    as [G | G]; [exact G |].
  assert (G' : round_half_even y' + 1 <= round_half_even y) by lia.
  rewrite Zle_Qle, inject_Z_plus in G'. change (inject_Z 1) with 1%Q in G'.
  assert (E : y == y') by lra.
  rewrite (round_half_even_comp _ _ E) in G. lia.
Qed.

(** Rounding to binary64. *)

Lemma round_binary64_pos_bounds (x : Q) :
  (0 < x)%Q ->
  (0 <= round_binary64_pos x)%Q
  /\ (round_binary64_pos x <= pow2 (Z.max (Qlog2 x) (-1022) + 1))%Q
  /\ (-1022 <= Qlog2 x -> (pow2 (Qlog2 x) <= round_binary64_pos x)%Q).
Proof.
  intros Hx. unfold round_binary64_pos.
  set (e := Z.max (Qlog2 x) (-1022)). set (ulp := pow2 (e - 52)).
  pose proof (pow2_pos (e - 52)) as Hu. fold ulp in Hu.
  destruct (Qlog2_spec x Hx) as [L1 L2].
  assert (E53 : (pow2 (e + 1) == pow2 53 * ulp)%Q).
  { unfold ulp. rewrite <- pow2_add. replace (53 + (e - 52)) with (e + 1) by lia.
    reflexivity. }
  assert (E52 : (pow2 e == pow2 52 * ulp)%Q).
  { unfold ulp. rewrite <- pow2_add. replace (52 + (e - 52)) with e by lia.
    reflexivity. }
  assert (Hy0 : (0 <= x / ulp)%Q) by (apply Qle_shift_div_l; lra).
  assert (Hy1 : (x / ulp <= inject_Z (2 ^ 53))%Q).
  { rewrite <- pow2_Z by lia. apply Qle_shift_div_r; [exact Hu |].
    rewrite <- E53. pose proof (pow2_le (Qlog2 x + 1) (e + 1) ltac:(lia)). lra. }
  apply round_half_even_le in Hy0, Hy1.
  change 0%Q with (inject_Z 0) in Hy0. rewrite round_half_even_Z in Hy0, Hy1.
  rewrite Zle_Qle in Hy0, Hy1. change (inject_Z 0) with 0%Q in Hy0.
  rewrite <- pow2_Z in Hy1 by lia.
  split; [apply Qmult_le_0_compat; lra |]. split.
  - rewrite E53. apply Qmult_le_r; assumption.
  - intros Hn. replace (Qlog2 x) with e in * by lia.
    assert (Hy2 : (inject_Z (2 ^ 52) <= x / ulp)%Q).
    { rewrite <- pow2_Z by lia. apply Qle_shift_div_l; [exact Hu |].
      rewrite <- E52. exact L1. }
    apply round_half_even_le in Hy2. rewrite round_half_even_Z in Hy2.
    rewrite Zle_Qle in Hy2. rewrite <- pow2_Z in Hy2 by lia.
    rewrite E52. apply Qmult_le_r; assumption.
Qed.

Lemma round_binary64_pos_le (x y : Q) :
  (0 < x)%Q -> (x <= y)%Q -> (round_binary64_pos x <= round_binary64_pos y)%Q.
Proof.
  intros Hx Hxy.
  pose proof (Qlog2_le x y Hx Hxy) as Hl.
  destruct (Z.eq_dec (Z.max (Qlog2 x) (-1022)) (Z.max (Qlog2 y) (-1022)))
    as [E | E].
  - unfold round_binary64_pos. rewrite E.
    set (ulp := pow2 (Z.max (Qlog2 y) (-1022) - 52)).
    assert (Hu : (0 < ulp)%Q) by apply pow2_pos.
    apply Qmult_le_r; [exact Hu |]. rewrite <- Zle_Qle.
    apply round_half_even_le. unfold Qdiv.
    apply Qmult_le_r; [apply Qinv_lt_0_compat; exact Hu | exact Hxy].
  - destruct (round_binary64_pos_bounds x Hx) as (_ & U & _).
    destruct (round_binary64_pos_bounds y ltac:(lra)) as (_ & _ & L).
    specialize (L ltac:(lia)).
    pose proof (pow2_le (Z.max (Qlog2 x) (-1022) + 1) (Qlog2 y) ltac:(lia)).
    lra.
Qed.

Lemma round_binary64_pos_comp (x y : Q) :
  (0 < x)%Q -> x == y -> round_binary64_pos x == round_binary64_pos y.
Proof.
  intros Hx E. apply Qle_antisym; apply round_binary64_pos_le; lra.
Qed.

Lemma round_binary64_le (x y : Q) :
  (x <= y)%Q -> (round_binary64 x <= round_binary64 y)%Q.
Proof.
  intros Hxy. unfold round_binary64.
  destruct (Qcompare_spec x 0) as [Ex | Ex | Ex],
    (Qcompare_spec y 0) as [Ey | Ey | Ey]; try lra.
  - destruct (round_binary64_pos_bounds y Ey) as [G _]. exact G.
  - destruct (round_binary64_pos_bounds (- x) ltac:(lra)) as [G _]. lra.
  - pose proof (round_binary64_pos_le (- y) (- x) ltac:(lra) ltac:(lra)). lra.
  - destruct (round_binary64_pos_bounds (- x) ltac:(lra)) as [G _].
    destruct (round_binary64_pos_bounds y Ey) as [K _]. lra.
  - apply round_binary64_pos_le; assumption.
Qed.

Lemma round_binary64_comp (x y : Q) :
  x == y -> round_binary64 x == round_binary64 y.
Proof. intros E. apply Qle_antisym; apply round_binary64_le; lra. Qed.

Lemma round_binary64_opp (x : Q) :
  round_binary64 (- x) == - round_binary64 x.
Proof.
  unfold round_binary64.
  destruct (Qcompare_spec x 0) as [Ex | Ex | Ex],
    (Qcompare_spec (- x) 0) as [Ey | Ey | Ey]; try lra.
  rewrite (round_binary64_pos_comp (- - x) x); lra.
Qed.

(** A positive multiple of a power of two with less than 53 bits is a
    binary64 number. *)
Lemma round_binary64_pos_exact (m e : Z) :
  0 < m < 2 ^ 53 -> -1074 <= e ->
  round_binary64_pos (inject_Z m * pow2 e) == inject_Z m * pow2 e.
Proof.
  intros Hm He. unfold round_binary64_pos.
  set (x := (inject_Z m * pow2 e)%Q).
  assert (Hx : (0 < x)%Q).
  { unfold x. apply Qmult_lt_0_compat; [| apply pow2_pos].
    change 0%Q with (inject_Z 0). rewrite <- Zlt_Qlt. lia. }
  destruct (Qlog2_spec x Hx) as [L1 L2].
  assert (Hlog : Qlog2 x <= 52 + e).
  { destruct (Z.le_gt_cases (Qlog2 x) (52 + e)) as [G | G]; [exact G |].
    pose proof (pow2_le (53 + e) (Qlog2 x) ltac:(lia)) as P.
    rewrite pow2_add in P.
    assert (Hm' : (inject_Z m < pow2 53)%Q).
    { rewrite pow2_Z by lia. rewrite <- Zlt_Qlt. lia. }
    pose proof (pow2_pos e).
    assert (x < pow2 53 * pow2 e)%Q by (unfold x; apply Qmult_lt_r; assumption).
    lra. }
  set (k := e - (Z.max (Qlog2 x) (-1022) - 52)).
  assert (Hk : 0 <= k) by (unfold k; lia).
  assert (Ee : (pow2 e == pow2 k * pow2 (Z.max (Qlog2 x) (-1022) - 52))%Q).
  { rewrite <- pow2_add. unfold k.
    replace (e - (Z.max (Qlog2 x) (-1022) - 52)
             + (Z.max (Qlog2 x) (-1022) - 52)) with e by lia.
    reflexivity. }
  set (ulp := pow2 (Z.max (Qlog2 x) (-1022) - 52)) in *.
  pose proof (pow2_pos (Z.max (Qlog2 x) (-1022) - 52)) as Hu. fold ulp in Hu.
  assert (Ey : x / ulp == inject_Z (m * 2 ^ k)).
  { unfold x. rewrite Ee, inject_Z_mult, <- pow2_Z by exact Hk.
    field. lra. }
  rewrite (round_half_even_comp _ _ Ey), round_half_even_Z.
  unfold x. rewrite Ee, inject_Z_mult, <- pow2_Z by exact Hk. ring.
Qed.

Lemma round_binary64_Z (n : Z) :
  Z.abs n < 2 ^ 53 -> round_binary64 (inject_Z n) == inject_Z n.
Proof.
  intros Hn.
  assert (P : forall m, 0 < m < 2 ^ 53 ->
                round_binary64_pos (inject_Z m) == inject_Z m).
  { intros m Hm.
    pose proof (round_binary64_pos_exact m 0 Hm ltac:(lia)) as E.
    change (pow2 0) with 1%Q in E.
    rewrite (round_binary64_pos_comp (inject_Z m) (inject_Z m * 1)); [| | ring].
    - rewrite E. ring.
    - change 0%Q with (inject_Z 0). rewrite <- Zlt_Qlt. lia. }
  unfold round_binary64.
  destruct (Qcompare_spec (inject_Z n) 0) as [E | E | E].
  - symmetry. exact E.
  - change 0%Q with (inject_Z 0) in E. rewrite <- Zlt_Qlt in E.
    rewrite (round_binary64_pos_comp (- inject_Z n) (inject_Z (- n)));
      [| change 0%Q with (inject_Z 0); rewrite <- inject_Z_opp, <- Zlt_Qlt; lia
       | rewrite inject_Z_opp; reflexivity].
    rewrite P by lia. rewrite inject_Z_opp. ring.
  - change 0%Q with (inject_Z 0) in E. rewrite <- Zlt_Qlt in E.
    apply P. lia.
Qed.

(** The relative error of rounding in the normal range is at most 2^-53. *)
Lemma round_binary64_pos_error (x : Q) :
  (pow2 (-1022) <= x)%Q ->
  (round_binary64_pos x - x <= pow2 (-53) * x)%Q
  /\ (x - round_binary64_pos x <= pow2 (-53) * x)%Q.
Proof.
  intros Hx.
  assert (Hx0 : (0 < x)%Q) by (pose proof (pow2_pos (-1022)); lra).
  destruct (Qlog2_spec x Hx0) as [L1 L2].
  assert (Hn : -1022 <= Qlog2 x).
  { destruct (Z.le_gt_cases (-1022) (Qlog2 x)) as [G | G]; [exact G |].
    pose proof (pow2_le (Qlog2 x + 1) (-1022) ltac:(lia)). lra. }
  unfold round_binary64_pos.
  replace (Z.max (Qlog2 x) (-1022)) with (Qlog2 x) by lia.
  set (ulp := pow2 (Qlog2 x - 52)).
  pose proof (pow2_pos (Qlog2 x - 52)) as Hu. fold ulp in Hu.
  destruct (round_half_even_spec (x / ulp)) as [R1 R2].
  set (r := inject_Z (round_half_even (x / ulp))) in *.
  assert (Ex : x == x / ulp * ulp) by (field; lra).
  assert (Eu : (ulp == 2 * pow2 (-53) * pow2 (Qlog2 x))%Q).
  { unfold ulp. replace (Qlog2 x - 52) with (1 + (-53) + Qlog2 x) by lia.
    rewrite !pow2_add. change (pow2 1) with 2%Q. ring. }
  pose proof (pow2_pos (-53)) as H53.
  assert (Hhalf : ((1 # 2) * ulp <= pow2 (-53) * x)%Q).
  { rewrite Eu.
    setoid_replace ((1 # 2) * (2 * pow2 (-53) * pow2 (Qlog2 x)))%Q
      with (pow2 (-53) * pow2 (Qlog2 x))%Q using relation Qeq by ring.
    apply Qmult_le_l; assumption. }
  assert (M1 : ((r - x / ulp) * ulp <= (1 # 2) * ulp)%Q)
    by (apply Qmult_le_r; assumption).
  assert (M2 : ((x / ulp - r) * ulp <= (1 # 2) * ulp)%Q)
    by (apply Qmult_le_r; assumption).
  split.
  - setoid_replace (r * ulp - x)%Q with ((r - x / ulp) * ulp)%Q using relation Qeq
      by (field; lra). lra.
  - setoid_replace (x - r * ulp)%Q with ((x / ulp - r) * ulp)%Q using relation Qeq
      by (field; lra). lra.
Qed.

(** ** The dashboard *)

Lemma string_length_append (a b : String.string) :
  String.length (String.append a b) = (String.length a + String.length b)%nat.
Proof. induction a as [| ch a IH]; simpl; [reflexivity | rewrite IH; reflexivity]. Qed.

Lemma format_02d_length (n : Z) :
  0 <= n < 100 -> String.length (format_02d n) = 2%nat.
Proof.
  intros H. replace n with (Z.of_nat (Z.to_nat n)) by lia.
  assert (Hk : (Z.to_nat n < 100)%nat) by lia.
  generalize dependent (Z.to_nat n). clear H. intros k Hk.
  do 100 (destruct k as [| k]; [reflexivity |]). lia.
Qed.

Lemma py_int_nonneg (x : Q) : (0 <= x)%Q -> py_int x = Qfloor x /\ 0 <= py_int x.
Proof.
  destruct x as [a d]. unfold Qle, py_int, Qfloor. cbn. intros H.
  rewrite Z.mul_1_r in H.
  rewrite Z.quot_div_nonneg by lia.
  split; [reflexivity |]. apply Z.div_pos; lia.
Qed.

(** X13.  The three fields that [fmt_time] prints recompose to
    [int(seconds)], with minutes and seconds always in [0, 60); the hours are
    not negative for a duration that is not, and a duration under a hundred
    hours prints as eight characters, [HH:MM:SS]. *)
Theorem fmt_time_fields (seconds : Q) :
  let '(h, m, s) := hms seconds in
  h * 3600 + m * 60 + s = py_int seconds
  /\ 0 <= m < 60
  /\ 0 <= s < 60
  /\ ((0 <= seconds)%Q -> 0 <= h)
  /\ ((0 <= seconds)%Q -> (seconds < 360000)%Q ->
      String.length (fmt_time seconds) = 8%nat).
Proof.
  unfold fmt_time, hms. cbv zeta.
  set (n := py_int seconds).
  pose proof (Z.div_mod n 3600 ltac:(lia)) as D1.
  pose proof (Z.mod_pos_bound n 3600 ltac:(lia)) as B1.
  pose proof (Z.div_mod (n mod 3600) 60 ltac:(lia)) as D2.
  pose proof (Z.mod_pos_bound (n mod 3600) 60 ltac:(lia)) as B2.
  assert (Bm : 0 <= n mod 3600 / 60 < 60).
  { split; [apply Z.div_pos; lia | apply Z.div_lt_upper_bound; lia]. }
  split; [lia |]. split; [exact Bm |]. split; [exact B2 |].
  split.
  - intros H. destruct (py_int_nonneg seconds H) as [_ Hn].
    apply Z.div_pos; [exact Hn | lia].
  - intros H0 H1. destruct (py_int_nonneg seconds H0) as [En Hn]. fold n in En, Hn.
    assert (Hlt : n < 360000).
    { rewrite En, Zlt_Qlt. eapply Qle_lt_trans; [apply Qfloor_le | exact H1]. }
    assert (Bh : 0 <= n / 3600 < 100).
    { split; [apply Z.div_pos; lia | apply Z.div_lt_upper_bound; lia]. }
    rewrite !string_length_append, !format_02d_length by lia.
    reflexivity.
Qed.

Lemma float_max_pos : (pow2 1023 <= float_max)%Q.
Proof. vm_compute. discriminate. Qed.

Lemma round_binary64_pow2_1023 : round_binary64 (pow2 1023) == pow2 1023.
Proof. vm_compute. reflexivity. Qed.

Lemma in_float_range_bound (x : Q) :
  (- pow2 1023 <= x)%Q -> (x <= pow2 1023)%Q ->
  in_float_range (round_binary64 x) = true.
Proof.
  intros H1 H2. unfold in_float_range.
  pose proof float_max_pos as M.
  pose proof round_binary64_pow2_1023 as R.
  pose proof (round_binary64_le _ _ H2) as U.
  pose proof (round_binary64_le _ _ H1) as L.
  rewrite round_binary64_opp in L.
  apply andb_true_iff. split; apply Qle_bool_iff; lra.
Qed.

Lemma inject_Z_div_bounds (a b : Z) :
  0 < b ->
  (- inject_Z (Z.abs a) <= inject_Z a / inject_Z b
   /\ inject_Z a / inject_Z b <= inject_Z (Z.abs a))%Q.
Proof.
  intros Hb.
  assert (HQ : (1 <= inject_Z b)%Q).
  { change 1%Q with (inject_Z 1). rewrite <- Zle_Qle. lia. }
  assert (Ha : (0 <= inject_Z (Z.abs a))%Q).
  { change 0%Q with (inject_Z 0). rewrite <- Zle_Qle. lia. }
  assert (Ha1 : (inject_Z a <= inject_Z (Z.abs a))%Q) by (rewrite <- Zle_Qle; lia).
  assert (Ha2 : (- inject_Z (Z.abs a) <= inject_Z a)%Q).
  { rewrite <- inject_Z_opp, <- Zle_Qle. lia. }
  assert (Hm : (inject_Z (Z.abs a) <= inject_Z (Z.abs a) * inject_Z b)%Q).
  { nra. }
  split.
  - apply Qle_shift_div_l; lra.
  - apply Qle_shift_div_r; lra.
Qed.

Lemma round_binary64_consts :
  round_binary64 1 == 1
  /\ round_binary64 100 == 100
  /\ round_binary64 (1 - pow2 (-52)) == 1 - pow2 (-52)
  /\ round_binary64 (100 - pow2 (-46)) == 100 - pow2 (-46)
  /\ ((1 - pow2 (-52)) * 100 <= 100 - pow2 (-46))%Q
  /\ (0 < pow2 (-46))%Q
  /\ (100 <= float_max)%Q
  /\ round_binary64 (1 # 2) == 1 # 2.
Proof. repeat split; vm_compute; reflexivity || discriminate. Qed.

Lemma float_mul_at_least_100 (x : Q) :
  (1 <= x)%Q -> py_min_100 (float_mul x 100) = Finite 100.
Proof.
  intros Hx. destruct round_binary64_consts as (_ & C100 & _).
  assert (H : (100 <= round_binary64 (x * 100))%Q).
  { pose proof (round_binary64_le 100 (x * 100) ltac:(lra)). lra. }
  unfold float_mul.
  destruct (in_float_range (round_binary64 (x * 100))); cbn [py_min_100].
  - destruct (Qlt_le_dec (round_binary64 (x * 100)) 100); [lra | reflexivity].
  - replace (Qle_bool 0 (round_binary64 (x * 100))) with true;
      [reflexivity |].
    symmetry. apply Qle_bool_iff. lra.
Qed.

Lemma float_mul_below_100 (x : Q) :
  (x <= 1 - pow2 (-52))%Q -> below_100 (py_min_100 (float_mul x 100)).
Proof.
  intros Hx.
  destruct round_binary64_consts as (_ & _ & _ & C & Cm & Cp & Cf & _).
  assert (H : (round_binary64 (x * 100) < 100)%Q).
  { pose proof (round_binary64_le (x * 100) (100 - pow2 (-46)) ltac:(lra)).
    lra. }
  unfold float_mul.
  destruct (in_float_range (round_binary64 (x * 100))) eqn:E; cbn [py_min_100].
  - destruct (Qlt_le_dec (round_binary64 (x * 100)) 100) as [G | G];
      [exact G | lra].
  - unfold in_float_range in E. apply andb_false_iff in E.
    assert (Hneg : Qle_bool 0 (round_binary64 (x * 100)) = false).
    { destruct (Qle_bool 0 (round_binary64 (x * 100))) eqn:E0; [| reflexivity].
      apply Qle_bool_iff in E0.
      destruct E as [E | E]; exfalso.
      - assert (G : Qle_bool (- float_max) (round_binary64 (x * 100)) = true)
          by (apply Qle_bool_iff; lra).
        congruence.
      - assert (G : Qle_bool (round_binary64 (x * 100)) float_max = true)
          by (apply Qle_bool_iff; lra).
        congruence. }
    rewrite Hneg. reflexivity.
Qed.

Lemma at_most_100_min (x : PyFloat) : at_most_100 (py_min_100 x).
Proof.
  destruct x as [q | []]; cbn.
  - destruct (Qlt_le_dec q 100); cbn; lra.
  - reflexivity.
  - lra.
Qed.

Lemma int_truediv_pos (a b : Z) :
  0 < b ->
  (int_truediv a b = inr (round_binary64 (inject_Z a / inject_Z b))
   /\ in_float_range (round_binary64 (inject_Z a / inject_Z b)) = true)
  \/ (int_truediv a b = inl OverflowError /\ 2 ^ 1023 < Z.abs a).
Proof.
  intros Hb. unfold int_truediv.
  replace (b =? 0) with false by (symmetry; apply Z.eqb_neq; lia).
  destruct (in_float_range (round_binary64 (inject_Z a / inject_Z b))) eqn:E;
    [left; split; reflexivity | right].
  split; [reflexivity |].
  destruct (Z.lt_ge_cases (2 ^ 1023) (Z.abs a)) as [G | G]; [exact G |].
  exfalso.
  destruct (inject_Z_div_bounds a b Hb) as [B1 B2].
  assert (HG : (inject_Z (Z.abs a) <= pow2 1023)%Q).
  { rewrite pow2_Z by lia. rewrite <- Zle_Qle. exact G. }
  rewrite in_float_range_bound in E by lra. discriminate E.
Qed.

Lemma quotient_below_one (a b : Z) :
  0 < b <= 2 ^ 52 -> a < b ->
  (inject_Z a / inject_Z b <= 1 - pow2 (-52))%Q.
Proof.
  intros Hb Hab.
  assert (HQ : (0 < inject_Z b)%Q).
  { change 0%Q with (inject_Z 0). rewrite <- Zlt_Qlt. lia. }
  apply Qle_shift_div_r; [exact HQ |].
  assert (Ha : (inject_Z a <= inject_Z (b - 1))%Q) by (rewrite <- Zle_Qle; lia).
  unfold Z.sub in Ha. rewrite inject_Z_plus in Ha.
  change (inject_Z (- (1))) with (- (1))%Q in Ha.
  assert (Hb2 : (inject_Z b <= pow2 52)%Q).
  { rewrite pow2_Z by lia. rewrite <- Zle_Qle. lia. }
  assert (E : (pow2 (-52) * pow2 52 == 1)%Q) by (vm_compute; reflexivity).
  pose proof (pow2_pos (-52)) as P.
  assert (M : (pow2 (-52) * inject_Z b <= pow2 (-52) * pow2 52)%Q)
    by (apply Qmult_le_l; assumption).
  lra.
Qed.

(** X14.  The progress of the dashboard, when it is shown ([target] set and
    positive).  The cycles remaining are not negative, and none remains
    exactly when the target rule of [maybe_pause_or_stop] stops the run.  The
    percentage is at most 100; it is 100 when no cycle remains; and for a
    target of at most [2^52] it is below 100 while a cycle remains.  The
    division raises nothing but an [OverflowError], and that only for a
    count beyond [2^1023]. *)
Theorem dash_progress_full (target : option Z) (total_cycles : Z) :
  (forall (pct : PyFloat) (remaining : Z),
      dash_progress target total_cycles = inr (Some (pct, remaining)) ->
      0 <= remaining
      /\ (remaining = 0 <-> reached_count target total_cycles = true)
      /\ at_most_100 pct
      /\ (remaining = 0 -> pct = Finite 100)
      /\ (forall t : Z, target = Some t -> t <= 2 ^ 52 -> 0 < remaining ->
            below_100 pct))
  /\ (forall e : Exn,
        dash_progress target total_cycles = inl e ->
        e = OverflowError /\ 2 ^ 1023 < Z.abs total_cycles).
Proof.
  unfold dash_progress, reached_count.
  destruct target as [t |]; [| split; intros; discriminate].
  destruct (negb (t =? 0) && (0 <? t)) eqn:E; [| split; intros; discriminate].
  assert (Ht : 0 < t) by lia.
  destruct (int_truediv_pos total_cycles t Ht) as [[-> _] | [-> Hbig]].
  2:{ split; [intros; discriminate |].
      intros e H. injection H as <-. split; [reflexivity | exact Hbig]. }
  split; [| intros; discriminate].
  intros pct remaining H. injection H as <- <-.
  set (q := round_binary64 (inject_Z total_cycles / inject_Z t)).
  split; [lia |]. split; [rewrite Z.leb_le; lia |].
  split; [apply at_most_100_min |]. split.
  - intros Hr. apply float_mul_at_least_100.
    destruct round_binary64_consts as (C1 & _).
    assert (HQ : (0 < inject_Z t)%Q).
    { change 0%Q with (inject_Z 0). rewrite <- Zlt_Qlt. lia. }
    assert (Hq : (1 <= inject_Z total_cycles / inject_Z t)%Q).
    { apply Qle_shift_div_l; [exact HQ |]. rewrite Qmult_1_l.
      rewrite <- Zle_Qle. lia. }
    pose proof (round_binary64_le _ _ Hq). fold q in H. lra.
  - intros t' Et Hsmall Hr. injection Et as <-.
    apply float_mul_below_100.
    destruct round_binary64_consts as (_ & _ & C & _).
    pose proof (quotient_below_one total_cycles t ltac:(lia) ltac:(lia)) as Hq.
    pose proof (round_binary64_le _ _ Hq). fold q in H. lra.
Qed.

Lemma dash_progress_full_witness :
  dash_progress (Some 4) 3 = inr (Some three_of_four)
  /\ snd three_of_four = 1
  /\ below_100 (fst three_of_four).
Proof.
  assert (E : dash_progress (Some 4) 3
              = inr (Some (fst three_of_four, snd three_of_four)))
    by (vm_compute; reflexivity).
  split; [exact E |]. split; [reflexivity |].
  destruct (proj1 (dash_progress_full (Some 4) 3) _ _ E) as (_ & _ & _ & _ & G).
  apply (G 4 eq_refl); [vm_compute; discriminate | reflexivity].
Defined.

(** Beyond [2^52] the last step of the bar can be lost in the rounding: with
    one cycle of [10^17] remaining the bar is full. *)
Lemma dash_progress_rounded :
  dash_progress (Some (10 ^ 17)) (10 ^ 17 - 1) = inr (Some (Finite 100, 1)).
Proof. vm_compute. reflexivity. Qed.

Lemma Qfloor_unique (x : Q) (n : Z) :
  (inject_Z n <= x)%Q -> (x < inject_Z (n + 1))%Q -> Qfloor x = n.
Proof.
  intros H1 H2.
  pose proof (Qfloor_le x) as F1. pose proof (Qlt_floor x) as F2.
  assert (A : Qfloor x < n + 1) by (rewrite Zlt_Qlt; lra).
  assert (B : n < Qfloor x + 1) by (rewrite Zlt_Qlt; lra).
  lia.
Qed.

Lemma round_binary64_0 : round_binary64 0 == 0.
Proof. reflexivity. Qed.

(** Dividing and truncating integers through a float gives the integer
    quotient as long as the dividend has less than 54 bits. *)
Lemma int_div_float (a b : Z) :
  0 < a < 2 ^ 53 -> 0 < b ->
  py_int (round_binary64 (inject_Z a / inject_Z b)) = a / b.
Proof.
  intros Ha Hb.
  set (n := a / b).
  pose proof (Z.div_mod a b ltac:(lia)) as D.
  pose proof (Z.mod_pos_bound a b Hb) as B. fold n in D.
  assert (Hn : 0 <= n) by (apply Z.div_pos; lia).
  assert (Hna : n <= a) by nia.
  assert (HB : (0 < inject_Z b)%Q).
  { change 0%Q with (inject_Z 0). rewrite <- Zlt_Qlt. exact Hb. }
  assert (HA : (0 < inject_Z a)%Q).
  { change 0%Q with (inject_Z 0). rewrite <- Zlt_Qlt. lia. }
  set (q := (inject_Z a / inject_Z b)%Q).
  assert (Eq : (q * inject_Z b == inject_Z a)%Q) by (unfold q; field; lra).
  assert (L : (inject_Z n <= q)%Q).
  { unfold q. apply Qle_shift_div_l; [exact HB |].
    rewrite <- inject_Z_mult, <- Zle_Qle. nia. }
  assert (U : ((q - inject_Z n) * inject_Z b <= inject_Z b - 1)%Q).
  { assert (E : ((q - inject_Z n) * inject_Z b
                 == inject_Z (a - n * b))%Q).
    { unfold Z.sub. rewrite inject_Z_plus, inject_Z_opp, inject_Z_mult. lra. }
    rewrite E.
    assert (E2 : (inject_Z b - 1 == inject_Z (b - 1))%Q).
    { unfold Z.sub. rewrite inject_Z_plus. reflexivity. }
    rewrite E2, <- Zle_Qle. nia. }
  assert (N0 : (0 <= inject_Z n)%Q).
  { change 0%Q with (inject_Z 0). rewrite <- Zle_Qle. exact Hn. }
  assert (Lo : (inject_Z n <= round_binary64 q)%Q).
  { pose proof (round_binary64_le _ _ L) as G.
    rewrite round_binary64_Z in G by lia. exact G. }
  assert (Up : (round_binary64 q < inject_Z (n + 1))%Q).
  { rewrite inject_Z_plus. change (inject_Z 1) with 1%Q.
    destruct (Qlt_le_dec (1 # 2) q) as [Hq | Hq].
    - assert (Hq0 : (0 < q)%Q) by lra.
      assert (Hnorm : (pow2 (-1022) <= q)%Q).
      { assert (C : (pow2 (-1022) <= 1 # 2)%Q) by (vm_compute; discriminate).
        lra. }
      destruct (round_binary64_pos_error q Hnorm) as [E1 _].
      assert (Er : round_binary64 q = round_binary64_pos q).
      { unfold round_binary64.
        destruct (Qcompare_spec q 0) as [G | G | G]; [lra | lra | reflexivity]. }
      rewrite Er.
      assert (P53 : (pow2 (-53) * inject_Z (2 ^ 53) == 1)%Q)
        by (vm_compute; reflexivity).
      pose proof (pow2_pos (-53)) as P.
      assert (A53 : (inject_Z a <= inject_Z (2 ^ 53) - 1)%Q).
      { assert (E2 : (inject_Z (2 ^ 53) - 1 == inject_Z (2 ^ 53 - 1))%Q).
        { unfold Z.sub. rewrite inject_Z_plus. reflexivity. }
        rewrite E2, <- Zle_Qle. lia. }
      assert (S : (pow2 (-53) * q * inject_Z b < 1)%Q).
      { setoid_replace (pow2 (-53) * q * inject_Z b)%Q
          with (pow2 (-53) * inject_Z a)%Q using relation Qeq by (rewrite <- Eq; ring).
        assert (M : (pow2 (-53) * inject_Z a
                     <= pow2 (-53) * (inject_Z (2 ^ 53) - 1))%Q)
          by (apply Qmult_le_l; assumption).
        lra. }
      assert (T : ((round_binary64_pos q - inject_Z n) * inject_Z b
                   < 1 * inject_Z b)%Q).
      { assert (E3 : ((round_binary64_pos q - q) * inject_Z b
                      <= pow2 (-53) * q * inject_Z b)%Q)
          by (apply Qmult_le_r; assumption).
        lra. }
      apply Qmult_lt_r in T; [lra | exact HB].
    - destruct round_binary64_consts as (_ & _ & _ & _ & _ & _ & _ & Ch).
      pose proof (round_binary64_le _ _ Hq). lra. }
  destruct (py_int_nonneg (round_binary64 q) ltac:(lra)) as [-> _].
  apply Qfloor_unique; assumption.
Qed.

(** X15.  The "cycles to goal" field.  When it shows a number [k], a goal
    is set, the net profit per cycle is positive, profit remains to be made
    and [k >= 1]; and when the profit that remains is below [2^53], [k] is
    the least number of further cycles after which the profit exceeds the
    goal: after [k - 1] more cycles it is still at most the goal.  It shows
    "Goal reached!" exactly when a goal is set, the net profit is positive
    and the profit so far is at least the goal.  The division raises nothing
    but an [OverflowError], and that only for a remaining profit beyond
    [2^1023]. *)
Theorem dash_goal_cycles_least (coin_goal : option Z) (cost reward cycles : Z) :
  (forall k : Z,
      dash_goal_cycles coin_goal cost reward cycles = inr (CyclesNeeded k) ->
      exists goal : Z,
        coin_goal = Some goal
        /\ 0 < reward - cost
        /\ 0 < goal - cycles * (reward - cost)
        /\ 1 <= k
        /\ (goal - cycles * (reward - cost) < 2 ^ 53 ->
            (cycles + (k - 1)) * (reward - cost) <= goal
            /\ goal < (cycles + k) * (reward - cost)))
  /\ (dash_goal_cycles coin_goal cost reward cycles = inr GoalReached
      <-> exists goal : Z,
            coin_goal = Some goal /\ goal <> 0
            /\ 0 < reward - cost
            /\ goal <= cycles * (reward - cost))
  /\ (forall e : Exn,
        dash_goal_cycles coin_goal cost reward cycles = inl e ->
        e = OverflowError
        /\ exists goal : Z,
             coin_goal = Some goal
             /\ 2 ^ 1023 < goal - cycles * (reward - cost)).
Proof.
  unfold dash_goal_cycles. cbv zeta.
  set (net := reward - cost).
  destruct coin_goal as [goal |].
  2:{ split; [discriminate |]. split; [| discriminate].
      split; [discriminate |]. intros (g & E & _). discriminate E. }
  destruct (negb (goal =? 0) && (0 <? net)) eqn:E.
  2:{ split; [discriminate |]. split; [| discriminate].
      split; [discriminate |].
      intros (g & Eg & Hg & Hn & _). injection Eg as <-. lia. }
  assert (Hn : 0 < net) by lia. assert (Hg : goal <> 0) by lia.
  destruct (Z.ltb_spec 0 (goal - cycles * net)) as [Hr | Hr].
  - destruct (int_truediv_pos (goal - cycles * net) net Hn)
      as [[-> _] | [-> Hbig]].
    + split; [| split; [| discriminate]].
      * intros k H. injection H as <-.
        set (q := round_binary64
                    (inject_Z (goal - cycles * net) / inject_Z net)).
        assert (Hq : (0 <= q)%Q).
        { pose proof (round_binary64_le 0
                        (inject_Z (goal - cycles * net) / inject_Z net)) as G.
          fold q in G. apply G.
          apply Qle_shift_div_l.
          - change 0%Q with (inject_Z 0). rewrite <- Zlt_Qlt. exact Hn.
          - rewrite Qmult_0_l. change 0%Q with (inject_Z 0).
            rewrite <- Zle_Qle. lia. }
        destruct (py_int_nonneg q Hq) as [_ Hp].
        exists goal. split; [reflexivity |]. split; [exact Hn |].
        split; [exact Hr |]. split; [lia |].
        intros Hsmall. unfold q. rewrite int_div_float by lia.
        pose proof (Z.div_mod (goal - cycles * net) net ltac:(lia)) as D.
        pose proof (Z.mod_pos_bound (goal - cycles * net) net Hn) as B.
        split; nia.
      * split; [discriminate |].
        intros (g & Eg & _ & _ & Hle). injection Eg as <-. lia.
    + split; [discriminate |]. split.
      * split; [discriminate |].
        intros (g & Eg & _ & _ & Hle). injection Eg as <-. lia.
      * intros e H. injection H as <-. split; [reflexivity |].
        exists goal. split; [reflexivity |]. lia.
  - split; [discriminate |]. split; [| discriminate].
    split; [| reflexivity].
    intros _. exists goal. repeat split; try assumption. lia.
Qed.


(** Beyond [2^53] the count can be one short: for a goal of [2^53 + 1] coins
    at one coin per cycle the field shows [2^53 + 1], after which the profit
    equals the goal. *)
Lemma dash_goal_cycles_rounded :
  dash_goal_cycles (Some (2 ^ 53 + 1)) 0 1 0 = inr (CyclesNeeded (2 ^ 53 + 1)).
Proof. vm_compute. reflexivity. Qed.

(** ** Calibration *)

Lemma py_int_inject_Z (x : Q) (n : Z) : x == inject_Z n -> py_int x = n.
Proof.
  destruct x as [a d]. unfold Qeq, py_int. cbn. intros E.
  rewrite Z.mul_1_r in E. subst a. apply Z.quot_mul. lia.
Qed.

Lemma read_int_of_str_exact (n : Z) :
  Z.abs n < 2 ^ 53 -> read_int_of_str n = inr n.
Proof.
  intros Hn. unfold read_int_of_str.
  assert (B : (inject_Z (Z.abs n) <= pow2 1023)%Q).
  { rewrite pow2_Z by lia. rewrite <- Zle_Qle.
    assert (2 ^ 53 <= 2 ^ 1023) by (apply Z.pow_le_mono_r; lia). lia. }
  assert (B1 : (inject_Z n <= inject_Z (Z.abs n))%Q) by (rewrite <- Zle_Qle; lia).
  assert (B2 : (- inject_Z (Z.abs n) <= inject_Z n)%Q).
  { rewrite <- inject_Z_opp, <- Zle_Qle. lia. }
  rewrite in_float_range_bound by lra.
  rewrite (py_int_inject_Z _ n); [reflexivity |].
  apply round_binary64_Z. exact Hn.
Qed.

Lemma calibrate_three (a b c : CalibPoint) (xy : CalibPoint -> Z * Z)
    (pts : CalibPoints) (vars : GridVars) :
  a <> b -> a <> c -> b <> c ->
  calibrate [(a, xy a); (b, xy b); (c, xy c)] pts vars
  = (mkCalibPoints (Some (xy P00)) (Some (xy P01)) (Some (xy P10)),
     mkGridVars (fst (xy P00)) (snd (xy P00))
                (fst (xy P01) - fst (xy P00))
                (snd (xy P10) - snd (xy P00))).
Proof.
  intros Hab Hac Hbc.
  destruct (xy P00) as [x0 y0] eqn:E0, (xy P01) as [x1 y1] eqn:E1,
    (xy P10) as [x2 y2] eqn:E2.
  destruct a, b, c; try congruence; cbn; rewrite ?E0, ?E1, ?E2; reflexivity.
Qed.

(** X16.  Capturing the three calibration points, in any order and whatever
    was captured or typed before, leaves the grid entries at
    [origin = p00], [step_x = p01.x - p00.x] and [step_y = p10.y - p00.y].
    For points with coordinates below [2^52] the next start reads the
    entries back as they are, and the offset as it was typed: the centre
    that the run computes for (0, 0) is [p00] moved by
    [(offset_dx, offset_dy)], the one for (0, 1) has the abscissa of [p01]
    and the one for (1, 0) the ordinate of [p10], moved likewise. *)
Theorem calibrate_any_order (a b c : CalibPoint) (xy : CalibPoint -> Z * Z)
    (pts : CalibPoints) (vars : GridVars) (g : GridConfig) :
  a <> b -> a <> c -> b <> c ->
  (forall p : CalibPoint,
      Z.abs (fst (xy p)) < 2 ^ 52 /\ Z.abs (snd (xy p)) < 2 ^ 52) ->
  let '(pts', vars') := calibrate [(a, xy a); (b, xy b); (c, xy c)] pts vars in
  pts' = mkCalibPoints (Some (xy P00)) (Some (xy P01)) (Some (xy P10))
  /\ vars' = mkGridVars (fst (xy P00)) (snd (xy P00))
                        (fst (xy P01) - fst (xy P00))
                        (snd (xy P10) - snd (xy P00))
  /\ exists g' : GridConfig,
       sync_grid vars' g = inr g'
       /\ origin_x g' = fst (xy P00)
       /\ origin_y g' = snd (xy P00)
       /\ step_x g' = fst (xy P01) - fst (xy P00)
       /\ step_y g' = snd (xy P10) - snd (xy P00)
       /\ offset_dx g' = offset_dx g
       /\ offset_dy g' = offset_dy g
       /\ centre g' 0 0
          = (fst (xy P00) + offset_dx g, snd (xy P00) + offset_dy g)
       /\ fst (centre g' 0 1) = fst (xy P01) + offset_dx g
       /\ snd (centre g' 1 0) = snd (xy P10) + offset_dy g.
Proof.
  intros Hab Hac Hbc Hxy.
  rewrite (calibrate_three a b c xy pts vars Hab Hac Hbc).
  split; [reflexivity |]. split; [reflexivity |].
  destruct (Hxy P00) as [X0 Y0], (Hxy P01) as [X1 _], (Hxy P10) as [_ Y2].
  assert (P : 2 ^ 53 = 2 * 2 ^ 52) by reflexivity.
  unfold sync_grid. cbn [var_origin_x var_origin_y var_step_x var_step_y].
  rewrite !read_int_of_str_exact by lia.
  eexists. split; [reflexivity |].
  unfold centre. cbn. repeat split; try reflexivity; try lia; f_equal; lia.
Qed.

Lemma calibrate_any_order_witness :
  P10 <> P00 /\ P10 <> P01 /\ P00 <> P01
  /\ exists g' : GridConfig,
       sync_grid (snd (calibrate [(P10, captured P10); (P00, captured P00);
                                  (P01, captured P01)] no_points grid_vars_0))
                 offsets_typed = inr g'
       /\ centre g' 0 0 = (857, 398).
Proof.
  assert (H1 : P10 <> P00) by discriminate.
  assert (H2 : P10 <> P01) by discriminate.
  assert (H3 : P00 <> P01) by discriminate.
  split; [exact H1 |]. split; [exact H2 |]. split; [exact H3 |].
  assert (H4 : forall p : CalibPoint,
             Z.abs (fst (captured p)) < 2 ^ 52
             /\ Z.abs (snd (captured p)) < 2 ^ 52).
  { intros p. destruct p; split; reflexivity. }
  pose proof (calibrate_any_order P10 P00 P01 captured no_points grid_vars_0
                offsets_typed H1 H2 H3 H4) as G.
  rewrite (calibrate_three P10 P00 P01 captured no_points grid_vars_0 H1 H2 H3)
    in G |- *.
  destruct G as (_ & _ & g' & E & _ & _ & _ & _ & _ & _ & C & _).
  exists g'. split; [exact E | exact C].
Defined.

(** ** The statistics window *)

Lemma Qsum_bounds (lo hi : Q) (l : list Q) :
  Forall (fun x => lo <= x /\ x <= hi)%Q l ->
  (inject_Z (Z.of_nat (length l)) * lo <= Qsum l
   /\ Qsum l <= inject_Z (Z.of_nat (length l)) * hi)%Q.
Proof.
  induction 1 as [| x l [Hlo Hhi] _ IH]; cbn [Qsum fold_right length].
  - change (inject_Z (Z.of_nat 0)) with 0%Q. lra.
  - rewrite Nat2Z.inj_succ. unfold Z.succ. rewrite inject_Z_plus.
    change (inject_Z 1) with 1%Q. fold (Qsum l). lra.
Qed.

Lemma fold_Qmin_le (x : Q) (xs : list Q) :
  (fold_right Qmin x xs <= x)%Q
  /\ Forall (fun y => fold_right Qmin x xs <= y)%Q xs.
Proof.
  induction xs as [| y ys [IH1 IH2]]; cbn [fold_right].
  - split; [lra | constructor].
  - pose proof (Q.le_min_l y (fold_right Qmin x ys)) as H1.
    pose proof (Q.le_min_r y (fold_right Qmin x ys)) as H2.
    split; [lra |]. constructor; [exact H1 |].
    eapply Forall_impl; [exact IH2 |]. intros z Hz. cbv beta in Hz. lra.
Qed.

Lemma fold_Qmax_ge (x : Q) (xs : list Q) :
  (x <= fold_right Qmax x xs)%Q
  /\ Forall (fun y => y <= fold_right Qmax x xs)%Q xs.
Proof.
  induction xs as [| y ys [IH1 IH2]]; cbn [fold_right].
  - split; [lra | constructor].
  - pose proof (Q.le_max_l y (fold_right Qmax x ys)) as H1.
    pose proof (Q.le_max_r y (fold_right Qmax x ys)) as H2.
    split; [lra |]. constructor; [exact H1 |].
    eapply Forall_impl; [exact IH2 |]. intros z Hz. cbv beta in Hz. lra.
Qed.

(** X17.  [print_stats] with at least one cycle recorded.  For
    [stats_window >= 1] the window is the last [stats_window] cycle times (all
    of them when there are fewer); for [stats_window = 0] it is all of them,
    since [cycle_times[-0:]] is the whole list.  In both cases its mean lies
    between its minimum and its maximum.  For a negative [stats_window] the
    slice drops that many times from the front, and when none is left
    [statistics.mean] raises. *)
Theorem print_stats_window (stats_window : Z) (cooldown : Q) (times : list Q) :
  times <> [] ->
  (0 <= stats_window ->
   exists (avg mn mx : Q) (slow : bool),
     print_stats stats_window cooldown times
     = CycleStats
         (skipn (if stats_window =? 0 then 0%nat
                 else (length times - Z.to_nat stats_window)%nat) times)
         avg mn mx slow
     /\ (mn <= avg)%Q /\ (avg <= mx)%Q)
  /\ (stats_window < 0 ->
      Z.of_nat (length times) <= - stats_window ->
      print_stats stats_window cooldown times = StatisticsError).
Proof.
  intros Hne. destruct times as [| t0 ts]; [congruence |].
  set (times := t0 :: ts) in *.
  unfold print_stats. fold times. unfold py_slice_from.
  split.
  - intros Hn.
    assert (Hstart :
      Z.to_nat (if - stats_window <? 0
                then Z.max (- stats_window + Z.of_nat (length times)) 0
                else Z.min (- stats_window) (Z.of_nat (length times)))
      = (if stats_window =? 0 then 0%nat
         else (length times - Z.to_nat stats_window)%nat)).
    { destruct (Z.eqb_spec stats_window 0) as [-> | Hnz].
      - cbn. reflexivity.
      - destruct (Z.ltb_spec (- stats_window) 0); lia. }
    rewrite Hstart.
    set (k := if stats_window =? 0 then 0%nat
              else (length times - Z.to_nat stats_window)%nat).
    assert (Hk : (k < length times)%nat).
    { unfold k. destruct (Z.eqb_spec stats_window 0); cbn [length times]; lia. }
    destruct (skipn k times) as [| x xs] eqn:Ew.
    { exfalso. apply (f_equal (@length Q)) in Ew. rewrite length_skipn in Ew.
      cbn [length] in Ew. lia. }
    eexists _, _, _, _. split; [reflexivity |].
    destruct (fold_Qmin_le x xs) as [L1 L2].
    destruct (fold_Qmax_ge x xs) as [U1 U2].
    assert (Hall : Forall (fun y => fold_right Qmin x xs <= y
                                    /\ y <= fold_right Qmax x xs)%Q (x :: xs)).
    { constructor; [split; assumption |].
      apply Forall_forall. intros y Hy.
      rewrite Forall_forall in L2, U2. split; [apply L2 | apply U2]; exact Hy. }
    destruct (Qsum_bounds _ _ _ Hall) as [S1 S2].
    assert (Hlen : (0 < inject_Z (Z.of_nat (length (x :: xs))))%Q).
    { change 0%Q with (inject_Z 0). rewrite <- Zlt_Qlt. cbn [length]. lia. }
    split.
    + apply Qle_shift_div_l; [exact Hlen | lra].
    + apply Qle_shift_div_r; [exact Hlen | lra].
  - intros Hn Hlen.
    replace (- stats_window <? 0) with false by (symmetry; apply Z.ltb_ge; lia).
    rewrite Z.min_r by lia. rewrite Nat2Z.id.
    rewrite skipn_all. reflexivity.
Qed.

Lemma print_stats_window_witness :
  three_times <> []
  /\ exists (avg mn mx : Q) (slow : bool),
       print_stats 2 8 three_times
       = CycleStats (skipn (if 2 =? 0 then 0%nat
                            else (length three_times - Z.to_nat 2)%nat)
                           three_times) avg mn mx slow
       /\ (mn <= avg)%Q /\ (avg <= mx)%Q.
Proof.
  assert (H : three_times <> []) by discriminate.
  split; [exact H |].
  apply (proj1 (print_stats_window 2 8 three_times H)). lia.
Defined.

(** ** The length of an undisturbed sleep *)

Lemma sleep_interruptible_loop_slices step :
  (0 < step)%Q ->
  forall (n : nat) end_ total w,
    script w = [] -> pause_event w = false -> stop_event w = false ->
    ((inject_Z (Z.of_nat n) - 1) * step < end_ - now w)%Q ->
    (end_ - now w <= inject_Z (Z.of_nat n) * step)%Q ->
    exists w',
      sleep_interruptible_loop (S n) step end_ total w = Done total w'
      /\ (now w' == now w + inject_Z (Z.of_nat n) * step)%Q
      /\ stop_event w' = false /\ pause_event w' = false
      /\ length (trace w') = (length (trace w) + n)%nat.
Proof.
  intros Hstep.
  induction n as [| n IH]; intros end_ total w Hsc Hp Hs Hlo Hhi;
    cbn [sleep_interruptible_loop];
    destruct (Qlt_le_dec (now w) end_) as [Hlt | Hge].
  - change (inject_Z (Z.of_nat 0)) with 0%Q in Hhi. lra.
  - exists w. change (inject_Z (Z.of_nat 0)) with 0%Q.
    repeat split; try assumption; [lra | lia].
  - rewrite Hs, Hp.
    destruct (time_sleep_quiet step w ltac:(lra) Hsc)
      as (w1 & E1 & Hn1 & Hsc1 & Hs1 & Hp1).
    pose proof E1 as E1'. apply time_sleep_done in E1'.
    destruct E1' as (_ & Ht1 & _).
    unfold bind. rewrite E1.
    rewrite Nat2Z.inj_succ in Hlo, Hhi |- *. unfold Z.succ in *.
    rewrite inject_Z_plus in Hlo, Hhi |- *.
    change (inject_Z 1) with 1%Q in *.
    destruct (IH end_ total w1) as (w' & E & Hn & Hs' & Hp' & Hl);
      try congruence; try (rewrite Hn1; lra).
    exists w'. split; [exact E |]. rewrite Hn1 in Hn.
    split; [lra |]. split; [exact Hs' |]. split; [exact Hp' |].
    rewrite Hl, Ht1. cbn [length]. lia.
  - exfalso. rewrite Nat2Z.inj_succ in Hlo. unfold Z.succ in Hlo.
    rewrite inject_Z_plus in Hlo. change (inject_Z 1) with 1%Q in Hlo.
    assert (H0 : (0 <= inject_Z (Z.of_nat n))%Q).
    { change 0%Q with (inject_Z 0). rewrite <- Zle_Qle. lia. }
    assert (H1 : (0 <= (inject_Z (Z.of_nat n) + 1 - 1) * step)%Q).
    { apply Qmult_le_0_compat; lra. }
    lra.
Qed.

(** X18.  With no controller action to come, the run neither paused nor
    stopped and a positive slice, [sleep_interruptible(d, step)] for [d >= 0]
    sleeps exactly [ceil(d / step)] slices and returns: the clock has
    advanced by that many slices, which is at least [d] and less than
    [d + step], and the pause time returned is 0. *)
Theorem sleep_interruptible_quiet (d step : Q) (w : World) :
  (0 < step)%Q -> (0 <= d)%Q ->
  script w = [] -> pause_event w = false -> stop_event w = false ->
  exists w' : World,
    sleep_interruptible (S (Z.to_nat (Qceiling (d / step)))) d step w
    = Done 0%Q w'
    /\ (now w' == now w + inject_Z (Qceiling (d / step)) * step)%Q
    /\ (now w + d <= now w')%Q
    /\ (now w' < now w + d + step)%Q
    /\ length (trace w')
       = (length (trace w) + Z.to_nat (Qceiling (d / step)))%nat
    /\ stop_event w' = false /\ pause_event w' = false.
Proof.
  intros Hstep Hd Hsc Hp Hs.
  set (x := (d / step)%Q).
  assert (Hx : (x * step == d)%Q).
  { unfold x, Qdiv. rewrite <- Qmult_assoc, (Qmult_comm (/ step)).
    rewrite Qmult_inv_r by lra. apply Qmult_1_r. }
  assert (Hx0 : (0 <= x)%Q).
  { unfold x. apply Qle_shift_div_l; [exact Hstep | lra]. }
  pose proof (Qle_ceiling x) as Hc1.
  pose proof (Qceiling_lt x) as Hc2.
  assert (Hc0 : 0 <= Qceiling x).
  { rewrite Zle_Qle. change (inject_Z 0) with 0%Q. lra. }
  assert (En : inject_Z (Z.of_nat (Z.to_nat (Qceiling x))) = inject_Z (Qceiling x)).
  { rewrite Z2Nat.id by exact Hc0. reflexivity. }
  unfold Z.sub in Hc2. rewrite inject_Z_plus in Hc2.
  change (inject_Z (- (1))) with (- (1))%Q in Hc2.
  assert (Hlo : ((inject_Z (Qceiling x) - 1) * step < d)%Q).
  { rewrite <- Hx. apply Qmult_lt_r; [exact Hstep | lra]. }
  assert (Hhi : (d <= inject_Z (Qceiling x) * step)%Q).
  { rewrite <- Hx. apply Qmult_le_r; [exact Hstep | lra]. }
  destruct (sleep_interruptible_loop_slices step Hstep
              (Z.to_nat (Qceiling x)) (now w + d)%Q 0%Q w Hsc Hp Hs)
    as (w' & E & Hn & Hs' & Hp' & Hl).
  { rewrite En. lra. }
  { rewrite En. lra. }
  exists w'. rewrite En in Hn.
  split; [unfold sleep_interruptible, bind, get; exact E |].
  split; [exact Hn |]. split; [lra |]. split; [lra |].
  split; [exact Hl |]. split; assumption.
Qed.

Lemma sleep_interruptible_quiet_witness :
  (0 < 5 # 100)%Q /\ (0 <= 12 # 100)%Q
  /\ exists w' : World,
       sleep_interruptible
         (S (Z.to_nat (Qceiling ((12 # 100) / (5 # 100))))) (12 # 100) (5 # 100)
         quiet_world = Done 0%Q w'
       /\ (now quiet_world + (12 # 100) <= now w')%Q.
Proof.
  assert (H1 : (0 < 5 # 100)%Q) by reflexivity.
  assert (H2 : (0 <= 12 # 100)%Q) by discriminate.
  split; [exact H1 |]. split; [exact H2 |].
  destruct (sleep_interruptible_quiet (12 # 100) (5 # 100) quiet_world H1 H2
              eq_refl eq_refl eq_refl) as (w' & E & _ & G & _).
  exists w'. split; assumption.
Defined.

(** ** [click_tile] of the first script *)

Lemma V1_sleep_interruptible_loop_ensures fuel step :
  (0 <= step)%Q ->
  forall end_ w,
    ensures (V1.sleep_interruptible_loop fuel step end_ w)
            (fun _ w' => Idles w w').
Proof.
  intros Hstep.
  induction fuel as [| fuel IH]; intros end_ w; simpl; [exact I |].
  destruct (Qlt_le_dec (now w) end_) as [Hlt | Hge]; simpl;
    [| apply Idles_refl].
  destruct (stop_event w) eqn:Es; simpl; [apply Idles_refl |].
  destruct (pause_event w) eqn:Ep.
  - rewrite bind_get. unfold V1.wait_if_paused.
    eapply ensures_bind.
    { apply wait_if_paused_loop_ensures. apply Q.max_le_iff. left. exact Hstep. }
    intros u w1 [H1 _]. rewrite bind_get.
    eapply ensures_weaken; [apply IH |].
    intros u2 w2 H2. cbv beta in H2 |- *. eapply Idles_trans; eassumption.
  - eapply ensures_bind; [apply time_sleep_ensures; exact Hstep |].
    intros u w1 H1. cbv beta in H1.
    eapply ensures_weaken; [apply IH |].
    intros u2 w2 H2. cbv beta in H2 |- *. eapply Idles_trans; eassumption.
Qed.

Lemma V1_sleep_interruptible_ensures fuel d step w :
  (0 <= step)%Q ->
  ensures (V1.sleep_interruptible fuel d step w) (fun _ w' => Idles w w').
Proof.
  intros Hstep. unfold V1.sleep_interruptible. rewrite bind_get.
  apply V1_sleep_interruptible_loop_ensures. exact Hstep.
Qed.

Lemma between_tiles_ensures fuel k w :
  ensures (Script.between_tiles fuel k w) (fun _ w' => Idles w w').
Proof.
  unfold Script.between_tiles.
  eapply ensures_bind; [apply jittered_ensures |].
  intros q w1 H1. cbv beta in H1.
  eapply ensures_weaken;
    [apply V1_sleep_interruptible_ensures; apply default_sleep_step_nonneg |].
  intros u w2 H2. cbv beta in H2 |- *. eapply Idles_trans; eassumption.
Qed.

Lemma click_tile_ensures fuel k x y w :
  ensures (Script.click_tile fuel k x y w)
    (fun replanted w' =>
       exists (dx dy : Z) (n : nat),
         clicks (trace w') = clicks (trace w) ++ repeat (x + dx, y + dy) n
         /\ (replanted = true <-> n = 2%nat)
         /\ (n <= 2)%nat
         /\ (replanted = true -> Script.DOUBLE_CLICK k = true)
         /\ (stop_event w = true <-> n = 0%nat)).
Proof.
  unfold Script.click_tile. rewrite bind_get.
  destruct (stop_event w) eqn:Es.
  { unfold ret, ensures. exists 0, 0, 0%nat. cbn. rewrite app_nil_r.
    repeat split; intros; try lia; try congruence. }
  unfold V1.wait_if_paused.
  eapply ensures_bind;
    [apply wait_if_paused_loop_ensures; apply default_wait_step_nonneg |].
  intros u1 w1 [H1 _].
  eapply ensures_bind; [apply random_offset_ensures |].
  intros [dx dy] w2 [H2 _]. cbn [fst snd].
  rewrite bind_click.
  destruct (record_click_Advances (x + dx) (y + dy) (stop_event w2) w2)
    as (_ & Hc3 & _).
  set (w3 := record (Clicked (x + dx) (y + dy) (stop_event w2)) w2) in *.
  assert (Hc03 : clicks (trace w3) = clicks (trace w) ++ [(x + dx, y + dy)]).
  { rewrite Hc3. destruct H1, H2. congruence. }
  assert (Once : forall w', Idles w3 w' ->
            exists (dx' dy' : Z) (n : nat),
              clicks (trace w') = clicks (trace w) ++ repeat (x + dx', y + dy') n
              /\ (false = true <-> n = 2%nat)
              /\ (n <= 2)%nat
              /\ (false = true -> Script.DOUBLE_CLICK k = true)
              /\ (false = true <-> n = 0%nat)).
  { intros w' Hi. exists dx, dy, 1%nat. destruct Hi as [_ _ Hcl _ _ _ _ _ _].
    rewrite Hcl, Hc03. cbn. repeat split; intros; try lia; try congruence. }
  rewrite bind_get.
  destruct (stop_event w3) eqn:Es3.
  { unfold ret, ensures. apply Once. apply Idles_refl. }
  destruct (Script.DOUBLE_CLICK k) eqn:Ek.
  2:{ eapply ensures_bind; [apply between_tiles_ensures |].
      intros u w4 H4. cbv beta in H4. unfold ret, ensures.
      apply Once. exact H4. }
  eapply ensures_bind; [apply jittered_ensures |].
  intros q w4 H4. cbv beta in H4.
  eapply ensures_bind;
    [apply V1_sleep_interruptible_ensures; apply default_sleep_step_nonneg |].
  intros u5 w5 H5. cbv beta in H5. rewrite bind_get.
  assert (H35 : Idles w3 w5) by (eapply Idles_trans; eassumption).
  destruct (stop_event w5) eqn:Es5.
  { unfold ret, ensures. apply Once. exact H35. }
  eapply ensures_bind;
    [apply wait_if_paused_loop_ensures; apply default_wait_step_nonneg |].
  intros u6 w6 [H6 _]. rewrite bind_click.
  destruct (record_click_Advances (x + dx) (y + dy) (stop_event w6) w6)
    as (_ & Hc7 & _).
  set (w7 := record (Clicked (x + dx) (y + dy) (stop_event w6)) w6) in *.
  eapply ensures_bind; [apply between_tiles_ensures |].
  intros u8 w8 H8. cbv beta in H8. unfold ret, ensures.
  exists dx, dy, 2%nat.
  destruct H8 as [_ _ Hc8 _ _ _ _ _ _]. destruct H6 as [_ _ Hc6 _ _ _ _ _ _].
  destruct H35 as [_ _ Hc5 _ _ _ _ _ _].
  rewrite Hc8, Hc7, Hc6, Hc5, Hc03, <- app_assoc. cbn.
  repeat split; intros; try lia; try congruence; reflexivity.
Qed.

(** X19.  [click_tile] of the first script returns [True] exactly when it
    made the second click: the clicks it adds are all at one point, two of
    them when it returns [True] and at most one otherwise, none exactly when
    the stop event was set on entry; and it returns [True] only if
    [DOUBLE_CLICK] is on. *)
Theorem click_tile_replanted (fuel : nat) (k : Script.Constants) (x y : Z)
    (w : World) (replanted : bool) (w' : World) :
  Script.click_tile fuel k x y w = Done replanted w' ->
  exists (dx dy : Z) (n : nat),
    clicks (trace w') = clicks (trace w) ++ repeat (x + dx, y + dy) n
    /\ (replanted = true <-> n = 2%nat)
    /\ (n <= 2)%nat
    /\ (replanted = true -> Script.DOUBLE_CLICK k = true)
    /\ (stop_event w = true <-> n = 0%nat).
Proof.
  intros H. pose proof (click_tile_ensures fuel k x y w) as E.
  rewrite H in E. exact E.
Qed.

Lemma click_tile_replanted_witness :
  Script.click_tile 30 script_constants 854 400 tile_world
  = Done (fst tile_outcome) (snd tile_outcome)
  /\ fst tile_outcome = true
  /\ clicks (trace (snd tile_outcome)) = [(854, 400); (854, 400)]
  /\ exists (dx dy : Z) (n : nat),
       clicks (trace (snd tile_outcome))
       = clicks (trace tile_world) ++ repeat (854 + dx, 400 + dy) n
       /\ (fst tile_outcome = true <-> n = 2%nat)
       /\ (n <= 2)%nat
       /\ (fst tile_outcome = true -> Script.DOUBLE_CLICK script_constants = true)
       /\ (stop_event tile_world = true <-> n = 0%nat).
Proof.
  assert (E : Script.click_tile 30 script_constants 854 400 tile_world
              = Done (fst tile_outcome) (snd tile_outcome))
    by (vm_compute; reflexivity).
  split; [exact E |]. split; [reflexivity |]. split; [reflexivity |].
  apply (click_tile_replanted _ _ _ _ _ _ _ E).
Defined.

(** ** The countdown *)

Lemma countdown_step (fuel : nat) (s : Z) :
  0 < s ->
  countdown (S fuel) (mkCountdown s false)
  = (s :: fst (countdown fuel (mkCountdown (s - 1) false)),
     snd (countdown fuel (mkCountdown (s - 1) false))).
Proof.
  intros Hs. cbn [countdown]. unfold tick. cbn [cancelled seconds_left].
  destruct (Z.leb_spec s 0) as [H | H]; [lia |].
  destruct (countdown fuel (mkCountdown (s - 1) false)); reflexivity.
Qed.

Lemma countdown_from (n : nat) (fuel : nat) :
  countdown (S n + fuel) (mkCountdown (Z.of_nat n) false) = (down_from n, true).
Proof.
  induction n as [| n IH]; [reflexivity |].
  change (S (S n) + fuel)%nat with (S (S n + fuel)).
  rewrite countdown_step by lia.
  replace (Z.of_nat (S n) - 1) with (Z.of_nat n) by lia.
  rewrite IH. reflexivity.
Qed.

(** X20.  A countdown of [n >= 0] seconds that is not cancelled shows the
    labels [n, n - 1, ..., 1], one per tick, and calls [on_complete] at the
    tick after the last label; one that starts at zero or below completes at
    its first tick; a cancelled one shows nothing and never completes. *)
Theorem countdown_completes (n : nat) (fuel : nat) (s : Z) :
  countdown (S n + fuel) (mkCountdown (Z.of_nat n) false) = (down_from n, true)
  /\ length (down_from n) = n
  /\ (s <= 0 -> countdown (S fuel) (mkCountdown s false) = ([], true))
  /\ countdown fuel (cancel (mkCountdown s false)) = ([], false).
Proof.
  split; [apply countdown_from |]. split.
  - induction n as [| n IH]; [reflexivity |]. cbn [down_from length].
    rewrite IH. reflexivity.
  - split.
    + intros Hs. cbn [countdown]. unfold tick. cbn [cancelled seconds_left].
      destruct (Z.leb_spec s 0); [reflexivity | lia].
    + destruct fuel; reflexivity.
Qed.
